(** * Falken data store: a shallow embedding of [service/data_store/data_store.py]

    The development models the resource store of the Falken service
    (encoder, resolver, [ResourceStore] and [DataStore]) and proves the
    properties its specification states about reading, writing and paginated
    listing, and further properties of the store, of its assignment
    callbacks and of [record_evaluations] in [service/learner/storage.py].

    Conventions.
    - A Python [str] is a Rocq [string] holding its UTF-8 bytes, so
      [value.encode('utf-8')] is the identity on the representation and the
      code-point order of Python coincides with the byte-wise order used here.
    - A Python [int] is a [Z]; the 64-bit range of the timestamp field and
      the limit Python puts on the length of decimal numerals are not
      modelled.
    - An exception is a value of [exn]; a call that may raise returns a
      [result].
    - [time.time()] is an input: [write] takes the value the clock would
      give. *)

From Stdlib Require Import Ascii.
From stdpp Require Import gmap strings list fin_maps sorting.

Local Open Scope Z_scope.

(** ** Exceptions and results *)

(** The [raise] sites of the module.  Python uses [ValueError] for several
    unrelated failures; the constructor argument records which site raised. *)
Inductive value_error :=
  | NotASupportedResourceType   (* _get_proto_type *)
  | WrongResourceType           (* encode_resource *)
  | NotAValidResourceType       (* to_resource_id *)
  | DifferentTimestamp          (* write *)
  | InvalidToken                (* _decode_token *)
  | InvalidIntLiteral.          (* int(...) *)

Inductive exn :=
  | NotFoundError
  | InternalError
  | ValueError (why : value_error)
  | AssertionError
  | IndexError
  | FileNotFoundError
  | DecodeError.

Inductive result (A : Type) :=
  | Ok (a : A)
  | Raise (e : exn).
Arguments Ok {A} a.
Arguments Raise {A} e.

(** The error monad; [x ← r; k] runs [k] when [r] returned and propagates
    the exception otherwise. *)
Global Instance result_ret : MRet result := fun A a => Ok a.
Global Instance result_bind : MBind result := fun A B k r =>
  match r with
  | Ok a => k a
  | Raise e => Raise e
  end.

Global Instance value_error_eq_dec : EqDecision value_error.
Proof. solve_decision. Defined.
Global Instance exn_eq_dec : EqDecision exn.
Proof. solve_decision. Defined.

(** ** Python strings *)

Module PyStr.

Definition slash : ascii := "/"%char.
Definition colon : ascii := ":"%char.

Definition is_empty (s : string) : bool :=
  match s with EmptyString => true | String _ _ => false end.

(** Truthiness of a [str]: the empty string is false. *)
Definition truthy (s : string) : bool := negb (is_empty s).

Fixpoint contains (c : ascii) (s : string) : bool :=
  match s with
  | EmptyString => false
  | String a s' => Ascii.eqb a c || contains c s'
  end.

(** [s[n:]] *)
Fixpoint drop (n : nat) (s : string) : string :=
  match n, s with
  | O, _ => s
  | S n', String _ s' => drop n' s'
  | S _, EmptyString => EmptyString
  end.

(** [s.startswith(p)] *)
Definition startswith (p s : string) : bool := String.prefix p s.

(** [s.lstrip(chars)] for a character class [p]. *)
Fixpoint lstrip (p : ascii → bool) (s : string) : string :=
  match s with
  | EmptyString => EmptyString
  | String a s' => if p a then lstrip p s' else s
  end.

(** [s.rstrip(chars)] for a character class [p]. *)
Fixpoint rstrip (p : ascii → bool) (s : string) : string :=
  match s with
  | EmptyString => EmptyString
  | String a s' =>
      let r := rstrip p s' in
      if p a && is_empty r then EmptyString else String a r
  end.

Fixpoint all (p : ascii → bool) (s : string) : bool :=
  match s with
  | EmptyString => true
  | String a s' => p a && all p s'
  end.

(** [s.split(sep)] for a one-character separator: the pieces between the
    occurrences of [sep], of which there is always at least one. *)
Fixpoint split (sep : ascii) (s : string) : list string :=
  match s with
  | EmptyString => [EmptyString]
  | String a s' =>
      if Ascii.eqb a sep then EmptyString :: split sep s'
      else match split sep s' with
           | piece :: rest => String a piece :: rest
           | [] => [String a EmptyString]
           end
  end.

(** [sep.join(l)] *)
Fixpoint join (sep : string) (l : list string) : string :=
  match l with
  | [] => EmptyString
  | [x] => x
  | x :: rest => x +:+ sep +:+ join sep rest
  end.

(** *** Decimal rendering of integers: [str(n)], [f'{n}'], [f'{n:016d}'] *)

Definition digit_char (d : Z) : ascii :=
  ascii_of_N (48 + Z.to_N d).

(** The digits of [n >= 0], most significant first, in front of [acc]. *)
Fixpoint digits_go (fuel : nat) (n : Z) (acc : string) : string :=
  match fuel with
  | O => acc
  | S fuel' =>
      let acc' := String (digit_char (n mod 10)) acc in
      if n <? 10 then acc' else digits_go fuel' (n / 10) acc'
  end.

Definition digits (n : Z) : string :=
  digits_go (S (Z.to_nat (Z.log2 n))) n EmptyString.

(** [str(n)] *)
Definition of_int (n : Z) : string :=
  if n <? 0 then String "-" (digits (- n)) else digits n.

Fixpoint zeros (k : nat) : string :=
  match k with
  | O => EmptyString
  | S k' => String "0" (zeros k')
  end.

(** [f'{n:0{width}d}']: the sign, then zeros up to [width] characters in
    all, then the digits. *)
Definition of_int_zero_padded (width : nat) (n : Z) : string :=
  if n <? 0 then
    let d := digits (- n) in
    String "-" (zeros (width - 1 - String.length d) +:+ d)
  else
    let d := digits n in
    zeros (width - String.length d) +:+ d.

(** *** [int(s)] on ASCII input

    Surrounding whitespace is stripped, one sign is accepted, and the rest
    must be decimal digits, single underscores being allowed between two
    digits. *)

Definition is_space (a : ascii) : bool :=
  let n := N_of_ascii a in
  ((9 <=? n) && (n <=? 13) || (28 <=? n) && (n <=? 32))%N.

Definition digit_value (a : ascii) : option Z :=
  let n := N_of_ascii a in
  if ((48 <=? n) && (n <=? 57))%N then Some (Z.of_N n - 48) else None.

Definition is_digit (a : ascii) : bool :=
  match digit_value a with Some _ => true | None => false end.

Definition is_sign_or_digit (a : ascii) : bool :=
  Ascii.eqb a "-" || is_digit a.

(** [after_digit] tells whether the previous character was a digit, which
    is where an underscore may stand. *)
Fixpoint parse_digits (after_digit : bool) (acc : Z) (s : string) : option Z :=
  match s with
  | EmptyString => if after_digit then Some acc else None
  | String a s' =>
      match digit_value a with
      | Some d => parse_digits true (10 * acc + d) s'
      | None =>
          if Ascii.eqb a "_" && after_digit
          then match s' with
               | String b _ =>
                   match digit_value b with
                   | Some _ => parse_digits false acc s'
                   | None => None
                   end
               | EmptyString => None
               end
          else None
      end
  end.

Definition parse_int (s : string) : option Z :=
  let t := rstrip is_space (lstrip is_space s) in
  match t with
  | String "-" t' => Z.opp <$> parse_digits false 0 t'
  | String "+" t' => parse_digits false 0 t'
  | _ => parse_digits false 0 t
  end.

Definition int (s : string) : result Z :=
  match parse_int s with
  | Some n => Ok n
  | None => Raise (ValueError InvalidIntLiteral)
  end.

End PyStr.

(** ** [os.path] on POSIX *)

Module OsPath.

Definition is_slash (a : ascii) : bool := Ascii.eqb a PyStr.slash.

Fixpoint endswith_slash (s : string) : bool :=
  match s with
  | EmptyString => false
  | String a EmptyString => is_slash a
  | String _ s' => endswith_slash s'
  end.

(** [os.path.join(a, b)] *)
Definition join (a b : string) : string :=
  if PyStr.startswith "/" b then b
  else if PyStr.is_empty a || endswith_slash a then a +:+ b
  else a +:+ "/" +:+ b.

(** [p[:i]] and [p[i:]] for [i = p.rfind('/') + 1]. *)
Fixpoint head (p : string) : string :=
  match p with
  | EmptyString => EmptyString
  | String a p' =>
      if PyStr.contains PyStr.slash p' then String a (head p')
      else if is_slash a then "/" else EmptyString
  end.

Fixpoint basename (p : string) : string :=
  match p with
  | EmptyString => EmptyString
  | String a p' =>
      if PyStr.contains PyStr.slash p' then basename p'
      else if is_slash a then p' else p
  end.

(** [os.path.dirname(p)]: the head, without its trailing slashes unless it
    consists of slashes only. *)
Definition dirname (p : string) : string :=
  let h := head p in
  if PyStr.truthy h && negb (PyStr.all is_slash h)
  then PyStr.rstrip is_slash h else h.

End OsPath.

(** ** The file system *)

(** Modelled from the spec: the module [file_system] is not part of the
    sources at hand.  Section 6 of the specification describes it as a
    namespaced byte store: [write_file] creates or overwrites the file at an
    exact path, [read_file] fails with a not-found condition when the file is
    absent, and [glob] returns the existing files matching a pattern in which
    [*] stands for any content of one path segment and [{a,b,c}] for an
    alternation. *)
Module FileSystem.

Inductive glob_token :=
  | Lit (c : ascii)
  | Star
  | Alt (alternatives : list string).

(** Reading a pattern.  Inside braces [cur] is the alternative being read
    and [done] the finished ones, both reversed; a brace that is never
    closed is an ordinary character. *)
Fixpoint tokens_go (st : option (list string * string)) (s : string)
  : list glob_token :=
  match s with
  | EmptyString => []
  | String a s' =>
      match st with
      | None =>
          if Ascii.eqb a "*" then Star :: tokens_go None s'
          else if Ascii.eqb a "{" && PyStr.contains "}" s'
          then tokens_go (Some ([], EmptyString)) s'
          else Lit a :: tokens_go None s'
      | Some (done, cur) =>
          if Ascii.eqb a "}"
          then Alt (rev (String.rev cur :: done)) :: tokens_go None s'
          else if Ascii.eqb a ","
          then tokens_go (Some (String.rev cur :: done, EmptyString)) s'
          else tokens_go (Some (done, String a cur)) s'
      end
  end.

Definition tokens (pattern : string) : list glob_token :=
  tokens_go None pattern.

Fixpoint strip_prefix (p s : string) : option string :=
  match p, s with
  | EmptyString, _ => Some s
  | String a p', String b s' =>
      if Ascii.eqb a b then strip_prefix p' s' else None
  | String _ _, EmptyString => None
  end.

Fixpoint matches (p : list glob_token) : string → bool :=
  match p with
  | [] => PyStr.is_empty
  | Lit c :: p' => fun s =>
      match s with
      | String a s' => Ascii.eqb c a && matches p' s'
      | EmptyString => false
      end
  | Star :: p' =>
      fix star (s : string) : bool :=
        matches p' s ||
        match s with
        | String a s' => negb (OsPath.is_slash a) && star s'
        | EmptyString => false
        end
  | Alt alternatives :: p' => fun s =>
      existsb (fun alt =>
                 match strip_prefix alt s with
                 | Some s' => matches p' s'
                 | None => false
                 end) alternatives
  end.

Definition glob_match (pattern path : string) : bool :=
  matches (tokens pattern) path.

(** The store: a finite map from paths to file contents. *)
Abbreviation t := (gmap string string).

Definition write_file (fs : t) (path data : string) : t :=
  <[path := data]> fs.

Definition read_file (fs : t) (path : string) : result string :=
  match fs !! path with
  | Some data => Ok data
  | None => Raise FileNotFoundError
  end.

Definition glob (fs : t) (pattern : string) : list string :=
  filter (λ path, glob_match pattern path) (map_to_list fs).*1.

End FileSystem.

(** ** [hashlib.sha256]

    SHA-256 as FIPS 180-4 defines it, on 32-bit words held in [Z]. *)
Module Sha256.

Definition w32 (x : Z) : Z := Z.land x 0xffffffff.
Definition add32 (x y : Z) : Z := w32 (x + y).
Definition rotr (n x : Z) : Z :=
  Z.lor (Z.shiftr x n) (w32 (Z.shiftl x (32 - n))).
Definition not32 (x : Z) : Z := Z.lxor x 0xffffffff.

Definition ch (x y z : Z) : Z :=
  Z.lxor (Z.land x y) (Z.land (not32 x) z).
Definition maj (x y z : Z) : Z :=
  Z.lxor (Z.lxor (Z.land x y) (Z.land x z)) (Z.land y z).
Definition big_sigma0 (x : Z) : Z :=
  Z.lxor (Z.lxor (rotr 2 x) (rotr 13 x)) (rotr 22 x).
Definition big_sigma1 (x : Z) : Z :=
  Z.lxor (Z.lxor (rotr 6 x) (rotr 11 x)) (rotr 25 x).
Definition small_sigma0 (x : Z) : Z :=
  Z.lxor (Z.lxor (rotr 7 x) (rotr 18 x)) (Z.shiftr x 3).
Definition small_sigma1 (x : Z) : Z :=
  Z.lxor (Z.lxor (rotr 17 x) (rotr 19 x)) (Z.shiftr x 10).

(** The first sixty-four primes. *)
Definition primes : list Z :=
  [2; 3; 5; 7; 11; 13; 17; 19; 23; 29; 31; 37; 41; 43; 47; 53; 59; 61; 67;
   71; 73; 79; 83; 89; 97; 101; 103; 107; 109; 113; 127; 131; 137; 139; 149;
   151; 157; 163; 167; 173; 179; 181; 191; 193; 197; 199; 211; 223; 227; 229;
   233; 239; 241; 251; 257; 263; 269; 271; 277; 281; 283; 293; 307; 311].

(** The integer cube root, one bit at a time from bit [bits - 1] down. *)
Fixpoint cube_root_go (bits : nat) (n r : Z) : Z :=
  match bits with
  | O => r
  | S bits' =>
      let c := r + 2 ^ Z.of_nat bits' in
      cube_root_go bits' n (if c * c * c <=? n then c else r)
  end.

(** The first 32 bits of the fractional part of the cube root and of the
    square root of [p]. *)
Definition cube_root_fraction (p : Z) : Z :=
  w32 (cube_root_go 40 (p * 2 ^ 96) 0).
Definition square_root_fraction (p : Z) : Z :=
  w32 (Z.sqrt (p * 2 ^ 64)).

(** The round constants: the cube root fractions of the primes. *)
Definition round_constants : list Z :=
  Eval vm_compute in cube_root_fraction <$> primes.

(** The eight working words. *)
Record state := State {
  ha : Z; hb : Z; hc : Z; hd : Z; he : Z; hf : Z; hg : Z; hh : Z }.

(** The initial hash value: the square root fractions of the first eight
    primes. *)
Definition initial_state : state :=
  Eval vm_compute in
    State (square_root_fraction 2) (square_root_fraction 3)
          (square_root_fraction 5) (square_root_fraction 7)
          (square_root_fraction 11) (square_root_fraction 13)
          (square_root_fraction 17) (square_root_fraction 19).

Definition bytes_of (s : string) : list Z :=
  (λ a, Z.of_N (N_of_ascii a)) <$> String.list_ascii_of_string s.

(** The length in bits as eight bytes, most significant first. *)
Definition length_bytes (bits : Z) : list Z :=
  (λ i, Z.land (Z.shiftr bits (8 * (7 - Z.of_nat i))) 0xff) <$> seq 0 8.

(** The message, a one bit, zero bits up to 56 bytes modulo 64, the length. *)
Definition pad (message : list Z) : list Z :=
  let len := Z.of_nat (length message) in
  message ++ [0x80] ++ replicate (Z.to_nat ((55 - len) mod 64)) 0
          ++ length_bytes (8 * len).

Fixpoint words_of (fuel : nat) (bytes : list Z) : list Z :=
  match fuel, bytes with
  | S fuel', b0 :: b1 :: b2 :: b3 :: rest =>
      Z.lor (Z.shiftl b0 24) (Z.lor (Z.shiftl b1 16) (Z.lor (Z.shiftl b2 8) b3))
      :: words_of fuel' rest
  | _, _ => []
  end.

Definition word_at (ws : list Z) (i : nat) : Z := default 0 (ws !! i).

(** The message schedule: sixteen words extended to sixty-four. *)
Fixpoint extend (steps : nat) (ws : list Z) : list Z :=
  match steps with
  | O => ws
  | S steps' =>
      let t := length ws in
      let wt :=
        add32 (add32 (small_sigma1 (word_at ws (t - 2))) (word_at ws (t - 7)))
              (add32 (small_sigma0 (word_at ws (t - 15))) (word_at ws (t - 16)))
      in extend steps' (ws ++ [wt])
  end.

Definition round (s : state) (kw : Z * Z) : state :=
  let t1 := add32 (add32 (add32 (hh s) (big_sigma1 (he s)))
                         (add32 (ch (he s) (hf s) (hg s)) kw.1)) kw.2 in
  let t2 := add32 (big_sigma0 (ha s)) (maj (ha s) (hb s) (hc s)) in
  State (add32 t1 t2) (ha s) (hb s) (hc s) (add32 (hd s) t1) (he s) (hf s) (hg s).

Definition compress (s : state) (block : list Z) : state :=
  let schedule := extend 48 block in
  let r := foldl round s (zip round_constants schedule) in
  State (add32 (ha s) (ha r)) (add32 (hb s) (hb r)) (add32 (hc s) (hc r))
        (add32 (hd s) (hd r)) (add32 (he s) (he r)) (add32 (hf s) (hf r))
        (add32 (hg s) (hg r)) (add32 (hh s) (hh r)).

Fixpoint blocks (fuel : nat) (ws : list Z) : list (list Z) :=
  match fuel, ws with
  | S fuel', _ :: _ => take 16 ws :: blocks fuel' (drop 16 ws)
  | _, _ => []
  end.

Definition digest (message : list Z) : state :=
  let ws := words_of (length (pad message)) (pad message) in
  foldl compress initial_state (blocks (length ws) ws).

Definition hex_char (nibble : Z) : ascii :=
  if nibble <? 10 then ascii_of_N (48 + Z.to_N nibble)
  else ascii_of_N (87 + Z.to_N nibble).

Definition hex_word (x : Z) (rest : string) : string :=
  foldr (λ i acc, String (hex_char (Z.land (Z.shiftr x (4 * Z.of_nat i)) 0xf)) acc)
        rest [7; 6; 5; 4; 3; 2; 1; 0]%nat.

Definition hex_of_state (s : state) : string :=
  hex_word (ha s) (hex_word (hb s) (hex_word (hc s) (hex_word (hd s)
    (hex_word (he s) (hex_word (hf s) (hex_word (hg s)
      (hex_word (hh s) EmptyString))))))).

(** [hashlib.sha256(data).hexdigest()] *)
Definition hexdigest (data : string) : string :=
  hex_of_state (digest (bytes_of data)).

End Sha256.

(** ** Python dictionaries with string keys

    A [dict] keeps its items in insertion order, which [items()] and keyword
    expansion observe: an association list with distinct keys. *)
Module Dict.

Fixpoint get {V} (d : list (string * V)) (key : string) : option V :=
  match d with
  | [] => None
  | (k, v) :: d' => if String.eqb k key then Some v else get d' key
  end.

(** [d[key] = value] *)
Fixpoint set {V} (d : list (string * V)) (key : string) (value : V)
  : list (string * V) :=
  match d with
  | [] => [(key, value)]
  | (k, v) :: d' =>
      if String.eqb k key then (k, value) :: d' else (k, v) :: set d' key value
  end.

End Dict.

(** ** Resources: the messages of [data_store_pb2] *)

(** The runtime type of an object handed to the store: one of the ten message
    classes, or anything else. *)
Inductive proto_type :=
  | Project | Brain | Snapshot | Session | EpisodeChunk | OnlineEvaluation
  | Assignment | Model | SerializedModel | OfflineEvaluation
  | OtherType (name : string).

Global Instance proto_type_eq_dec : EqDecision proto_type.
Proof. solve_decision. Defined.

(** Modelled from the spec: the generated module [data_store_pb2] is not part
    of the sources at hand.  A record is an opaque typed payload with a
    creation timestamp in microseconds, in which 0 means unset, and named
    fields; a field that was never set reads as the empty default. *)
Record DatastoreProto := {
  type_of : proto_type;
  created_micros : Z;
  fields : gmap string string;
}.

Global Instance DatastoreProto_eq_dec : EqDecision DatastoreProto.
Proof. solve_decision. Defined.

Definition getattr (resource : DatastoreProto) (field_name : string) : string :=
  default EmptyString (fields resource !! field_name).

(** Modelled from the spec: serialisation is the generated code's;
    [SerializeToString] is deterministic and never fails, [FromString] returns
    a message of the requested class, or nothing when the bytes are malformed,
    which the caller sees as [DecodeError]. *)
Class ProtoCodec := {
  SerializeToString : DatastoreProto → string;
  FromString : proto_type → string → option DatastoreProto;
}.

(** What protobuf guarantees of a message and its own serialisation. *)
Class ProtoCodecLaws `{codec : ProtoCodec} := {
  FromString_SerializeToString resource :
    FromString (type_of resource) (SerializeToString resource) = Some resource;
}.

(** A codec to run the store on concrete inputs: the timestamp and the fields,
    numbered by their countable encoding and written in binary.  Any codec
    satisfying [ProtoCodecLaws] would do. *)
Module BinaryCodec.

Fixpoint bits_of (p : positive) : string :=
  match p with
  | xH => EmptyString
  | xO p' => String "0" (bits_of p')
  | xI p' => String "1" (bits_of p')
  end.

Fixpoint of_bits (s : string) : option positive :=
  match s with
  | EmptyString => Some xH
  | String a s' =>
      if Ascii.eqb a "0" then xO <$> of_bits s'
      else if Ascii.eqb a "1" then xI <$> of_bits s'
      else None
  end.

Definition serialize (resource : DatastoreProto) : string :=
  bits_of (encode (created_micros resource, fields resource)).

Definition parse (ty : proto_type) (data : string) : option DatastoreProto :=
  p ← of_bits data;
  content ← decode (A := Z * gmap string string) p;
  Some {| type_of := ty; created_micros := content.1; fields := content.2 |}.

Definition codec : ProtoCodec :=
  {| SerializeToString := serialize; FromString := parse |}.

End BinaryCodec.

(** ** Resource identifiers *)

(** Modelled from the spec: the module [resource_id] is not part of the
    sources at hand.  An identifier is an ordered sequence of collection names
    and instance ids, its canonical string the path join of these segments;
    [FalkenResourceId], given an accessor map, lays out one (collection, id) pair per
    accessor, the collection being the plural of the accessor name. *)
Module resource_id.

Record ResourceId := { parts : list string }.

Definition str (res_id : ResourceId) : string :=
  PyStr.join "/" (parts res_id).

Definition FalkenResourceId (accessor_map : list (string * string))
  : ResourceId :=
  {| parts := accessor_map ≫= λ '(accessor, value), [accessor +:+ "s"; value] |}.

Global Instance ResourceId_eq_dec : EqDecision ResourceId.
Proof. solve_decision. Defined.

End resource_id.
Import resource_id.

(** ** [_FalkenResourceEncoder] *)

Definition _PROTO_BY_COLLECTION_ID : list (string * proto_type) :=
  [ ("projects", Project);
    ("brains", Brain);
    ("snapshots", Snapshot);
    ("sessions", Session);
    ("chunks", EpisodeChunk);
    ("online_evaluations", OnlineEvaluation);
    ("assignments", Assignment);
    ("models", Model);
    ("serialized_models", SerializedModel);
    ("offline_evaluations", OfflineEvaluation) ].

Definition _get_proto_type (res_id : ResourceId) : result proto_type :=
  if bool_decide (length (parts res_id) < 2)%nat then Raise AssertionError
  else
    match parts res_id !! (length (parts res_id) - 2)%nat with
    | None => Raise IndexError
    | Some collection_id =>
        match Dict.get _PROTO_BY_COLLECTION_ID collection_id with
        | Some ty => Ok ty
        | None => Raise (ValueError NotASupportedResourceType)
        end
    end.

Section encoder.
Context `{codec : ProtoCodec}.

Definition encode_resource (res_id : ResourceId) (resource : DatastoreProto)
  : result string :=
  expected_type ← _get_proto_type res_id;
  if bool_decide (type_of resource = expected_type)
  then Ok (SerializeToString resource)
  else Raise (ValueError WrongResourceType).

Definition decode_resource (res_id : ResourceId) (data : string)
  : result DatastoreProto :=
  proto_type ← _get_proto_type res_id;
  match FromString proto_type data with
  | Some resource => Ok resource
  | None => Raise DecodeError
  end.

End encoder.

(** ** [FalkenResourceHandler] *)

Definition _KEY_FIELD_MAP (ty : proto_type) : option (list (string * string)) :=
  match ty with
  | Project => Some [("project_id", "project")]
  | Brain => Some [("project_id", "project"); ("brain_id", "brain")]
  | Snapshot =>
      Some [("project_id", "project"); ("brain_id", "brain");
            ("snapshot_id", "snapshot")]
  | Session =>
      Some [("project_id", "project"); ("brain_id", "brain");
            ("session_id", "session")]
  | EpisodeChunk =>
      Some [("project_id", "project"); ("brain_id", "brain");
            ("session_id", "session"); ("episode_id", "episode");
            ("chunk_id", "chunk")]
  | OnlineEvaluation =>
      Some [("project_id", "project"); ("brain_id", "brain");
            ("session_id", "session"); ("episode_id", "online_evaluation")]
  | Assignment =>
      Some [("project_id", "project"); ("brain_id", "brain");
            ("session_id", "session"); ("assignment_id", "assignment")]
  | Model =>
      Some [("project_id", "project"); ("brain_id", "brain");
            ("session_id", "session"); ("model_id", "model")]
  | SerializedModel =>
      Some [("project_id", "project"); ("brain_id", "brain");
            ("session_id", "session"); ("model_id", "serialized_model")]
  | OfflineEvaluation =>
      Some [("project_id", "project"); ("brain_id", "brain");
            ("session_id", "session"); ("model_id", "model");
            ("offline_evaluation_id", "offline_evaluation")]
  | OtherType _ => None
  end.

(** [resource.created_micros or None] *)
Definition get_timestamp_micros (resource : DatastoreProto) : option Z :=
  if bool_decide (created_micros resource = 0) then None
  else Some (created_micros resource).

Definition set_timestamp_micros (resource : DatastoreProto)
  (timestamp_micros : Z) : DatastoreProto :=
  {| type_of := type_of resource;
     created_micros := timestamp_micros;
     fields := fields resource |}.

(** The value a key field contributes to the identifier. *)
Definition key_value (resource : DatastoreProto) (field_name : string) : string :=
  let value := getattr resource field_name in
  if String.eqb field_name "assignment_id"
  then Sha256.hexdigest value
  else value.

(** The body of the loop of [to_resource_id]: the accessor map after the
    remaining items of the field map. *)
Fixpoint fill_accessor_map (resource : DatastoreProto)
  (items accessor_map : list (string * string)) : list (string * string) :=
  match items with
  | [] => accessor_map
  | (field_name, accessor_name) :: items' =>
      fill_accessor_map resource items'
        (Dict.set accessor_map accessor_name (key_value resource field_name))
  end.

Definition to_resource_id (resource : DatastoreProto) : result ResourceId :=
  match _KEY_FIELD_MAP (type_of resource) with
  | None => Raise (ValueError NotAValidResourceType)
  | Some field_map =>
      Ok (FalkenResourceId (fill_accessor_map resource field_map []))
  end.

(** ** [ResourceStore] *)

(** Truthiness of an [Optional[int]]: [None] and 0 are false. *)
Definition truthy_int (n : option Z) : bool :=
  match n with
  | Some n => negb (n =? 0)
  | None => false
  end.

(** Truthiness of an [Optional[str]]: [None] and the empty string are false. *)
Definition truthy_str (s : option string) : bool :=
  match s with
  | Some s => PyStr.truthy s
  | None => false
  end.

Definition _RESOURCE_PREFIX : string := "resource.".

Definition _get_filename (timestamp_micros : Z) : string :=
  _RESOURCE_PREFIX +:+ PyStr.of_int_zero_padded 16 timestamp_micros.

Definition _get_path (res_id : ResourceId) (timestamp_micros : Z) : string :=
  OsPath.join (str res_id) (_get_filename timestamp_micros).

(** [int(os.path.basename(file)[len(self._RESOURCE_PREFIX):])] *)
Definition timestamp_of_file (file : string) : result Z :=
  PyStr.int (PyStr.drop (String.length _RESOURCE_PREFIX) (OsPath.basename file)).

(** [self._fs.glob(os.path.join(str(res_id), f'{self._RESOURCE_PREFIX}*'))] *)
Definition resource_files (fs : FileSystem.t) (res_id : ResourceId)
  : list string :=
  FileSystem.glob fs (OsPath.join (str res_id) (_RESOURCE_PREFIX +:+ "*")).

Definition read_timestamp_micros (fs : FileSystem.t) (res_id : ResourceId)
  : result Z :=
  let files := resource_files fs res_id in
  match files with
  | [] => Raise NotFoundError
  | [file] =>
      match timestamp_of_file file with
      | Raise (ValueError _) => Raise InternalError
      | r => r
      end
  | _ :: _ :: _ => Raise InternalError
  end.

(** The [try] block of [write]: the stored timestamp, or [None] when
    [read_timestamp_micros] raises [NotFoundError]; other exceptions pass. *)
Definition stored_timestamp (fs : FileSystem.t) (res_id : ResourceId)
  : result (option Z) :=
  match read_timestamp_micros fs res_id with
  | Ok t => Ok (Some t)
  | Raise NotFoundError => Ok None
  | Raise e => Raise e
  end.

(** The state [write] leaves behind, whether it returns or raises: what it
    returned, the caller's record, which it may mutate, and the file system. *)
Record write_outcome := {
  returned : result ResourceId;
  resource_after : DatastoreProto;
  fs_after : FileSystem.t;
}.

Section store.
Context `{codec : ProtoCodec}.

(** Encoding and the file write that end [write]. *)
Definition write_encoded (fs : FileSystem.t) (res_id : ResourceId)
  (resource : DatastoreProto) (timestamp_micros : Z) : write_outcome :=
  match encode_resource res_id resource with
  | Raise e => Build_write_outcome (Raise e) resource fs
  | Ok data =>
      Build_write_outcome (Ok res_id) resource
        (FileSystem.write_file fs (_get_path res_id timestamp_micros) data)
  end.

(** [now] is the value of [int(time.time() * 1e6)], should [write] ask for
    the time. *)
Definition write (fs : FileSystem.t) (now : Z) (resource : DatastoreProto)
  : write_outcome :=
  match to_resource_id resource with
  | Raise e => Build_write_outcome (Raise e) resource fs
  | Ok res_id =>
      let timestamp_micros := get_timestamp_micros resource in
      match stored_timestamp fs res_id with
      | Raise e => Build_write_outcome (Raise e) resource fs
      | Ok read_timestamp =>
          if negb (truthy_int timestamp_micros) then
            let timestamp_micros :=
              if truthy_int read_timestamp
              then default 0 read_timestamp
              else now in
            let resource := set_timestamp_micros resource timestamp_micros in
            write_encoded fs res_id resource timestamp_micros
          else
            if truthy_int read_timestamp
               && negb (bool_decide (read_timestamp = timestamp_micros))
            then Build_write_outcome
                   (Raise (ValueError DifferentTimestamp)) resource fs
            else write_encoded fs res_id resource (default 0 timestamp_micros)
      end
  end.

Definition read (fs : FileSystem.t) (res_id : ResourceId)
  : result DatastoreProto :=
  timestamp_micros ← read_timestamp_micros fs res_id;
  data ← match FileSystem.read_file fs (_get_path res_id timestamp_micros) with
         | Raise FileNotFoundError => Raise NotFoundError
         | r => r
         end;
  decode_resource res_id data.

End store.

Definition _decode_token (token : option string) : result (Z * string) :=
  match token with
  | None => Ok (-1, EmptyString)
  | Some token =>
      match PyStr.split PyStr.colon token with
      | [timestamp; res_id] => t ← PyStr.int timestamp; Ok (t, res_id)
      | _ => Raise (ValueError InvalidToken)
      end
  end.

Definition _encode_token (timestamp_micros : Z) (res_id : string) : string :=
  PyStr.of_int timestamp_micros +:+ ":" +:+ res_id.

(** [sorted(zip(timestamps, paths))]: tuples compare by their first
    components and, these being equal, by their second. *)
Definition entry_leb (a b : Z * string) : bool :=
  (a.1 <? b.1) || ((a.1 =? b.1) && String.leb a.2 b.2).
Definition entry_le (a b : Z * string) : Prop := entry_leb a b.
Definition entry_lt (a b : Z * string) : Prop := entry_le a b ∧ a ≠ b.
Definition sorted (l : list (Z * string)) : list (Z * string) :=
  merge_sort entry_le l.

(** The variables the loop of [list] updates. *)
Record loop_state := {
  page : list string;
  last_timestamp_micros : Z;
  last_read_index : Z;
}.

Section list_loop.
Variable combined_min_timestamp : Z.
Variable page_token_res_id : option string.
Variable page_size : option Z.

(** The [continue] conditions. *)
Definition skipped (entry : Z * string) : bool :=
  (entry.1 <? combined_min_timestamp)
  || ((entry.1 =? combined_min_timestamp)
      && truthy_str page_token_res_id
      && String.leb entry.2 (default EmptyString page_token_res_id)).

(** The [for] loop over [enumerate(by_timestamp)]; [index] is the position
    of the first of [entries], and falling out of the match is the [break]
    or the end of the iteration. *)
Fixpoint list_loop (index : Z) (entries : list (Z * string))
  (st : loop_state) : loop_state :=
  match entries with
  | [] => st
  | entry :: entries' =>
      let st := {| page := page st;
                   last_timestamp_micros := last_timestamp_micros st;
                   last_read_index := index |} in
      if skipped entry then list_loop (index + 1) entries' st
      else
        let st := {| page := page st ++ [entry.2];
                     last_timestamp_micros := entry.1;
                     last_read_index := index |} in
        if truthy_int page_size
           && bool_decide (Some (Z.of_nat (length (page st))) = page_size)
        then st
        else list_loop (index + 1) entries' st
  end.
End list_loop.

(** The values before the loop starts. *)
Definition initial_loop_state : loop_state :=
  {| page := []; last_timestamp_micros := 0; last_read_index := -1 |}.

(** A page size that is absent, zero or negative never stops the loop. *)
Definition unbounded (page_size : option Z) : Prop :=
  match page_size with
  | Some k => k ≤ 0
  | None => True
  end.

(** [files], [paths], [timestamps] and [by_timestamp] of [list]. *)
Definition by_timestamp (fs : FileSystem.t) (res_id_glob : ResourceId)
  : result (list (Z * string)) :=
  let glob_path := OsPath.join (str res_id_glob) "*" in
  let files := FileSystem.glob fs glob_path in
  let paths := OsPath.dirname <$> files in
  timestamps ← mapM timestamp_of_file files;
  Ok (sorted (zip timestamps paths)).

(** [combined_min_timestamp] and [page_token_res_id] of [list]. *)
Definition page_bounds (min_timestamp_micros : Z) (page_token : option string)
  : result (Z * option string) :=
  if truthy_str page_token then
    decoded ← _decode_token page_token;
    Ok (Z.max decoded.1 min_timestamp_micros, Some decoded.2)
  else Ok (min_timestamp_micros, None).

(** The body of [list] once [by_timestamp] is computed. *)
Definition list_page (by_timestamp : list (Z * string))
  (min_timestamp_micros : Z) (page_token : option string)
  (page_size : option Z) : result (list string * string) :=
  bounds ← page_bounds min_timestamp_micros page_token;
  let st :=
    list_loop bounds.1 bounds.2 page_size 0 by_timestamp initial_loop_state in
  if last_read_index st =? Z.of_nat (length by_timestamp) - 1
  then Ok (page st, EmptyString)
  else
    match last (page st) with
    | None => Raise IndexError
    | Some res_id => Ok (page st, _encode_token (last_timestamp_micros st) res_id)
    end.

Definition list_ (fs : FileSystem.t) (res_id_glob : ResourceId)
  (min_timestamp_micros : Z) (page_token : option string)
  (page_size : option Z) : result (list string * string) :=
  by_timestamp ← by_timestamp fs res_id_glob;
  list_page by_timestamp min_timestamp_micros page_token page_size.

(** ** [DataStore] *)

(** [resource_ids[-1] if resource_ids else None] *)
Definition _get_most_recent (fs : FileSystem.t) (res_id_glob : ResourceId)
  : result (option string) :=
  listed ← list_ fs res_id_glob 0 None None;
  Ok (last listed.1).

Definition get_most_recent_snapshot (fs : FileSystem.t)
  (project_id brain_id : string) : result (option string) :=
  _get_most_recent fs
    (FalkenResourceId
       [("project", project_id); ("brain", brain_id); ("snapshot", "*")]).

(** ** A client that pages through a listing

    The loop the specification's pagination property describes: call [list]
    with the token of the previous page until the token comes back empty, and
    concatenate the pages.  [calls] bounds the number of calls; [None] is
    returned when it does not suffice. *)
Fixpoint collect_pages (calls : nat) (fs : FileSystem.t)
  (res_id_glob : ResourceId) (min_timestamp_micros : Z)
  (page_token : option string) (page_size : option Z)
  : option (result (list string)) :=
  match calls with
  | O => None
  | S calls' =>
      match list_ fs res_id_glob min_timestamp_micros page_token page_size with
      | Raise e => Some (Raise e)
      | Ok (page, next_token) =>
          if PyStr.is_empty next_token then Some (Ok page)
          else
            match collect_pages calls' fs res_id_glob min_timestamp_micros
                    (Some next_token) page_size with
            | Some (Ok pages) => Some (Ok (page ++ pages))
            | other => other
            end
      end
  end.

(** ** Vocabulary for paths and patterns *)

(** What [os.path.join(a, b)] puts in front of a relative [b]. *)
Definition dir_prefix (a : string) : string :=
  if PyStr.is_empty a || OsPath.endswith_slash a then a else a +:+ "/".

(** A string without glob syntax: as a pattern it matches itself only.  The
    specification calls identifiers of this kind concrete. *)
Definition literal (s : string) : Prop :=
  PyStr.contains "*" s = false ∧ PyStr.contains "{" s = false.

(** The part of the paths of an identifier's files that precedes the
    timestamp. *)
Definition resource_path_prefix (res_id : ResourceId) : string :=
  dir_prefix (str res_id) +:+ _RESOURCE_PREFIX.

(** ** Example stores and records *)

(** A store holding an empty file at each of the given paths. *)
Definition store_with (paths : list string) : FileSystem.t :=
  foldl (λ fs path, FileSystem.write_file fs path EmptyString) ∅ paths.

Definition new_resource (ty : proto_type) (created : Z)
  (key_fields : list (string * string)) : DatastoreProto :=
  {| type_of := ty; created_micros := created;
     fields := list_to_map key_fields |}.

(** Three brains of one project, with increasing timestamps. *)
Definition three_brains : FileSystem.t :=
  store_with [ "projects/p1/brains/b3/resource.0000000000000030";
               "projects/p1/brains/b1/resource.0000000000000010";
               "projects/p1/brains/b2/resource.0000000000000020" ].

Definition brains_of_p1 : ResourceId :=
  FalkenResourceId [("project", "p1"); ("brain", "*")].

(** Two brains of a project whose id contains a colon. *)
Definition colon_brains : FileSystem.t :=
  store_with [ "projects/p:1/brains/b1/resource.0000000000000001";
               "projects/p:1/brains/b2/resource.0000000000000002" ].

Definition brains_of_colon_project : ResourceId :=
  FalkenResourceId [("project", "p:1"); ("brain", "*")].

(** A snapshot written with a creation time before the epoch. *)
Definition early_snapshot : DatastoreProto :=
  new_resource Snapshot (-5)
    [("project_id", "p1"); ("brain_id", "b1"); ("snapshot_id", "s1")].

Definition early_snapshot_store : FileSystem.t :=
  fs_after (write (codec := BinaryCodec.codec) ∅ 1700000000000000 early_snapshot).

Definition brain_b1 : DatastoreProto :=
  new_resource Brain 0 [("project_id", "p1"); ("brain_id", "b1")].

Definition id_of_brain_b1 : ResourceId :=
  {| parts := ["projects"; "p1"; "brains"; "b1"] |}.

Definition assignment_a1 : DatastoreProto :=
  new_resource Assignment 0
    [("project_id", "p1"); ("brain_id", "b1"); ("session_id", "s1");
     ("assignment_id", "abc")].

Definition project_p1 (created : Z) : DatastoreProto :=
  new_resource Project created [("project_id", "p1")].

Definition id_of_project_p1 : ResourceId :=
  {| parts := ["projects"; "p1"] |}.

(** A store whose only file carries the timestamp 0. *)
Definition zero_timestamp_store : FileSystem.t :=
  store_with ["projects/p1/resource.0000000000000000"].

(** A store whose only file is not named with sixteen digits. *)
Definition short_name_store : FileSystem.t :=
  store_with ["projects/p1/resource.5"].

(** Five brains with strictly increasing timestamps. *)
Definition five_brains : FileSystem.t :=
  store_with [ "projects/p1/brains/b1/resource.0000000000000001";
               "projects/p1/brains/b2/resource.0000000000000002";
               "projects/p1/brains/b3/resource.0000000000000003";
               "projects/p1/brains/b4/resource.0000000000000004";
               "projects/p1/brains/b5/resource.0000000000000005" ].

(** The store after a first write of [brain_b1] at time 1700000000000000. *)
Definition brain_b1_written : write_outcome :=
  write (codec := BinaryCodec.codec) ∅ 1700000000000000 brain_b1.


(** ** Vocabulary for the further properties *)

(** [s.count(c)] for a character [c]. *)
Fixpoint count_char (c : ascii) (s : string) : nat :=
  match s with
  | EmptyString => O
  | String a s' => (if Ascii.eqb a c then 1 else 0) + count_char c s'
  end.

(** The number a string of decimal digits denotes. *)
Definition decimal_value (s : string) : Z :=
  default 0 (PyStr.parse_digits true 0 s).


(** ** [Storage] of the learner: [service/learner/storage.py] *)

(** [setattr(resource, field_name, value)] for a field other than the
    creation timestamp.  Field values of every protobuf type are held as
    strings, as in [DatastoreProto]. *)
Definition setattr (resource : DatastoreProto) (field_name value : string)
  : DatastoreProto :=
  {| type_of := type_of resource;
     created_micros := created_micros resource;
     fields := <[field_name := value]> (fields resource) |}.

(** The state [record_evaluations] leaves behind: the exception that ended
    it, if any, the one [OfflineEvaluation] object it writes again and again,
    and the file system. *)
Record record_outcome := {
  raised : option exn;
  offline_eval_after : DatastoreProto;
  store_after : FileSystem.t;
}.

Section storage.
Context `{codec : ProtoCodec}.

(** The assignments at the head of the loop body of [record_evaluations].
    [eval_latency_proto] is [None] or a message, which is truthy. *)
Definition evaluation_fields (timestamp : Z)
  (eval_latency_proto : option string) (version_eval : string * string)
  (offline_eval : DatastoreProto) : DatastoreProto :=
  let offline_eval :=
    setattr offline_eval "commit_timestamp" (PyStr.of_int timestamp) in
  let offline_eval :=
    setattr offline_eval "offline_evaluation_id" version_eval.1 in
  let offline_eval := setattr offline_eval "score" version_eval.2 in
  match eval_latency_proto with
  | Some latency_stats => setattr offline_eval "latency_stats" latency_stats
  | None => offline_eval
  end.

(** The loop of [record_evaluations] from its iteration [index] on.
    [clock index] is what [int(time.time() * 1e6)] gives should the write of
    that iteration ask for the time; an exception of [write] ends the
    loop. *)
Fixpoint record_evaluations_loop (fs : FileSystem.t) (clock : nat → Z)
  (index : nat) (timestamp : Z) (eval_latency_proto : option string)
  (offline_eval : DatastoreProto) (version_evals : list (string * string))
  : record_outcome :=
  match version_evals with
  | [] => {| raised := None; offline_eval_after := offline_eval;
             store_after := fs |}
  | version_eval :: version_evals' =>
      let offline_eval :=
        evaluation_fields timestamp eval_latency_proto version_eval
          offline_eval in
      let out := write fs (clock index) offline_eval in
      match returned out with
      | Raise e => {| raised := Some e; offline_eval_after := resource_after out;
                      store_after := fs_after out |}
      | Ok _ =>
          record_evaluations_loop (fs_after out) clock (S index) timestamp
            eval_latency_proto (resource_after out) version_evals'
      end
  end.

(** [timestamp] is the time read before the loop. *)
Definition record_evaluations (fs : FileSystem.t) (clock : nat → Z)
  (timestamp : Z) (assignment : DatastoreProto) (model_id : string)
  (version_evals : list (string * string))
  (eval_latency_proto : option string) : record_outcome :=
  let offline_eval :=
    new_resource OfflineEvaluation 0
      [("project_id", getattr assignment "project_id");
       ("brain_id", getattr assignment "brain_id");
       ("session_id", getattr assignment "session_id");
       ("model_id", model_id)] in
  record_evaluations_loop fs clock 0 timestamp eval_latency_proto offline_eval
    version_evals.

End storage.

(** The identifier of the evaluation of a model on one version. *)
Definition evaluation_id (assignment : DatastoreProto)
  (model_id version : string) : ResourceId :=
  FalkenResourceId
    [("project", getattr assignment "project_id");
     ("brain", getattr assignment "brain_id");
     ("session", getattr assignment "session_id");
     ("model", model_id);
     ("offline_evaluation", version)].



(** The object [record_evaluations] works on: an [OfflineEvaluation] of the
    assignment's session and of the model. *)
Definition evaluation_of (assignment : DatastoreProto) (model_id : string)
  (offline_eval : DatastoreProto) : Prop :=
  type_of offline_eval = OfflineEvaluation
  ∧ getattr offline_eval "project_id" = getattr assignment "project_id"
  ∧ getattr offline_eval "brain_id" = getattr assignment "brain_id"
  ∧ getattr offline_eval "session_id" = getattr assignment "session_id"
  ∧ getattr offline_eval "model_id" = model_id.


(** ** The assignment callbacks of [DataStore] *)

(** A callback is a Python callable, used as a dictionary key by its
    identity.  The closure [file_callback] that [add_assignment_callback]
    defines around it is a new object at every call; closures are told apart
    by a serial number. *)
Definition callback := nat.

Record file_callback := {
  wrapped : callback;
  serial : nat;
}.

Global Instance file_callback_eq_dec : EqDecision file_callback.
Proof. solve_decision. Defined.

(** [self._callbacks], in insertion order, and, modelled from the spec, the
    handlers registered with the byte store by [add_file_callback], which
    [remove_file_callback] takes out again; [closures] counts the closures
    defined so far. *)
Record callbacks_state := {
  _callbacks : list (callback * file_callback);
  file_callbacks : list file_callback;
  closures : nat;
}.

(** [ValueError('Added assignment callback twice.')] and the [KeyError] of
    [dict.pop]. *)
Inductive callback_exn := AddedTwice | KeyError.

(** A [DataStore] as [__init__] leaves it, on a byte store without
    handlers. *)
Definition no_callbacks : callbacks_state :=
  {| _callbacks := []; file_callbacks := []; closures := 0 |}.

Fixpoint callbacks_get (d : list (callback * file_callback)) (key : callback)
  : option file_callback :=
  match d with
  | [] => None
  | (k, v) :: d' => if decide (k = key) then Some v else callbacks_get d' key
  end.

Fixpoint callbacks_pop (d : list (callback * file_callback)) (key : callback)
  : list (callback * file_callback) :=
  match d with
  | [] => []
  | (k, v) :: d' => if decide (k = key) then d' else (k, v) :: callbacks_pop d' key
  end.

Definition add_assignment_callback (st : callbacks_state) (cb : callback)
  : option callback_exn * callbacks_state :=
  let file_callback := {| wrapped := cb; serial := closures st |} in
  match callbacks_get (_callbacks st) cb with
  | Some _ =>
      (Some AddedTwice,
       {| _callbacks := _callbacks st; file_callbacks := file_callbacks st;
          closures := S (closures st) |})
  | None =>
      (None,
       {| _callbacks := _callbacks st ++ [(cb, file_callback)];
          file_callbacks := file_callbacks st ++ [file_callback];
          closures := S (closures st) |})
  end.

Definition remove_assignment_callback (st : callbacks_state) (cb : callback)
  : option callback_exn * callbacks_state :=
  match callbacks_get (_callbacks st) cb with
  | None => (Some KeyError, st)
  | Some file_callback =>
      (None,
       {| _callbacks := callbacks_pop (_callbacks st) cb;
          file_callbacks :=
            filter (λ registered, registered ≠ file_callback) (file_callbacks st);
          closures := closures st |})
  end.

(** The [while] loop of [remove_all_assignment_callbacks], which also runs
    in [__del__]; [fuel] bounds its iterations, and [None] is returned when
    it does not suffice. *)
Fixpoint remove_all_assignment_callbacks (fuel : nat) (st : callbacks_state)
  : option (option callback_exn * callbacks_state) :=
  match _callbacks st with
  | [] => Some (None, st)
  | (cb, _) :: _ =>
      match fuel with
      | O => None
      | S fuel' =>
          match remove_assignment_callback st cb with
          | (Some e, st') => Some (Some e, st')
          | (None, st') => remove_all_assignment_callbacks fuel' st'
          end
      end
  end.

(** Modelled from the spec: the byte store calls every registered handler
    once for a new file; [file_callback] passes the file name on to the
    callback it wraps.  The calls made, in order. *)
Definition notify (st : callbacks_state) (file_name : string)
  : list (callback * string) :=
  (λ registered, (wrapped registered, file_name)) <$> file_callbacks st.

(** The calls a client makes. *)
Inductive callback_call :=
  | Add (cb : callback)
  | Remove (cb : callback)
  | RemoveAll.

(** A client that goes on after an exception. *)
Definition run_call (st : callbacks_state) (call : callback_call)
  : callbacks_state :=
  match call with
  | Add cb => (add_assignment_callback st cb).2
  | Remove cb => (remove_assignment_callback st cb).2
  | RemoveAll =>
      match remove_all_assignment_callbacks (length (_callbacks st)) st with
      | Some (_, st') => st'
      | None => st
      end
  end.

(** The callbacks registered after a sequence of calls, with no regard to
    the store: those added and not removed since. *)
Definition registered_after (registered : list callback)
  (call : callback_call) : list callback :=
  match call with
  | Add cb => if decide (cb ∈ registered) then registered else registered ++ [cb]
  | Remove cb => filter (λ other, other ≠ cb) registered
  | RemoveAll => []
  end.


(** What holds of a [DataStore] between two calls. *)
Definition callbacks_consistent (st : callbacks_state) : Prop :=
  file_callbacks st = (_callbacks st).*2
  ∧ NoDup (_callbacks st).*1
  ∧ NoDup (_callbacks st).*2
  ∧ ∀ cb registered, (cb, registered) ∈ _callbacks st →
      wrapped registered = cb ∧ (serial registered < closures st)%nat.


(** * Sanity checks of the embedding *)

Example of_int_neg : PyStr.of_int (-1205) = "-1205".
Proof. reflexivity. Qed.
Example of_int_zero_padded_pos :
  PyStr.of_int_zero_padded 16 1205 = "0000000000001205".
Proof. reflexivity. Qed.
Example of_int_zero_padded_neg :
  PyStr.of_int_zero_padded 16 (-5) = "-000000000000005".
Proof. reflexivity. Qed.
Example of_int_zero_padded_wide :
  PyStr.of_int_zero_padded 16 12345678901234567890 = "12345678901234567890".
Proof. reflexivity. Qed.
Example int_examples :
  PyStr.int " +1_000 " = Ok 1000
  ∧ PyStr.int "0000000000001205" = Ok 1205
  ∧ PyStr.int "-000000000000005" = Ok (-5)
  ∧ PyStr.int "1__0" = Raise (ValueError InvalidIntLiteral)
  ∧ PyStr.int "_1" = Raise (ValueError InvalidIntLiteral)
  ∧ PyStr.int "12a" = Raise (ValueError InvalidIntLiteral)
  ∧ PyStr.int "1_" = Raise (ValueError InvalidIntLiteral).
Proof. repeat split; reflexivity. Qed.
Example split_examples :
  PyStr.split PyStr.colon "12:ab/cd" = ["12"; "ab/cd"] ∧
  PyStr.split PyStr.colon "12:a:b" = ["12"; "a"; "b"] ∧
  PyStr.split PyStr.colon "12" = ["12"].
Proof. repeat split; reflexivity. Qed.
Example join_examples :
  OsPath.join "projects/p1" "resource.*" = "projects/p1/resource.*" ∧
  OsPath.join "projects/p1/" "x" = "projects/p1/x" ∧
  OsPath.join "a" "/x" = "/x" ∧ OsPath.join EmptyString "x" = "x".
Proof. repeat split; reflexivity. Qed.
Example dirname_examples :
  OsPath.dirname "projects/p1/resource.0000000000000005" = "projects/p1"
  ∧ OsPath.basename "projects/p1/resource.0000000000000005"
    = "resource.0000000000000005"
  ∧ OsPath.dirname "/x" = "/" ∧ OsPath.dirname "a//x" = "a"
  ∧ OsPath.dirname "x" = EmptyString
  ∧ OsPath.basename "x" = "x" ∧ OsPath.basename "a/" = EmptyString.
Proof. repeat split; reflexivity. Qed.
Example glob_examples :
  FileSystem.glob_match "projects/*/brains/{b1,b2}/*"
    "projects/p/brains/b2/resource.1" = true
  ∧ FileSystem.glob_match "projects/*/brains/{b1,b2}/*"
      "projects/p/brains/b3/resource.1" = false
  ∧ FileSystem.glob_match "projects/*/resource.*"
      "projects/p/brains/resource.1" = false
  ∧ FileSystem.glob_match "projects/p/resource.*" "projects/p/resource.1"
    = true
  ∧ FileSystem.glob_match "projects/p/resource.*" "projects/p/other" = false.
Proof. repeat split; reflexivity. Qed.
Example sha256_empty :
  Sha256.hexdigest EmptyString
  = "e3b0c44298fc1c149afbf4c8996fb92427ae41e4649b934ca495991b7852b855".
Proof. vm_compute. reflexivity. Qed.
Example sha256_abc :
  Sha256.hexdigest "abc"
  = "ba7816bf8f01cfea414140de5dae2223b00361a396177a9cb410ff61f20015ad".
Proof. vm_compute. reflexivity. Qed.
Example sha256_two_blocks :
  Sha256.hexdigest "abcdbcdecdefdefgefghfghighijhijkijkljklmklmnlmnomnopnopq"
  = "248d6a61d20638b8e5c026930c3e6039a33ce45964ff2167f6ecedd419db06c1".
Proof. vm_compute. reflexivity. Qed.

(** The scenarios of the specification: a first write mints the timestamp and
    names the file with it, a read returns the record with that timestamp,
    and writing the record again adds no file. *)
Example write_read_scenario :
  returned brain_b1_written = Ok id_of_brain_b1
  ∧ dom (fs_after brain_b1_written)
    = {[ "projects/p1/brains/b1/resource.1700000000000000" ]}
  ∧ read (codec := BinaryCodec.codec) (fs_after brain_b1_written) id_of_brain_b1
    = Ok (resource_after brain_b1_written)
  ∧ created_micros (resource_after brain_b1_written) = 1700000000000000
  ∧ dom (fs_after (write (codec := BinaryCodec.codec)
                     (fs_after brain_b1_written) 1700000000000999
                     (resource_after brain_b1_written)))
    = dom (fs_after brain_b1_written).
Proof. repeat split; vm_compute; reflexivity. Qed.

Example list_scenario :
  list_ five_brains brains_of_p1 0 None (Some 2)
  = Ok (["projects/p1/brains/b1"; "projects/p1/brains/b2"],
        "2:projects/p1/brains/b2")
  ∧ list_ five_brains brains_of_p1 0 (Some "2:projects/p1/brains/b2") (Some 2)
    = Ok (["projects/p1/brains/b3"; "projects/p1/brains/b4"],
          "4:projects/p1/brains/b4")
  ∧ list_ five_brains brains_of_p1 0 (Some "4:projects/p1/brains/b4") (Some 2)
    = Ok (["projects/p1/brains/b5"], EmptyString).
Proof. repeat split; vm_compute; reflexivity. Qed.

(** Two evaluations recorded by one call on an empty store: the second
    [write] happens later, and its file carries the time of the first. *)
Example record_evaluations_scenario :
  let out :=
    record_evaluations (codec := BinaryCodec.codec) ∅ (λ i, 500 + Z.of_nat i)
      400 assignment_a1 "m1" [("1", "0.5"); ("2", "0.25")] None in
  raised out = None
  ∧ created_micros (offline_eval_after out) = 500
  ∧ getattr (offline_eval_after out) "commit_timestamp" = "400"
  ∧ getattr (offline_eval_after out) "score" = "0.25"
  ∧ dom (store_after out)
    = {[ "projects/p1/brains/b1/sessions/s1/models/m1/offline_evaluations/1/resource.0000000000000500";
         "projects/p1/brains/b1/sessions/s1/models/m1/offline_evaluations/2/resource.0000000000000500" ]}.
Proof. repeat split; vm_compute; reflexivity. Qed.

Example callbacks_scenario :
  let st := foldl run_call no_callbacks [Add 7; Add 8; Add 7; Remove 7]%nat in
  (add_assignment_callback
     (foldl run_call no_callbacks [Add 7; Add 8]%nat) 7%nat).1
  = Some AddedTwice
  ∧ _callbacks st = [(8%nat, {| wrapped := 8%nat; serial := 1%nat |})]
  ∧ file_callbacks st = [{| wrapped := 8%nat; serial := 1%nat |}]
  ∧ notify st "projects/p1/resource.0000000000000001"
    = [(8%nat, "projects/p1/resource.0000000000000001")]
  ∧ (remove_assignment_callback st 7%nat).1 = Some KeyError.
Proof. repeat split. Qed.


(** * Properties *)

(** ** Strings and decimal numerals *)

Module PyStrFacts.
Import PyStr.

Lemma app_cons a s1 s2 : String a s1 +:+ s2 = String a (s1 +:+ s2).
Proof. reflexivity. Qed.

Lemma app_nil_r s : s +:+ EmptyString = s.
Proof. induction s as [|a s IH]; [done|]. by rewrite app_cons, IH. Qed.

Lemma app_assoc s1 s2 s3 : (s1 +:+ s2) +:+ s3 = s1 +:+ (s2 +:+ s3).
Proof.
  induction s1 as [|a s1 IH]; [done|]. by rewrite !app_cons, IH.
Qed.

Lemma app_length s1 s2 :
  String.length (s1 +:+ s2) = (String.length s1 + String.length s2)%nat.
Proof.
  induction s1 as [|a s1 IH]; [done|]. rewrite app_cons. simpl. by rewrite IH.
Qed.

Lemma all_impl (p q : ascii → bool) s :
  (∀ a, p a = true → q a = true) → all p s = true → all q s = true.
Proof.
  intros Hpq. induction s as [|a s IH]; simpl; [done|].
  rewrite !andb_true_iff. intros [Ha Hs]. auto.
Qed.

Lemma all_app p s1 s2 :
  all p (s1 +:+ s2) = all p s1 && all p s2.
Proof.
  induction s1 as [|a s1 IH]; simpl; [done|].
  by rewrite IH, andb_assoc.
Qed.

Lemma contains_all c s :
  contains c s = false ↔ all (λ a, negb (Ascii.eqb a c)) s = true.
Proof.
  induction s as [|a s IH]; simpl; [done|].
  rewrite orb_false_iff, andb_true_iff, negb_true_iff. tauto.
Qed.

Lemma contains_app c s1 s2 :
  contains c (s1 +:+ s2) = contains c s1 || contains c s2.
Proof.
  induction s1 as [|a s1 IH]; simpl; [done|].
  by rewrite IH, orb_assoc.
Qed.

Lemma digit_value_digit_char d :
  0 ≤ d < 10 → digit_value (digit_char d) = Some d.
Proof.
  intros Hd.
  assert (d = 0 ∨ d = 1 ∨ d = 2 ∨ d = 3 ∨ d = 4 ∨ d = 5 ∨ d = 6
          ∨ d = 7 ∨ d = 8 ∨ d = 9) as Hcases by lia.
  repeat (destruct Hcases as [->|Hcases]; [reflexivity|]).
  by subst.
Qed.

Lemma is_digit_digit_char d : 0 ≤ d < 10 → is_digit (digit_char d) = true.
Proof. intros Hd. unfold is_digit. by rewrite digit_value_digit_char. Qed.

Lemma is_digit_not_space a : is_digit a = true → is_space a = false.
Proof.
  unfold is_digit, digit_value, is_space.
  destruct (_ && _) eqn:Hrange; [|done]. intros _.
  apply andb_true_iff in Hrange as [Hlo%N.leb_le Hhi%N.leb_le].
  apply orb_false_iff; split; apply andb_false_iff.
  - right. apply N.leb_gt. lia.
  - right. apply N.leb_gt. lia.
Qed.

Lemma is_digit_not_colon a : is_sign_or_digit a = true → Ascii.eqb a colon = false.
Proof.
  unfold is_sign_or_digit. intros [Ha|Ha]%orb_true_iff.
  - apply Ascii.eqb_eq in Ha as ->. reflexivity.
  - destruct (Ascii.eqb_spec a colon) as [->|]; [|done]. discriminate Ha.
Qed.

Lemma is_digit_not_slash a : is_sign_or_digit a = true → Ascii.eqb a slash = false.
Proof.
  unfold is_sign_or_digit. intros [Ha|Ha]%orb_true_iff.
  - apply Ascii.eqb_eq in Ha as ->. reflexivity.
  - destruct (Ascii.eqb_spec a slash) as [->|]; [|done]. discriminate Ha.
Qed.

(** *** The digits of a number *)

Lemma digits_go_app fuel n acc :
  ∃ d, digits_go fuel n acc = d +:+ acc ∧ all is_digit d = true
       ∧ (fuel ≠ O → d ≠ EmptyString).
Proof.
  revert n acc. induction fuel as [|fuel IH]; intros n acc; simpl.
  - by exists EmptyString.
  - assert (is_digit (digit_char (n mod 10)) = true) as Hd.
    { apply is_digit_digit_char. apply Z.mod_pos_bound. lia. }
    destruct (n <? 10).
    + exists (String (digit_char (n mod 10)) EmptyString). simpl.
      by rewrite Hd.
    + destruct (IH (n / 10) (String (digit_char (n mod 10)) acc))
        as (d & Hgo & Hall & _).
      exists (d +:+ String (digit_char (n mod 10)) EmptyString).
      rewrite Hgo. split; [|split].
      * by rewrite app_assoc.
      * rewrite all_app, Hall. simpl. by rewrite Hd.
      * intros _. by destruct d.
Qed.

Lemma digits_spec n :
  all is_digit (digits n) = true ∧ digits n ≠ EmptyString.
Proof.
  unfold digits.
  destruct (digits_go_app (S (Z.to_nat (Z.log2 n))) n EmptyString)
    as (d & -> & Hall & Hne).
  rewrite app_nil_r. split; [done|]. by apply Hne.
Qed.

Lemma parse_digits_digits_go fuel n acc b :
  1 ≤ n < 10 ^ Z.of_nat fuel →
  parse_digits b 0 (digits_go fuel n acc) = parse_digits true n acc.
Proof.
  revert n acc b. induction fuel as [|fuel IH]; intros n acc b Hn.
  - simpl in Hn. lia.
  - simpl. destruct (Z.ltb_spec n 10) as [Hlt|Hge].
    + simpl. rewrite Z.mod_small by lia.
      rewrite digit_value_digit_char by lia. f_equal; lia.
    + rewrite IH.
      * simpl. rewrite digit_value_digit_char
          by (apply Z.mod_pos_bound; lia).
        f_equal; pose proof (Z.div_mod n 10); lia.
      * split; [apply Z.div_le_lower_bound; lia|].
        apply Z.div_lt_upper_bound; [lia|].
        rewrite Nat2Z.inj_succ, Z.pow_succ_r in Hn by lia. lia.
Qed.

Lemma parse_digits_digits n b :
  0 ≤ n → parse_digits b 0 (digits n) = Some n.
Proof.
  intros Hn. destruct (decide (n = 0)) as [->|Hne]; [done|].
  unfold digits. rewrite parse_digits_digits_go; [done|].
  split; [lia|].
  assert (n < 2 ^ Z.succ (Z.log2 n)) by (apply Z.log2_spec; lia).
  rewrite Nat2Z.inj_succ, Z2Nat.id by apply Z.log2_nonneg.
  eapply Z.lt_le_trans; [done|].
  apply Z.pow_le_mono_l. lia.
Qed.

Lemma parse_digits_zeros k s b :
  parse_digits b 0 (zeros k +:+ s)
  = parse_digits (b || bool_decide (k ≠ O)) 0 s.
Proof.
  revert b. induction k as [|k IH]; intros b; simpl.
  - by rewrite orb_false_r.
  - rewrite IH. simpl. by rewrite orb_true_r.
Qed.

Lemma all_zeros k : all is_digit (zeros k) = true.
Proof. induction k as [|k IH]; simpl; [done|]. by rewrite IH. Qed.

(** *** Stripping and sign *)

Lemma lstrip_id p s :
  all (λ a, negb (p a)) s = true → lstrip p s = s.
Proof.
  destruct s as [|a s]; simpl; [done|].
  intros [Ha _]%andb_true_iff. apply negb_true_iff in Ha. by rewrite Ha.
Qed.

Lemma rstrip_id p s :
  all (λ a, negb (p a)) s = true → rstrip p s = s.
Proof.
  induction s as [|a s IH]; simpl; [done|].
  intros [Ha Hs]%andb_true_iff. apply negb_true_iff in Ha.
  by rewrite IH, Ha.
Qed.

Lemma sign_or_digit_not_space s :
  all is_sign_or_digit s = true → all (λ a, negb (is_space a)) s = true.
Proof.
  apply all_impl. intros a [Ha|Ha]%orb_true_iff.
  - apply Ascii.eqb_eq in Ha as ->. reflexivity.
  - by rewrite is_digit_not_space.
Qed.

Lemma digits_sign_or_digit s :
  all is_digit s = true → all is_sign_or_digit s = true.
Proof.
  apply all_impl. intros a Ha. unfold is_sign_or_digit.
  by rewrite Ha, orb_true_r.
Qed.

(** Parsing a numeral that starts with a digit does not look for a sign. *)
Lemma parse_int_unsigned s :
  all is_digit s = true →
  parse_int s = parse_digits false 0 s.
Proof.
  intros Hs. unfold parse_int.
  rewrite lstrip_id, rstrip_id
    by by apply sign_or_digit_not_space, digits_sign_or_digit.
  destruct s as [|a s]; [done|].
  simpl in Hs. apply andb_true_iff in Hs as [Ha _].
  destruct a as [[] [] [] [] [] [] [] []]; try done.
Qed.

Lemma parse_int_negative s :
  all is_digit s = true →
  parse_int (String "-" s) = Z.opp <$> parse_digits false 0 s.
Proof.
  intros Hs. unfold parse_int.
  assert (all is_sign_or_digit (String "-" s) = true) as Hall.
  { simpl. by apply digits_sign_or_digit. }
  rewrite lstrip_id, rstrip_id by by apply sign_or_digit_not_space.
  done.
Qed.

(** *** [int] inverts both renderings *)

Lemma of_int_sign_or_digit n : all is_sign_or_digit (of_int n) = true.
Proof.
  unfold of_int. destruct (n <? 0); simpl;
    apply digits_sign_or_digit, digits_spec.
Qed.

Lemma int_of_int n : int (of_int n) = Ok n.
Proof.
  unfold int, of_int. destruct (Z.ltb_spec n 0).
  - rewrite parse_int_negative by apply digits_spec.
    rewrite parse_digits_digits by lia. simpl. f_equal. lia.
  - rewrite parse_int_unsigned by apply digits_spec.
    by rewrite parse_digits_digits.
Qed.

Lemma of_int_zero_padded_sign_or_digit w n :
  all is_sign_or_digit (of_int_zero_padded w n) = true.
Proof.
  unfold of_int_zero_padded. destruct (n <? 0); simpl;
    apply digits_sign_or_digit; rewrite all_app, all_zeros; apply digits_spec.
Qed.

Lemma int_of_int_zero_padded w n : int (of_int_zero_padded w n) = Ok n.
Proof.
  unfold int, of_int_zero_padded. destruct (Z.ltb_spec n 0).
  - rewrite parse_int_negative
      by (rewrite all_app, all_zeros; apply digits_spec).
    rewrite parse_digits_zeros, parse_digits_digits by lia.
    simpl. f_equal. lia.
  - rewrite parse_int_unsigned
      by (rewrite all_app, all_zeros; apply digits_spec).
    by rewrite parse_digits_zeros, parse_digits_digits.
Qed.

Lemma of_int_zero_padded_inj w n1 n2 :
  of_int_zero_padded w n1 = of_int_zero_padded w n2 → n1 = n2.
Proof.
  intros Heq. pose proof (int_of_int_zero_padded w n1) as H1.
  rewrite Heq, int_of_int_zero_padded in H1. by injection H1.
Qed.

(** *** [split] *)

Lemma split_no_sep c s : contains c s = false → split c s = [s].
Proof.
  induction s as [|a s IH]; simpl; [done|].
  intros [Ha Hs]%orb_false_iff. by rewrite Ha, IH.
Qed.

Lemma split_app c s1 s2 :
  contains c s1 = false →
  split c (s1 +:+ String c s2) = s1 :: split c s2.
Proof.
  induction s1 as [|a s1 IH]; simpl.
  - intros _. by rewrite Ascii.eqb_refl.
  - intros [Ha Hs]%orb_false_iff. by rewrite Ha, IH.
Qed.

End PyStrFacts.

(** ** Pagination tokens *)

Lemma encode_token_nonempty t res_id :
  PyStr.is_empty (_encode_token t res_id) = false.
Proof.
  unfold _encode_token.
  destruct (PyStrFacts.digits_spec t) as [_ Hne].
  destruct (PyStrFacts.digits_spec (- t)) as [_ Hne'].
  unfold PyStr.of_int. destruct (t <? 0); [done|].
  by destruct (PyStr.digits t).
Qed.

Lemma decode_encode_token t res_id :
  PyStr.contains PyStr.colon res_id = false →
  _decode_token (Some (_encode_token t res_id)) = Ok (t, res_id).
Proof.
  intros Hid. unfold _decode_token, _encode_token.
  change (":" +:+ res_id) with (String PyStr.colon res_id).
  rewrite PyStrFacts.split_app.
  - rewrite PyStrFacts.split_no_sep by done.
    by rewrite PyStrFacts.int_of_int.
  - apply PyStrFacts.contains_all.
    eapply PyStrFacts.all_impl; [|apply PyStrFacts.of_int_sign_or_digit].
    intros a Ha. by rewrite PyStrFacts.is_digit_not_colon.
Qed.

(** ** The canonical order *)

Global Instance entry_le_dec : RelDecision entry_le.
Proof. intros a b. unfold entry_le. apply _. Defined.

Lemma entry_le_spec a b :
  entry_le a b ↔ a.1 < b.1 ∨ (a.1 = b.1 ∧ String.le a.2 b.2).
Proof.
  unfold entry_le, entry_leb, String.le.
  rewrite orb_True, andb_True, !Is_true_true, Z.ltb_lt, Z.eqb_eq.
  done.
Qed.

Global Instance entry_le_refl : Reflexive entry_le.
Proof. intros a. apply entry_le_spec. right. split; [done|reflexivity]. Qed.

Global Instance entry_le_trans : Transitive entry_le.
Proof.
  intros a b c. rewrite !entry_le_spec.
  intros [?|[? ?]] [?|[? ?]]; [left; lia..|].
  right. split; [lia|]. by etrans.
Qed.

Global Instance entry_le_total : Total entry_le.
Proof.
  intros a b. rewrite !entry_le_spec.
  destruct (Z.lt_total a.1 b.1) as [?|[?|?]]; [by left; left| |by right; left].
  destruct (total String.le a.2 b.2); [left|right]; right; split; done.
Qed.

Global Instance entry_le_antisymm : AntiSymm (=) entry_le.
Proof.
  intros [t1 s1] [t2 s2]. rewrite !entry_le_spec. simpl.
  intros [?|[? ?]] [?|[? ?]]; try lia.
  f_equal; [done|]. by apply (anti_symm String.le).
Qed.

Lemma sorted_strongly_sorted l : StronglySorted entry_le (sorted l).
Proof. apply StronglySorted_merge_sort; apply _. Qed.

Lemma sorted_permutation l : sorted l ≡ₚ l.
Proof. apply merge_sort_Permutation. Qed.

(** In a sorted list without repetition, what follows an entry is strictly
    above it. *)
Lemma strongly_sorted_split l1 c l2 :
  StronglySorted entry_le (l1 ++ c :: l2) → NoDup (l1 ++ c :: l2) →
  Forall (λ e, entry_le e c) (l1 ++ [c]) ∧ Forall (λ e, ¬ entry_le e c) l2.
Proof.
  intros Hsorted Hnodup. split.
  - apply Forall_app. split; [|by repeat constructor].
    apply Forall_forall. intros e He.
    eapply (StronglySorted_app_1_elem_of entry_le l1 (c :: l2)); [done..|].
    by left.
  - apply StronglySorted_app_1_r, StronglySorted_inv in Hsorted as [_ Hc].
    apply NoDup_app in Hnodup as (_ & _ & Hnodup).
    apply NoDup_cons in Hnodup as [Hnotin _].
    apply Forall_forall. intros e He Hle.
    rewrite Forall_forall in Hc.
    assert (e = c) as -> by (apply (anti_symm entry_le); auto).
    done.
Qed.

Lemma filter_Forall_id {A} (P : A → Prop) `{∀ x, Decision (P x)} (l : list A) :
  Forall P l → filter P l = l.
Proof.
  induction 1 as [|a l Ha Hl IH]; [done|].
  by rewrite filter_cons_True, IH.
Qed.

Lemma Forall_filter_self {A} (P : A → Prop) `{∀ x, Decision (P x)} (l : list A) :
  Forall P (filter P l).
Proof. apply Forall_forall. by intros e [? _]%list_elem_of_filter. Qed.

(** A sorted list splits at any down-closed property. *)
Lemma strongly_sorted_partition (p : Z * string → bool) l :
  StronglySorted entry_le l →
  (∀ a b, entry_le a b → p b = true → p a = true) →
  ∃ below, l = below ++ filter (λ e, p e = false) l
           ∧ Forall (λ e, p e = true) below.
Proof.
  intros Hsorted Hdown.
  induction Hsorted as [|a l Hs (below & IH & Hbelow) Ha]; [by exists []|].
  destruct (p a) eqn:Hpa.
  - exists (a :: below). rewrite filter_cons_False by by rewrite Hpa.
    split; [simpl; by rewrite <-IH|]. by constructor.
  - exists []. split; [|done]. simpl.
    rewrite filter_Forall_id; [done|].
    constructor; [done|].
    eapply Forall_impl; [done|]. intros b Hab. simpl in Hab.
    destruct (p b) eqn:Hpb; [|done].
    rewrite (Hdown a b) in Hpa; done.
Qed.

(** ** The loop of [list] *)

Section list_loop_facts.
Context (cm : Z) (tid : option string) (ps : option Z).

Abbreviation loop := (list_loop cm tid ps).
Abbreviation skip := (skipped cm tid).

(** The page only grows. *)
Lemma list_loop_page_prefix entries i st :
  ∃ more, page (loop i entries st) = page st ++ more.
Proof.
  revert i st. induction entries as [|e entries IH]; intros i st; simpl.
  - exists []. by rewrite app_nil_r.
  - destruct (skip e).
    + destruct (IH (i + 1) {| page := page st;
          last_timestamp_micros := last_timestamp_micros st;
          last_read_index := i |}) as [more ->]. by exists more.
    + destruct (_ && _).
      * by exists [e.2].
      * destruct (IH (i + 1) {| page := page st ++ [e.2];
          last_timestamp_micros := e.1;
          last_read_index := i |}) as [more ->].
        exists (e.2 :: more). simpl. by rewrite <-app_assoc.
Qed.

(** A loop that leaves the page empty has read every entry. *)
Lemma list_loop_empty_page entries i st :
  page (loop i entries st) = [] →
  last_read_index (loop i entries st)
  = if decide (entries = []) then last_read_index st
    else i + Z.of_nat (length entries) - 1.
Proof.
  revert i st. induction entries as [|e entries IH]; intros i st; simpl.
  - done.
  - destruct (skip e).
    + intros Hpage. rewrite IH by done. simpl.
      destruct entries; simpl; [|case_decide; [done|]]; lia.
    + destruct (_ && _); simpl.
      * by destruct (page st).
      * intros Hpage.
        destruct (list_loop_page_prefix entries (i + 1)
          {| page := page st ++ [e.2]; last_timestamp_micros := e.1;
             last_read_index := i |}) as [more Hmore].
        rewrite Hpage in Hmore. simpl in Hmore.
        by destruct (page st).
Qed.

(** Skipped entries only move the index. *)
Lemma list_loop_skipped below entries i st :
  Forall (λ e, skip e = true) below →
  loop i (below ++ entries) st
  = loop (i + Z.of_nat (length below)) entries
      {| page := page st;
         last_timestamp_micros := last_timestamp_micros st;
         last_read_index :=
           if decide (below = []) then last_read_index st
           else i + Z.of_nat (length below) - 1 |}.
Proof.
  intros Hbelow. revert i st.
  induction Hbelow as [|e below He _ IH]; intros i st.
  - simpl. rewrite Z.add_0_r. by destruct st.
  - simpl. rewrite He, IH. simpl.
    replace (i + 1 + Z.of_nat (length below))
      with (i + Z.pos (Pos.of_succ_nat (length below))) by lia.
    do 2 f_equal. destruct below; simpl; [|case_decide; [done|]]; lia.
Qed.

Lemma list_loop_cons e entries i st :
  loop i (e :: entries) st
  = if skip e
    then loop (i + 1) entries
           {| page := page st;
              last_timestamp_micros := last_timestamp_micros st;
              last_read_index := i |}
    else
      if truthy_int ps
         && bool_decide (Some (Z.of_nat (length (page st ++ [e.2]))) = ps)
      then {| page := page st ++ [e.2]; last_timestamp_micros := e.1;
              last_read_index := i |}
      else loop (i + 1) entries
             {| page := page st ++ [e.2]; last_timestamp_micros := e.1;
                last_read_index := i |}.
Proof. reflexivity. Qed.

Lemma page_full (p : list string) (x : string) room :
  (1 ≤ room)%nat →
  ps = Some (Z.of_nat (length p + room)) →
  truthy_int ps && bool_decide (Some (Z.of_nat (length (p ++ [x]))) = ps)
  = bool_decide (room = 1%nat).
Proof.
  intros Hroom ->. rewrite length_app. simpl.
  replace (negb (Z.of_nat (length p + room) =? 0)) with true
    by (symmetry; apply negb_true_iff, Z.eqb_neq; lia).
  simpl. apply bool_decide_ext. split; [intros [= Heq]|intros ->]; [lia|done].
Qed.

(** Kept entries fill the page up to its size. *)
Lemma list_loop_kept entries room i st :
  Forall (λ e, skip e = false) entries →
  (1 ≤ room)%nat →
  ps = Some (Z.of_nat (length (page st) + room)) →
  page (loop i entries st) = page st ++ (take room entries).*2
  ∧ (entries ≠ [] →
     last_read_index (loop i entries st)
     = i + Z.of_nat (room `min` length entries) - 1
     ∧ ∃ e, last (take room entries) = Some e
            ∧ last_timestamp_micros (loop i entries st) = e.1).
Proof.
  intros Hkept. revert room i st.
  induction Hkept as [|e entries He _ IH]; intros room i st Hroom Hps.
  - simpl. rewrite take_nil. simpl. by rewrite app_nil_r.
  - rewrite list_loop_cons, He, (page_full _ _ room) by done.
    destruct room as [|room]; [lia|]. simpl take.
    case_bool_decide as Hfull.
    + assert (room = O) as -> by lia.
      rewrite take_0. simpl. split; [done|]. intros _. split; [lia|].
      by exists e.
    + assert (1 ≤ room)%nat as Hroom' by lia.
      destruct (IH room (i + 1)
        {| page := page st ++ [e.2]; last_timestamp_micros := e.1;
           last_read_index := i |}) as [Hpage Hlast]; [done|..].
      { simpl. rewrite Hps, length_app. simpl. f_equal. lia. }
      split.
      * rewrite Hpage. simpl. by rewrite <-app_assoc.
      * intros _. destruct entries as [|e' entries].
        { simpl. split; [lia|]. exists e. split; [|done].
          by rewrite take_nil. }
        destruct Hlast as (-> & e'' & Hlast & ->); [done|].
        split; [simpl length; lia|].
        exists e''. split; [|done].
        destruct room; [lia|]. simpl in *. by rewrite Hlast.
Qed.

(** The page of an arbitrary listing: the kept entries, up to the size. *)
Lemma list_loop_page entries room i st :
  (1 ≤ room)%nat →
  ps = Some (Z.of_nat (length (page st) + room)) →
  page (loop i entries st)
  = page st ++ take room (filter (λ e, skip e = false) entries).*2.
Proof.
  revert room i st.
  induction entries as [|e entries IH]; intros room i st Hroom Hps.
  - simpl. by rewrite take_nil, app_nil_r.
  - rewrite list_loop_cons. destruct (skip e) eqn:He.
    + rewrite filter_cons_False by by rewrite He. by rewrite (IH room).
    + rewrite filter_cons_True by done.
      change (if truthy_int ps && _ then ?a else ?b)
        with (if truthy_int ps
                 && bool_decide
                      (Some (Z.of_nat (length (page st ++ [e.2]))) = ps)
              then a else b).
      rewrite (page_full _ _ room) by done.
      destruct room as [|room]; [lia|]. simpl take.
      case_bool_decide as Hfull.
      * assert (room = O) as -> by lia.
        by rewrite take_0.
      * assert (1 ≤ room)%nat as Hroom' by lia.
        rewrite IH with (room := room); [|done|].
        -- simpl. by rewrite <-app_assoc.
        -- simpl. rewrite Hps, length_app. simpl. f_equal. lia.
Qed.

End list_loop_facts.

Lemma list_loop_unbounded cm tid ps entries i st :
  unbounded ps →
  list_loop cm tid ps i entries st = list_loop cm tid None i entries st.
Proof.
  intros Hps. revert i st.
  induction entries as [|e entries IH]; intros i st; [done|].
  rewrite !list_loop_cons, !IH. destruct (skipped cm tid e); [done|].
  destruct ps as [k|]; [|done]. simpl in Hps.
  replace (truthy_int (Some k)
           && bool_decide (Some (Z.of_nat (length (page st ++ [e.2]))) = Some k))
    with false; [done|].
  symmetry. apply andb_false_iff.
  destruct (decide (k = 0)) as [->|Hk]; [by left|right].
  apply bool_decide_eq_false_2. intros [= Hlen]. lia.
Qed.

Lemma list_loop_all cm tid entries i st :
  let st' := list_loop cm tid None i entries st in
  page st' = page st ++ (filter (λ e, skipped cm tid e = false) entries).*2
  ∧ last_read_index st'
    = if decide (entries = []) then last_read_index st
      else i + Z.of_nat (length entries) - 1.
Proof.
  revert i st. induction entries as [|e entries IH]; intros i st; simpl.
  - by rewrite app_nil_r.
  - destruct (skipped cm tid e) eqn:He.
    + rewrite filter_cons_False by by rewrite He.
      destruct (IH (i + 1) {| page := page st;
        last_timestamp_micros := last_timestamp_micros st;
        last_read_index := i |}) as [-> ->]. simpl.
      split; [done|]. destruct entries; simpl; [|case_decide; [done|]]; lia.
    + rewrite filter_cons_True by done.
      destruct (IH (i + 1) {| page := page st ++ [e.2];
        last_timestamp_micros := e.1;
        last_read_index := i |}) as [-> ->]. simpl.
      split; [by rewrite <-app_assoc|].
      destruct entries; simpl; [|case_decide; [done|]]; lia.
Qed.

(** ** What [list] can raise *)

Lemma int_raises s e :
  PyStr.int s = Raise e → e = ValueError InvalidIntLiteral.
Proof. unfold PyStr.int. destruct (PyStr.parse_int s); congruence. Qed.

Lemma mapM_raises {A B} (f : A → result B) l e :
  mapM f l = Raise e → ∃ x, x ∈ l ∧ f x = Raise e.
Proof.
  induction l as [|x l IH]; simpl; [done|].
  destruct (f x) as [y|e'] eqn:Hx; simpl.
  - destruct (mapM f l) as [k|e'']; simpl; [done|].
    intros [= ->]. destruct IH as (x' & ? & ?); [done|].
    exists x'. split; [by right|done].
  - intros [= ->]. exists x. split; [by left|done].
Qed.

Lemma by_timestamp_raises fs res_id_glob e :
  by_timestamp fs res_id_glob = Raise e → e = ValueError InvalidIntLiteral.
Proof.
  unfold by_timestamp.
  destruct (mapM timestamp_of_file _) as [ts|e'] eqn:Hts; simpl; [done|].
  intros [= ->]. apply mapM_raises in Hts as (file & _ & Hfile).
  by apply int_raises in Hfile.
Qed.

Lemma page_bounds_raises m tok e :
  page_bounds m tok = Raise e → ∃ why, e = ValueError why.
Proof.
  unfold page_bounds. destruct (truthy_str tok); [|done].
  destruct tok as [tok|]; simpl.
  - destruct (PyStr.split PyStr.colon tok) as [|t [|r [|]]]; simpl;
      try (intros [= <-]; by eexists).
    destruct (PyStr.int t) as [n|e'] eqn:Hint; simpl; [done|].
    intros [= ->]. apply int_raises in Hint as ->. by eexists.
  - done.
Qed.

Lemma list_page_unfold entries m tok ps cm tid :
  page_bounds m tok = Ok (cm, tid) →
  list_page entries m tok ps
  = let st := list_loop cm tid ps 0 entries initial_loop_state in
    if last_read_index st =? Z.of_nat (length entries) - 1
    then Ok (page st, EmptyString)
    else
      match last (page st) with
      | None => Raise IndexError
      | Some res_id =>
          Ok (page st, _encode_token (last_timestamp_micros st) res_id)
      end.
Proof. intros Hbounds. unfold list_page. by rewrite Hbounds. Qed.

Lemma list_loop_empty_page_read_all cm tid ps entries :
  let st := list_loop cm tid ps 0 entries initial_loop_state in
  page st = [] → last_read_index st = Z.of_nat (length entries) - 1.
Proof.
  intros st Hpage. unfold st. rewrite list_loop_empty_page by done.
  case_decide as Hnil; [|lia]. by rewrite Hnil.
Qed.

(** C9: [list] never pairs an empty page with a non-empty token: the token is
    built from the last element of the page only when the page has one, so
    [list] never fails with [IndexError], and whenever it returns an empty
    page the token it returns is the empty string. *)
Theorem list_empty_page_empty_token fs res_id_glob m tok ps :
  list_ fs res_id_glob m tok ps ≠ Raise IndexError
  ∧ ∀ next_token,
      list_ fs res_id_glob m tok ps = Ok ([], next_token) →
      next_token = EmptyString.
Proof.
  unfold list_.
  destruct (by_timestamp fs res_id_glob) as [entries|e] eqn:Hentries; simpl.
  2: { split; [|done]. intros [= ->]. by apply by_timestamp_raises in Hentries. }
  destruct (page_bounds m tok) as [[cm tid]|e] eqn:Hbounds.
  2: { unfold list_page. rewrite Hbounds. simpl. split; [|done].
       intros [= ->]. by apply page_bounds_raises in Hbounds as [? ?]. }
  rewrite (list_page_unfold _ _ _ _ cm tid) by done. cbv zeta.
  pose proof (list_loop_empty_page_read_all cm tid ps entries) as Hall.
  cbv zeta in Hall.
  destruct (Z.eqb_spec
    (last_read_index (list_loop cm tid ps 0 entries initial_loop_state))
    (Z.of_nat (length entries) - 1)) as [Heq|Hne].
  - split; [done|]. by intros next [= _ <-].
  - destruct (last _) as [res_id|] eqn:Hlast.
    + split; [done|]. intros next [= Hpage _].
      rewrite Hpage in Hlast. done.
    + apply last_None in Hlast. by apply Hall in Hlast.
Qed.

(** C7: a page size of zero is no limit.  [list] with [page_size = 0] is
    [list] with [page_size = None]; with either (or a negative size) the one
    page holds every entry the loop does not skip, that is every entry at or
    above the lower bound and past the token, and the token returned is
    empty; a size [k >= 1] cuts the page to its first [k] entries. *)
Theorem list_page_size_zero_unbounded fs res_id_glob m tok :
  list_ fs res_id_glob m tok (Some 0) = list_ fs res_id_glob m tok None
  ∧ ∀ entries cm tid,
      by_timestamp fs res_id_glob = Ok entries →
      page_bounds m tok = Ok (cm, tid) →
      let matching := (filter (λ e, skipped cm tid e = false) entries).*2 in
      (∀ ps, unbounded ps →
             list_ fs res_id_glob m tok ps = Ok (matching, EmptyString))
      ∧ (∀ k, 1 ≤ k →
              ∃ next_token,
                list_ fs res_id_glob m tok (Some k)
                = Ok (take (Z.to_nat k) matching, next_token)).
Proof.
  split.
  - unfold list_, list_page.
    destruct (by_timestamp fs res_id_glob) as [entries|e]; simpl; [|done].
    destruct (page_bounds m tok) as [[cm tid]|e]; simpl; [|done].
    by rewrite (list_loop_unbounded _ _ (Some 0)) by done.
  - intros entries cm tid Hentries Hbounds matching. split.
    + intros ps Hps. unfold list_. rewrite Hentries. simpl.
      rewrite (list_page_unfold _ _ _ _ cm tid) by done. cbv zeta.
      rewrite list_loop_unbounded by done.
      destruct (list_loop_all cm tid entries 0 initial_loop_state)
        as [-> ->]. simpl.
      replace (_ =? _) with true; [done|].
      symmetry. apply Z.eqb_eq. case_decide as Hnil; [|lia]. by rewrite Hnil.
    + intros k Hk. unfold list_. rewrite Hentries. simpl.
      rewrite (list_page_unfold _ _ _ _ cm tid) by done. cbv zeta.
      pose proof (list_loop_page cm tid (Some k) entries (Z.to_nat k) 0
                    initial_loop_state) as Hpage.
      rewrite Hpage; [|lia|simpl; f_equal; lia]. simpl.
      destruct (_ =? _) eqn:Hne; [by eexists|]. apply Z.eqb_neq in Hne.
      destruct (last _) as [res_id|] eqn:Hlast; [by eexists|].
      apply last_None in Hlast.
      pose proof (list_loop_empty_page_read_all cm tid (Some k) entries) as Hall.
      cbv zeta in Hall. rewrite Hpage in Hall; [|lia|simpl; f_equal; lia].
      by specialize (Hall Hlast).
Qed.

(** ** One call of [list] on a listing split at its lower bound *)

Lemma last_take_fmap_snd (l : list (Z * string)) k e :
  last (take k l) = Some e → last (take k l).*2 = Some e.2.
Proof. intros Hlast. by rewrite fmap_last, Hlast. Qed.

Lemma list_page_split below kept m tok cm tid (k : nat) :
  page_bounds m tok = Ok (cm, tid) →
  Forall (λ e, skipped cm tid e = true) below →
  Forall (λ e, skipped cm tid e = false) kept →
  (1 ≤ k)%nat →
  list_page (below ++ kept) m tok (Some (Z.of_nat k))
  = Ok ((take k kept).*2,
        if decide (length kept ≤ k)%nat then EmptyString
        else match last (take k kept) with
             | Some e => _encode_token e.1 e.2
             | None => EmptyString
             end).
Proof.
  intros Hbounds Hbelow Hkept Hk.
  rewrite (list_page_unfold _ _ _ _ cm tid) by done. cbv zeta.
  rewrite list_loop_skipped by done.
  match goal with |- context [list_loop _ _ _ ?i kept ?st] =>
    destruct (list_loop_kept cm tid (Some (Z.of_nat k)) kept k i st)
      as [Hpage Hlast]; [done|done|by simpl|]
  end.
  rewrite Hpage.
  destruct kept as [|e0 kept'].
  - rewrite take_nil, length_app.
    destruct (decide (length [] ≤ k)%nat) as [_|Hn]; [|simpl in Hn; lia].
    simpl.
    replace (_ =? _) with true; [done|].
    symmetry. apply Z.eqb_eq.
    destruct (decide (below = [])) as [->|_]; simpl; lia.
  - destruct Hlast as (Hindex & e & Hlaste & Hts); [done|].
    rewrite Hindex, Hts, Hlaste, length_app.
    simpl page. rewrite app_nil_l.
    destruct (decide (length (e0 :: kept') ≤ k)%nat) as [Hfits|Hfits].
    + replace (_ =? _) with true; [done|]. symmetry. apply Z.eqb_eq. lia.
    + replace (_ =? _) with false by (symmetry; apply Z.eqb_neq; lia).
      by rewrite (last_take_fmap_snd _ _ e).
Qed.

(** ** Following the tokens *)

Section pagination.
Context (fs : FileSystem.t) (res_id_glob : ResourceId).
Context (m : Z) (k : nat) (entries : list (Z * string)).
Hypothesis Hentries : by_timestamp fs res_id_glob = Ok entries.
Hypothesis Hsorted : StronglySorted entry_le entries.
Hypothesis Hnodup : NoDup entries.
Hypothesis Hk : (1 ≤ k)%nat.

Lemma list_with_entries tok ps :
  list_ fs res_id_glob m tok ps = list_page entries m tok ps.
Proof. unfold list_. by rewrite Hentries. Qed.

Lemma page_bounds_cursor (c : Z * string) :
  m ≤ c.1 → PyStr.contains PyStr.colon c.2 = false →
  page_bounds m (Some (_encode_token c.1 c.2)) = Ok (c.1, Some c.2).
Proof.
  intros Hm Hcolon. unfold page_bounds.
  assert (truthy_str (Some (_encode_token c.1 c.2)) = true) as ->.
  { simpl. unfold PyStr.truthy. by rewrite encode_token_nonempty. }
  rewrite decode_encode_token by done. simpl. do 2 f_equal. lia.
Qed.

Lemma skipped_cursor (c e : Z * string) :
  c.2 ≠ EmptyString →
  skipped c.1 (Some c.2) e = entry_leb e c.
Proof.
  intros Hne. unfold skipped, entry_leb. simpl.
  destruct c.2; [done|]. simpl. by rewrite andb_true_r.
Qed.

Lemma collect_from_cursor calls before c rest :
  entries = before ++ c :: rest →
  Forall (λ e, e.2 ≠ EmptyString ∧ PyStr.contains PyStr.colon e.2 = false)
         entries →
  m ≤ c.1 →
  (length rest < calls)%nat →
  collect_pages calls fs res_id_glob m (Some (_encode_token c.1 c.2))
    (Some (Z.of_nat k))
  = Some (Ok rest.*2).
Proof.
  intros Hsplit Hids. revert before c rest Hsplit.
  induction calls as [|calls IH]; intros before c rest Hsplit Hm Hcalls;
    [lia|].
  assert (c.2 ≠ EmptyString ∧ PyStr.contains PyStr.colon c.2 = false)
    as [Hne Hcolon].
  { rewrite Forall_forall in Hids. apply Hids. rewrite Hsplit.
    apply elem_of_app. right. by left. }
  destruct (strongly_sorted_split before c rest) as [Hbelow Hkept];
    [by rewrite <-Hsplit..|].
  simpl. rewrite list_with_entries.
  replace entries with ((before ++ [c]) ++ rest)
    by by rewrite Hsplit, <-app_assoc.
  rewrite (list_page_split _ _ _ _ c.1 (Some c.2)); [|by apply page_bounds_cursor|..|done].
  2: { eapply Forall_impl; [done|]. intros e He. simpl in He.
       rewrite skipped_cursor by done. by apply Is_true_true. }
  2: { eapply Forall_impl; [done|]. intros e He. simpl in He.
       rewrite skipped_cursor by done.
       by apply not_true_is_false; intros ?%Is_true_true. }
  case_decide as Hfits.
  - simpl. by rewrite take_ge.
  - destruct (last (take k rest)) as [e|] eqn:Hlast.
    2: { apply last_None, take_nil_inv in Hlast as [->| ->]; [lia|].
         simpl in Hfits. lia. }
    rewrite encode_token_nonempty.
    apply last_Some in Hlast as [init Hinit].
    assert (e ∈ rest) as Herest.
    { apply (subseteq_take k rest). rewrite Hinit.
      apply elem_of_app. right. by left. }
    rewrite (IH ((before ++ [c]) ++ init) e (drop k rest)).
    + by rewrite <-fmap_app, take_drop.
    + rewrite Hsplit, <-(take_drop k rest), Hinit at 1.
      by rewrite <-!app_assoc.
    + rewrite Forall_forall in Hkept. specialize (Hkept e Herest).
      destruct (total entry_le c e) as [Hce|Hec]; [|done].
      apply entry_le_spec in Hce. lia.
    + rewrite length_drop. lia.
Qed.

End pagination.

(** ** The listing [by_timestamp] *)

Lemma mapM_Ok {A B} (f : A → result B) l k :
  mapM f l = Ok k → Forall2 (λ x y, f x = Ok y) l k.
Proof.
  revert k. induction l as [|x l IH]; intros k; simpl.
  - intros [= <-]. constructor.
  - destruct (f x) as [y|e] eqn:Hx; simpl; [|done].
    destruct (mapM f l) as [k'|e]; simpl; [|done].
    intros [= <-]. constructor; [done|]. by apply IH.
Qed.

Lemma by_timestamp_sorted fs res_id_glob entries :
  by_timestamp fs res_id_glob = Ok entries → StronglySorted entry_le entries.
Proof.
  unfold by_timestamp.
  destruct (mapM timestamp_of_file _) as [ts|e]; simpl; [|done].
  intros [= <-]. apply sorted_strongly_sorted.
Qed.

(** The entries are the (timestamp, directory) pairs of the files the glob
    matched. *)
Lemma by_timestamp_elem_of fs res_id_glob entries :
  by_timestamp fs res_id_glob = Ok entries →
  ∀ e, e ∈ entries ↔
       ∃ file, file ∈ FileSystem.glob fs (OsPath.join (str res_id_glob) "*")
               ∧ timestamp_of_file file = Ok e.1
               ∧ OsPath.dirname file = e.2.
Proof.
  unfold by_timestamp.
  destruct (mapM timestamp_of_file _) as [ts|err] eqn:Hts; simpl; [|done].
  intros [= <-] e. rewrite sorted_permutation.
  apply mapM_Ok in Hts.
  induction Hts as [|file t files ts Hfile _ IH]; simpl.
  - split; [by intros ?%elem_of_nil|]. by intros (? & ?%elem_of_nil & _).
  - rewrite elem_of_cons, IH. split.
    + intros [->|(file' & ? & ? & ?)].
      * exists file. split; [by left|done].
      * exists file'. split; [by right|done].
    + intros (file' & [->|?]%elem_of_cons & Ht & Hd).
      * left. destruct e as [t' d]. simpl in *. congruence.
      * right. by exists file'.
Qed.

(** ** Pagination *)

Lemma strongly_sorted_lt l :
  StronglySorted entry_le l → NoDup l → StronglySorted entry_lt l.
Proof.
  induction 1 as [|a l Hs IH Ha]; intros Hnodup; [constructor|].
  apply NoDup_cons in Hnodup as [Hnotin Hnodup].
  constructor; [by apply IH|].
  rewrite Forall_forall in Ha |- *. intros b Hb. split; [by apply Ha|].
  by intros ->.
Qed.

Lemma strongly_sorted_filter {A} (R : relation A) (P : A → Prop)
  `{∀ x, Decision (P x)} l :
  StronglySorted R l → StronglySorted R (filter P l).
Proof.
  induction 1 as [|a l Hs IH Ha]; [constructor|].
  rewrite filter_cons. case_decide; [|done].
  constructor; [done|].
  rewrite Forall_forall in Ha |- *.
  by intros b [_ Hb]%list_elem_of_filter; apply Ha.
Qed.

Lemma collect_first_call fs res_id_glob m (k : nat) entries :
  by_timestamp fs res_id_glob = Ok entries →
  NoDup entries →
  Forall (λ e, e.2 ≠ EmptyString ∧ PyStr.contains PyStr.colon e.2 = false)
         entries →
  (1 ≤ k)%nat →
  collect_pages (S (length entries)) fs res_id_glob m None (Some (Z.of_nat k))
  = Some (Ok (filter (λ e, m ≤ e.1) entries).*2).
Proof.
  intros Hentries Hnodup Hids Hk.
  pose proof (by_timestamp_sorted _ _ _ Hentries) as Hsorted.
  destruct (strongly_sorted_partition (λ e, e.1 <? m) entries)
    as (below & Hsplit & Hbelow); [done|..].
  { intros a b Hab Hb. apply Z.ltb_lt in Hb. apply Z.ltb_lt.
    apply entry_le_spec in Hab. lia. }
  assert (filter (λ e, (e.1 <? m) = false) entries
          = filter (λ e, m ≤ e.1) entries) as Hfilter.
  { apply list_filter_iff. intros e. by rewrite Z.ltb_ge. }
  rewrite Hfilter in Hsplit. clear Hfilter.
  set (listed := filter (λ e, m ≤ e.1) entries) in *.
  assert (Forall (λ e, skipped m None e = false) listed) as Hlisted.
  { apply Forall_forall. intros e [He _]%list_elem_of_filter.
    unfold skipped. simpl. rewrite andb_false_r, orb_false_r.
    by apply Z.ltb_ge. }
  assert (Forall (λ e, skipped m None e = true) below) as Hbelow'.
  { eapply Forall_impl; [done|]. intros e He. simpl in He.
    unfold skipped. by rewrite He. }
  simpl. rewrite (list_with_entries _ _ _ entries) by done.
  rewrite Hsplit at 1.
  rewrite (list_page_split _ _ _ _ m None) by done.
  destruct (decide (length listed ≤ k)%nat) as [Hfits|Hfits].
  - simpl. by rewrite take_ge.
  - destruct (last (take k listed)) as [e|] eqn:Hlast.
    2: { apply last_None, take_nil_inv in Hlast as [->|Hnil]; [lia|].
         rewrite Hnil in Hfits. simpl in Hfits. lia. }
    rewrite encode_token_nonempty.
    apply last_Some in Hlast as [init Hinit].
    assert (e ∈ listed) as He.
    { apply (subseteq_take k listed). rewrite Hinit.
      apply elem_of_app. right. by left. }
    rewrite (collect_from_cursor fs res_id_glob m k entries Hentries Hsorted
               Hnodup Hk _ (below ++ init) e (drop k listed)).
    + by rewrite <-fmap_app, take_drop.
    + rewrite Hsplit at 1. rewrite <-(take_drop k listed), Hinit at 1.
      by rewrite <-!app_assoc.
    + done.
    + by apply list_elem_of_filter in He as [? _].
    + rewrite length_drop.
      pose proof (length_filter (λ e, m ≤ e.1) entries). fold listed in H.
      lia.
Qed.

(** C1 (amended): pagination is complete and stable.  For a store in which
    every matched identifier has one file, is a non-empty string and contains
    no colon, following the tokens of [list] with any page size [k >= 1],
    from no token until the empty token, returns in at most one call per
    entry, and the concatenated pages are the identifiers of the matched
    files with a timestamp of at least [min_timestamp], each once, in
    ascending (timestamp, identifier) order: the same list for every [k]. *)
Theorem pagination_complete_and_stable fs res_id_glob m k entries :
  by_timestamp fs res_id_glob = Ok entries →
  NoDup entries.*2 →
  Forall (λ e, e.2 ≠ EmptyString ∧ PyStr.contains PyStr.colon e.2 = false)
         entries →
  1 ≤ k →
  let listed := filter (λ e, m ≤ e.1) entries in
  collect_pages (S (length entries)) fs res_id_glob m None (Some k)
  = Some (Ok listed.*2)
  ∧ StronglySorted entry_lt listed
  ∧ NoDup listed.*2
  ∧ ∀ e, e ∈ listed ↔
         m ≤ e.1
         ∧ ∃ file,
             file ∈ FileSystem.glob fs (OsPath.join (str res_id_glob) "*")
             ∧ timestamp_of_file file = Ok e.1
             ∧ OsPath.dirname file = e.2.
Proof.
  intros Hentries Hids Hwf Hk listed.
  assert (NoDup entries) as Hnodup by by eapply NoDup_fmap_1.
  split; [|split; [|split]].
  - replace k with (Z.of_nat (Z.to_nat k)) by lia.
    apply collect_first_call; [done..|lia].
  - apply strongly_sorted_lt.
    + apply strongly_sorted_filter. by eapply by_timestamp_sorted.
    + by apply NoDup_filter.
  - eapply NoDup_fmap_2_strong; [|by apply NoDup_filter].
    intros e1 e2 [_ He1]%list_elem_of_filter [_ He2]%list_elem_of_filter Heq.
    apply list_elem_of_lookup in He1 as [i1 Hi1].
    apply list_elem_of_lookup in He2 as [i2 Hi2].
    assert (i1 = i2) as ->; [|congruence].
    eapply NoDup_lookup; [exact Hids|..]; rewrite list_lookup_fmap.
    + by rewrite Hi1.
    + by rewrite Hi2, Heq.
  - intros e. unfold listed. rewrite list_elem_of_filter.
    by rewrite (by_timestamp_elem_of _ _ _ Hentries).
Qed.

Lemma pagination_complete_and_stable_witness :
  collect_pages 4 three_brains brains_of_p1 15 None (Some 1)
  = Some (Ok ["projects/p1/brains/b2"; "projects/p1/brains/b3"]).
Proof.
  apply (pagination_complete_and_stable three_brains brains_of_p1 15 1
           [(10, "projects/p1/brains/b1"); (20, "projects/p1/brains/b2");
            (30, "projects/p1/brains/b3")]).
  - vm_compute. reflexivity.
  - apply (bool_decide_unpack _). vm_compute. exact I.
  - apply (bool_decide_unpack _). vm_compute. exact I.
  - lia.
Defined.

(** C1 as stated fails on identifiers containing a colon: the token of the
    first page does not decode, so the second call raises. *)
Lemma pagination_colon_counterexample :
  by_timestamp colon_brains brains_of_colon_project
  = Ok [(1, "projects/p:1/brains/b1"); (2, "projects/p:1/brains/b2")]
  ∧ list_ colon_brains brains_of_colon_project 0 None (Some 1)
    = Ok (["projects/p:1/brains/b1"], "1:projects/p:1/brains/b1")
  ∧ list_ colon_brains brains_of_colon_project 0
      (Some "1:projects/p:1/brains/b1") (Some 1)
    = Raise (ValueError InvalidToken)
  ∧ collect_pages 3 colon_brains brains_of_colon_project 0 None (Some 1)
    = Some (Raise (ValueError InvalidToken)).
Proof. repeat split; vm_compute; reflexivity. Qed.

(** ** The most recent resource *)

Lemma list_unbounded fs res_id_glob m entries :
  by_timestamp fs res_id_glob = Ok entries →
  list_ fs res_id_glob m None None
  = Ok ((filter (λ e, m ≤ e.1) entries).*2, EmptyString).
Proof.
  intros Hentries. unfold list_. rewrite Hentries. simpl.
  rewrite (list_page_unfold _ _ _ _ m None) by done. cbv zeta.
  destruct (list_loop_all m None entries 0 initial_loop_state) as [-> ->].
  simpl.
  replace (_ =? _) with true.
  2: { symmetry. apply Z.eqb_eq. case_decide as Hnil; [|lia]. by rewrite Hnil. }
  do 3 f_equal. apply list_filter_iff. intros e.
  unfold skipped. simpl. rewrite andb_false_r, orb_false_r. apply Z.ltb_ge.
Qed.

Lemma by_timestamp_no_files fs res_id_glob :
  FileSystem.glob fs (OsPath.join (str res_id_glob) "*") = [] →
  by_timestamp fs res_id_glob = Ok [].
Proof. unfold by_timestamp. by intros ->. Qed.

(** C6 (amended): [_get_most_recent] returns the identifier that is greatest
    in the canonical order among the stored resources matching the glob,
    provided one of them has a timestamp of at least 0, the default lower
    bound of [list]; it returns [None] when none has, and so when the glob
    matches nothing.  [get_most_recent_snapshot] is this query on the glob
    of the snapshots of the project and brain. *)
Theorem get_most_recent_correct fs res_id_glob :
  (FileSystem.glob fs (OsPath.join (str res_id_glob) "*") = [] →
   _get_most_recent fs res_id_glob = Ok None)
  ∧ (∀ entries,
       by_timestamp fs res_id_glob = Ok entries →
       let recent := filter (λ e, 0 ≤ e.1) entries in
       _get_most_recent fs res_id_glob = Ok (snd <$> last recent)
       ∧ (last recent = None ↔ ∀ e, e ∈ entries → e.1 < 0)
       ∧ ∀ e, last recent = Some e →
              e ∈ entries ∧ ∀ e', e' ∈ entries → entry_le e' e)
  ∧ ∀ project_id brain_id,
      get_most_recent_snapshot fs project_id brain_id
      = _get_most_recent fs
          {| parts := ["projects"; project_id; "brains"; brain_id;
                       "snapshots"; "*"] |}.
Proof.
  split; [|split].
  - intros Hnone. unfold _get_most_recent.
    by rewrite (list_unbounded _ _ _ []) by by apply by_timestamp_no_files.
  - intros entries Hentries recent.
    pose proof (by_timestamp_sorted _ _ _ Hentries) as Hsorted.
    split; [|split].
    + unfold _get_most_recent. rewrite (list_unbounded _ _ _ entries) by done.
      simpl. by rewrite fmap_last.
    + rewrite last_None. unfold recent. split.
      * intros Hnil e He.
        destruct (Z.lt_ge_cases e.1 0) as [?|Hge]; [done|].
        by destruct (filter_nil_not_elem_of _ _ e Hnil Hge).
      * intros Hneg. apply elem_of_nil_inv.
        intros e [Hge He]%list_elem_of_filter. specialize (Hneg e He). lia.
    + intros e Hlast. apply last_Some in Hlast as [init Hinit].
      assert (e ∈ recent) as He.
      { rewrite Hinit. apply elem_of_app. right. by left. }
      apply list_elem_of_filter in He as [Hge He].
      split; [done|]. intros e' He'.
      destruct (strongly_sorted_partition (λ e, e.1 <? 0) entries)
        as (below & Hsplit & Hbelow); [done|..].
      { intros a b Hab Hb. apply Z.ltb_lt in Hb. apply Z.ltb_lt.
        apply entry_le_spec in Hab. lia. }
      assert (filter (λ e, (e.1 <? 0) = false) entries = recent) as Hfilter.
      { apply list_filter_iff. intros x. by rewrite Z.ltb_ge. }
      rewrite Hfilter, Hinit, app_assoc in Hsplit.
      rewrite Hsplit in He', Hsorted.
      apply elem_of_app in He' as [He'|He'];
        [|apply list_elem_of_singleton in He' as ->; reflexivity].
      eapply (StronglySorted_app_1_elem_of entry_le (below ++ init) [e]);
        [done..|by left].
  - intros project_id brain_id. reflexivity.
Qed.

Lemma get_most_recent_correct_witness :
  _get_most_recent three_brains brains_of_p1 = Ok (Some "projects/p1/brains/b3").
Proof.
  apply (proj1 (proj1 (proj2 (get_most_recent_correct three_brains brains_of_p1))
           [(10, "projects/p1/brains/b1"); (20, "projects/p1/brains/b2");
            (30, "projects/p1/brains/b3")] eq_refl)).
Defined.

(** C6 as stated fails when every matching resource was created before the
    epoch: the snapshot is stored and matches the glob, and no identifier is
    returned. *)
Lemma get_most_recent_counterexample :
  returned (write (codec := BinaryCodec.codec) ∅ 1700000000000000 early_snapshot)
  = Ok {| parts := ["projects"; "p1"; "brains"; "b1"; "snapshots"; "s1"] |}
  ∧ by_timestamp early_snapshot_store
      {| parts := ["projects"; "p1"; "brains"; "b1"; "snapshots"; "*"] |}
    = Ok [(-5, "projects/p1/brains/b1/snapshots/s1")]
  ∧ get_most_recent_snapshot early_snapshot_store "p1" "b1" = Ok None.
Proof. repeat split; vm_compute; reflexivity. Qed.

(** ** The encoder *)

Lemma of_bits_bits_of p : BinaryCodec.of_bits (BinaryCodec.bits_of p) = Some p.
Proof. induction p as [p IH|p IH|]; simpl; [by rewrite IH..|done]. Qed.

Global Instance binary_codec_laws : @ProtoCodecLaws BinaryCodec.codec.
Proof.
  split. intros [ty created flds]. simpl.
  unfold BinaryCodec.parse, BinaryCodec.serialize. simpl.
  rewrite of_bits_bits_of. simpl. by rewrite decode_encode.
Qed.

(** The identifier the resolver derives names the collection of the record's
    own type. *)
Lemma to_resource_id_proto_type resource res_id :
  to_resource_id resource = Ok res_id →
  _get_proto_type res_id = Ok (type_of resource).
Proof.
  unfold to_resource_id.
  destruct (type_of resource); simpl; intros [= <-]; reflexivity.
Qed.

(** C5: decoding what the encoder produced gives the record back, for every
    record whose type is the one registered for the collection that the
    second-to-last segment of the identifier names. *)
Theorem decode_encode_resource `{codec : ProtoCodec} `{!ProtoCodecLaws}
  res_id resource :
  _get_proto_type res_id = Ok (type_of resource) →
  ∃ data, encode_resource res_id resource = Ok data
          ∧ decode_resource res_id data = Ok resource.
Proof.
  intros Hty. exists (SerializeToString resource).
  unfold encode_resource, decode_resource. rewrite Hty. simpl.
  rewrite bool_decide_eq_true_2 by done.
  by rewrite FromString_SerializeToString.
Qed.

Lemma decode_encode_resource_witness :
  ∃ data,
    encode_resource (codec := BinaryCodec.codec) id_of_brain_b1 brain_b1 = Ok data
    ∧ decode_resource (codec := BinaryCodec.codec) id_of_brain_b1 data = Ok brain_b1.
Proof.
  apply (decode_encode_resource (codec := BinaryCodec.codec)).
  reflexivity.
Defined.

(** ** The resolver *)

Lemma hex_word_length x rest :
  String.length (Sha256.hex_word x rest) = (8 + String.length rest)%nat.
Proof. reflexivity. Qed.

Lemma hexdigest_length data : String.length (Sha256.hexdigest data) = 64%nat.
Proof.
  unfold Sha256.hexdigest, Sha256.hex_of_state.
  by rewrite !hex_word_length.
Qed.

(** C8: the key derivation of the resolver.  For a type with a declared key
    field map the identifier has one pair per declared field, in declared
    order, holding the field's value as it is, except that [assignment_id]
    contributes the SHA-256 hex digest of its value, which has 64
    characters; for any other type [to_resource_id] fails. *)
Theorem to_resource_id_key_derivation resource :
  (∀ field_map,
     _KEY_FIELD_MAP (type_of resource) = Some field_map →
     to_resource_id resource
     = Ok (FalkenResourceId
             ((λ item,
                 (item.2,
                  if bool_decide (item.1 = "assignment_id")
                  then Sha256.hexdigest (getattr resource item.1)
                  else getattr resource item.1)) <$> field_map)))
  ∧ (_KEY_FIELD_MAP (type_of resource) = None →
     to_resource_id resource = Raise (ValueError NotAValidResourceType))
  ∧ ∀ value, String.length (Sha256.hexdigest value) = 64%nat.
Proof.
  split; [|split].
  - intros field_map Hmap. unfold to_resource_id. rewrite Hmap.
    destruct (type_of resource); simpl in Hmap;
      [injection Hmap as <-; reflexivity..|done].
  - intros Hnone. unfold to_resource_id. by rewrite Hnone.
  - apply hexdigest_length.
Qed.

Lemma to_resource_id_key_derivation_witness :
  to_resource_id assignment_a1
  = Ok {| parts :=
            ["projects"; "p1"; "brains"; "b1"; "sessions"; "s1"; "assignments";
             "ba7816bf8f01cfea414140de5dae2223b00361a396177a9cb410ff61f20015ad"] |}.
Proof.
  rewrite (proj1 (to_resource_id_key_derivation assignment_a1)
             [("project_id", "project"); ("brain_id", "brain");
              ("session_id", "session"); ("assignment_id", "assignment")]
             eq_refl).
  vm_compute. reflexivity.
Defined.

(** ** Reading *)

Lemma glob_elem_of fs pattern path :
  path ∈ FileSystem.glob fs pattern ↔
  is_Some (fs !! path) ∧ FileSystem.glob_match pattern path = true.
Proof.
  unfold FileSystem.glob. rewrite list_elem_of_filter, Is_true_true.
  rewrite list_elem_of_fmap. split.
  - intros [Hm ([p d] & -> & Hin)]. apply elem_of_map_to_list in Hin.
    split; [by exists d|done].
  - intros [[d Hd] Hm]. split; [done|]. exists (path, d).
    split; [done|]. by apply elem_of_map_to_list.
Qed.

Lemma timestamp_of_file_raises file e :
  timestamp_of_file file = Raise e → e = ValueError InvalidIntLiteral.
Proof. apply int_raises. Qed.

Lemma read_timestamp_micros_none fs res_id :
  resource_files fs res_id = [] →
  read_timestamp_micros fs res_id = Raise NotFoundError.
Proof. unfold read_timestamp_micros. by intros ->. Qed.

Lemma read_timestamp_micros_one fs res_id file :
  resource_files fs res_id = [file] →
  read_timestamp_micros fs res_id
  = match timestamp_of_file file with
    | Ok t => Ok t
    | Raise _ => Raise InternalError
    end.
Proof.
  unfold read_timestamp_micros. intros ->.
  destruct (timestamp_of_file file) as [t|e] eqn:Hfile; [done|].
  by apply timestamp_of_file_raises in Hfile as ->.
Qed.

Lemma read_timestamp_micros_many fs res_id :
  (1 < length (resource_files fs res_id))%nat →
  read_timestamp_micros fs res_id = Raise InternalError.
Proof.
  unfold read_timestamp_micros.
  destruct (resource_files fs res_id) as [|f1 [|f2 files]]; simpl;
    [lia..|done].
Qed.

Lemma read_timestamp_micros_raises fs res_id e :
  read_timestamp_micros fs res_id = Raise e →
  e = NotFoundError ∨ e = InternalError.
Proof.
  unfold read_timestamp_micros.
  destruct (resource_files fs res_id) as [|f1 [|f2 files]].
  - intros [= <-]. by left.
  - destruct (timestamp_of_file f1) as [t|e'] eqn:Hfile; [done|].
    apply timestamp_of_file_raises in Hfile as ->. intros [= <-]. by right.
  - intros [= <-]. by right.
Qed.

Lemma decode_resource_not_found `{codec : ProtoCodec} res_id data :
  decode_resource res_id data ≠ Raise NotFoundError.
Proof.
  unfold decode_resource, _get_proto_type.
  case_bool_decide; [done|].
  destruct (parts res_id !! _); [|done].
  destruct (Dict.get _ _); [|done]. simpl.
  by destruct (FromString _ _).
Qed.

Lemma decode_resource_not_internal `{codec : ProtoCodec} res_id data :
  decode_resource res_id data ≠ Raise InternalError.
Proof.
  unfold decode_resource, _get_proto_type.
  case_bool_decide; [done|].
  destruct (parts res_id !! _); [|done].
  destruct (Dict.get _ _); [|done]. simpl.
  by destruct (FromString _ _).
Qed.

Lemma read_with_timestamp `{codec : ProtoCodec} fs res_id t :
  read_timestamp_micros fs res_id = Ok t →
  read fs res_id
  = match fs !! _get_path res_id t with
    | Some data => decode_resource res_id data
    | None => Raise NotFoundError
    end.
Proof.
  intros Ht. unfold read. rewrite Ht. simpl.
  unfold FileSystem.read_file. by destruct (fs !! _).
Qed.

(** C4 (amended): the errors of reading.  [read_timestamp_micros] fails with
    [NotFoundError] exactly when the glob for the files of the identifier
    matches nothing.  [read] fails with [NotFoundError] exactly then, or when
    the one matched file carries the timestamp [t] and no file exists at the
    path the store derives from [t].  Both fail with [InternalError] when
    there is more than one match or when the name of the single match does
    not parse.  Otherwise [read_timestamp_micros] returns the timestamp and
    [read] decodes the file at the derived path, which is the matched file
    whenever that file is named as the store names files. *)
Theorem read_error_semantics `{codec : ProtoCodec} fs res_id :
  let files := resource_files fs res_id in
  (read_timestamp_micros fs res_id = Raise NotFoundError ↔ files = [])
  ∧ (read fs res_id = Raise NotFoundError ↔
       files = [] ∨
       ∃ file t, files = [file] ∧ timestamp_of_file file = Ok t
                 ∧ fs !! _get_path res_id t = None)
  ∧ ((1 < length files)%nat
     ∨ (∃ file e, files = [file] ∧ timestamp_of_file file = Raise e) →
     read_timestamp_micros fs res_id = Raise InternalError
     ∧ read fs res_id = Raise InternalError)
  ∧ ∀ file t,
      files = [file] → timestamp_of_file file = Ok t →
      read_timestamp_micros fs res_id = Ok t
      ∧ (∀ data, fs !! _get_path res_id t = Some data →
                 read fs res_id = decode_resource res_id data)
      ∧ (file = _get_path res_id t →
         ∃ data, fs !! file = Some data
                 ∧ read fs res_id = decode_resource res_id data).
Proof.
  intros files.
  assert (∀ file t, files = [file] → timestamp_of_file file = Ok t →
                    read_timestamp_micros fs res_id = Ok t) as Hone.
  { intros file t Hfiles Ht.
    by rewrite (read_timestamp_micros_one _ _ file), Ht. }
  assert (∀ file e, files = [file] → timestamp_of_file file = Raise e →
                    read_timestamp_micros fs res_id = Raise InternalError)
    as Hbad.
  { intros file e Hfiles Ht.
    by rewrite (read_timestamp_micros_one _ _ file), Ht. }
  split; [|split; [|split]].
  - split; [|apply read_timestamp_micros_none].
    destruct files as [|f1 [|f2 rest]] eqn:Hfiles; [done|..].
    + destruct (timestamp_of_file f1) as [t|e] eqn:Ht.
      * by rewrite (Hone f1 t).
      * by rewrite (Hbad f1 e).
    + rewrite read_timestamp_micros_many; [done|].
      fold files. rewrite Hfiles. simpl. lia.
  - split.
    + destruct files as [|f1 [|f2 rest]] eqn:Hfiles; [by left|..].
      * destruct (timestamp_of_file f1) as [t|e] eqn:Ht.
        -- rewrite (read_with_timestamp _ _ t) by by apply (Hone f1).
           destruct (fs !! _get_path res_id t) as [data|] eqn:Hdata.
           ++ by intros ?%decode_resource_not_found.
           ++ intros _. right. by exists f1, t.
        -- unfold read. by rewrite (Hbad f1 e).
      * unfold read. rewrite read_timestamp_micros_many; [done|].
        fold files. rewrite Hfiles. simpl. lia.
    + intros [Hnone|(file & t & Hfiles & Ht & Hdata)].
      * unfold read. by rewrite read_timestamp_micros_none.
      * rewrite (read_with_timestamp _ _ t) by by apply (Hone file).
        by rewrite Hdata.
  - intros Hcases.
    assert (read_timestamp_micros fs res_id = Raise InternalError) as Hts.
    { destruct Hcases as [Hmany|(file & e & Hfiles & Ht)].
      - by apply read_timestamp_micros_many.
      - by apply (Hbad file e). }
    split; [done|]. unfold read. by rewrite Hts.
  - intros file t Hfiles Ht.
    pose proof (Hone file t Hfiles Ht) as Hts.
    split; [done|]. split.
    + intros data Hdata. by rewrite (read_with_timestamp _ _ t), Hdata.
    + intros Hcanonical.
      assert (file ∈ files) as Hin by (rewrite Hfiles; by left).
      apply glob_elem_of in Hin as [[data Hdata] _].
      exists data. split; [done|].
      rewrite (read_with_timestamp _ _ t) by done.
      by rewrite <-Hcanonical, Hdata.
Qed.

Lemma read_error_semantics_witness :
  read_timestamp_micros three_brains id_of_brain_b1 = Ok 10
  ∧ ∃ data,
      three_brains !! "projects/p1/brains/b1/resource.0000000000000010"
      = Some data
      ∧ read (codec := BinaryCodec.codec) three_brains id_of_brain_b1
        = decode_resource (codec := BinaryCodec.codec) id_of_brain_b1 data.
Proof.
  destruct (proj2 (proj2 (proj2
    (read_error_semantics (codec := BinaryCodec.codec) three_brains id_of_brain_b1)))
    "projects/p1/brains/b1/resource.0000000000000010" 10 eq_refl eq_refl)
    as (Hts & _ & Hread).
  split; [exact Hts|]. exact (Hread eq_refl).
Defined.

(** C4 as stated fails for [read] on a file that is not named with sixteen
    digits: the glob yields one match, whose name parses, and [read] still
    fails with [NotFoundError]. *)
Lemma read_not_found_counterexample :
  resource_files short_name_store id_of_project_p1 = ["projects/p1/resource.5"]
  ∧ read_timestamp_micros short_name_store id_of_project_p1 = Ok 5
  ∧ read (codec := BinaryCodec.codec) short_name_store id_of_project_p1
    = Raise NotFoundError.
Proof. repeat split; vm_compute; reflexivity. Qed.

(** ** Writing *)

Section write_facts.
Context `{codec : ProtoCodec}.

Lemma write_encoded_resource_after fs res_id resource t :
  resource_after (write_encoded fs res_id resource t) = resource.
Proof. unfold write_encoded. by destruct (encode_resource _ _). Qed.

Lemma encode_resource_raises res_id resource e :
  encode_resource res_id resource = Raise e →
  e ≠ ValueError DifferentTimestamp.
Proof.
  unfold encode_resource, _get_proto_type.
  case_bool_decide; [by intros [= <-]|].
  destruct (parts res_id !! _); [|by intros [= <-]].
  destruct (Dict.get _ _); [|by intros [= <-]]. simpl.
  case_bool_decide; [done|]. by intros [= <-].
Qed.

Lemma write_encoded_no_conflict fs res_id resource t :
  returned (write_encoded fs res_id resource t)
  ≠ Raise (ValueError DifferentTimestamp).
Proof.
  unfold write_encoded.
  destruct (encode_resource _ _) as [data|e] eqn:Hencode; simpl; [done|].
  intros [= ->]. by apply encode_resource_raises in Hencode.
Qed.

(** [write] by cases on the record's and the stored timestamp. *)
Lemma write_unfold fs now resource res_id :
  to_resource_id resource = Ok res_id →
  write fs now resource
  = match stored_timestamp fs res_id with
    | Raise e => Build_write_outcome (Raise e) resource fs
    | Ok stored =>
        if bool_decide (created_micros resource = 0) then
          let t := if truthy_int stored then default 0 stored else now in
          write_encoded fs res_id (set_timestamp_micros resource t) t
        else if truthy_int stored
                && negb (bool_decide (stored = Some (created_micros resource)))
        then Build_write_outcome (Raise (ValueError DifferentTimestamp))
               resource fs
        else write_encoded fs res_id resource (created_micros resource)
    end.
Proof.
  intros Hid. unfold write, stored_timestamp, get_timestamp_micros.
  rewrite Hid.
  assert (∀ A (a b : A),
            (if negb (truthy_int
                        (if bool_decide (created_micros resource = 0)
                         then None else Some (created_micros resource)))
             then a else b)
            = if bool_decide (created_micros resource = 0) then a else b)
    as Hunset.
  { intros A a b. case_bool_decide as Hc; [done|]. simpl.
    by apply Z.eqb_neq in Hc as ->. }
  destruct (read_timestamp_micros fs res_id) as [t|[]]; try done;
    rewrite Hunset; case_bool_decide; done.
Qed.

Lemma stored_timestamp_some fs res_id t :
  stored_timestamp fs res_id = Ok (Some t) ↔
  read_timestamp_micros fs res_id = Ok t.
Proof.
  unfold stored_timestamp.
  destruct (read_timestamp_micros fs res_id) as [t'|[]]; naive_solver.
Qed.

Lemma stored_timestamp_raises fs res_id e :
  stored_timestamp fs res_id = Raise e → e = InternalError.
Proof.
  unfold stored_timestamp.
  destruct (read_timestamp_micros fs res_id) as [t|e'] eqn:Hts; [done|].
  apply read_timestamp_micros_raises in Hts as [-> | ->]; [done|].
  by intros [= <-].
Qed.

End write_facts.



(** When the conflict branch of [write] is taken.  The test is
    [read_timestamp and read_timestamp != timestamp_micros]: the branch is
    taken when the record carries a timestamp and the stored one is non-zero
    and differs, and then nothing is written and the record is not touched.
    A stored timestamp of 0 does not pass the test; what [write] does then is
    evaluated below. *)
Lemma write_conflict_branch `{codec : ProtoCodec} fs now resource :
  let out := write fs now resource in
  (returned out = Raise (ValueError DifferentTimestamp) ↔
   ∃ res_id stored,
     to_resource_id resource = Ok res_id
     ∧ created_micros resource ≠ 0
     ∧ read_timestamp_micros fs res_id = Ok stored
     ∧ stored ≠ 0
     ∧ stored ≠ created_micros resource)
  ∧ (returned out = Raise (ValueError DifferentTimestamp) →
     fs_after out = fs ∧ resource_after out = resource).
Proof.
  intros out. unfold out. clear out.
  destruct (to_resource_id resource) as [res_id|e] eqn:Hid.
  2: { unfold write. rewrite Hid. simpl. split; [|done]. split.
       - intros [= ->]. unfold to_resource_id in Hid.
         by destruct (_KEY_FIELD_MAP _).
       - by intros (? & ? & ? & _). }
  rewrite (write_unfold _ _ _ res_id) by done.
  destruct (stored_timestamp fs res_id) as [stored|e] eqn:Hstored.
  2: { simpl. split; [|done]. split.
       - intros [= ->]. by apply stored_timestamp_raises in Hstored.
       - intros (res_id' & t & [= <-] & _ & Hts & _).
         apply stored_timestamp_some in Hts. congruence. }
  case_bool_decide as Hcreated.
  - cbv zeta. split.
    + split; [by intros ?%write_encoded_no_conflict|].
      by intros (? & ? & _ & ? & _).
    + by intros ?%write_encoded_no_conflict.
  - destruct (truthy_int stored
              && negb (bool_decide (stored = Some (created_micros resource))))
      eqn:Hconflict.
    + simpl. split; [|done]. split; [intros _|done].
      apply andb_true_iff in Hconflict as [Htruthy Hdiffer].
      destruct stored as [t|]; [|done].
      apply stored_timestamp_some in Hstored.
      exists res_id, t. repeat split; [done..| |].
      * simpl in Htruthy. by apply negb_true_iff, Z.eqb_neq in Htruthy.
      * apply negb_true_iff, bool_decide_eq_false in Hdiffer. congruence.
    + split; [|by intros ?%write_encoded_no_conflict].
      split; [by intros ?%write_encoded_no_conflict|].
      intros (res_id' & t & [= <-] & _ & Hts & Hnz & Hne).
      apply stored_timestamp_some in Hts. rewrite Hts in Hstored.
      injection Hstored as <-. simpl in Hconflict.
      apply andb_false_iff in Hconflict as [Hc|Hc].
      * apply negb_false_iff, Z.eqb_eq in Hc. done.
      * apply negb_false_iff, bool_decide_eq_true in Hc. congruence.
Qed.

Lemma write_conflict_branch_example :
  returned (write (codec := BinaryCodec.codec) three_brains 77
              (new_resource Brain 5 [("project_id", "p1"); ("brain_id", "b1")]))
  = Raise (ValueError DifferentTimestamp).
Proof.
  apply (proj1 (write_conflict_branch (codec := BinaryCodec.codec) three_brains 77
                  (new_resource Brain 5
                     [("project_id", "p1"); ("brain_id", "b1")]))).
  exists id_of_brain_b1, 10. repeat split; try (vm_compute; discriminate).
Defined.

(** C3: [write] on a stored timestamp of 0.  The record carries the
    timestamp 5, a version is stored for its identifier, and the stored
    timestamp, 0, differs from the record's: the case in which the comment
    above the test in [write] says an error is raised.  The stored 0 is
    falsy, the test fails, and [write] returns the identifier and writes a
    second file for it, after which [read_timestamp_micros] and [read] fail
    with [InternalError]. *)
Lemma write_conflict_stored_zero :
  let out :=
    write (codec := BinaryCodec.codec) zero_timestamp_store 77 (project_p1 5) in
  to_resource_id (project_p1 5) = Ok id_of_project_p1
  ∧ get_timestamp_micros (project_p1 5) = Some 5
  ∧ resource_files zero_timestamp_store id_of_project_p1
    = ["projects/p1/resource.0000000000000000"]
  ∧ read_timestamp_micros zero_timestamp_store id_of_project_p1 = Ok 0
  ∧ returned out = Ok id_of_project_p1
  ∧ returned out ≠ Raise (ValueError DifferentTimestamp)
  ∧ fs_after out ≠ zero_timestamp_store
  ∧ resource_files (fs_after out) id_of_project_p1
    = ["projects/p1/resource.0000000000000005";
       "projects/p1/resource.0000000000000000"]
  ∧ read_timestamp_micros (fs_after out) id_of_project_p1 = Raise InternalError
  ∧ read (codec := BinaryCodec.codec) (fs_after out) id_of_project_p1
    = Raise InternalError.
Proof. repeat split; vm_compute; (reflexivity || discriminate). Qed.

(** ** Instances of the listing properties *)

Lemma list_empty_page_empty_token_witness :
  ∃ next_token,
    list_ three_brains brains_of_p1 100 None (Some 1) = Ok ([], next_token)
    ∧ next_token = EmptyString.
Proof.
  exists EmptyString. split; [vm_compute; reflexivity|].
  apply (proj2 (list_empty_page_empty_token three_brains brains_of_p1 100 None
                  (Some 1))).
  vm_compute. reflexivity.
Defined.

Lemma list_page_size_zero_unbounded_witness :
  list_ three_brains brains_of_p1 0 None (Some 0)
  = Ok (["projects/p1/brains/b1"; "projects/p1/brains/b2";
         "projects/p1/brains/b3"], EmptyString)
  ∧ ∃ next_token,
      list_ three_brains brains_of_p1 0 None (Some 2)
      = Ok (["projects/p1/brains/b1"; "projects/p1/brains/b2"], next_token).
Proof.
  destruct (proj2 (list_page_size_zero_unbounded three_brains brains_of_p1 0 None)
              [(10, "projects/p1/brains/b1"); (20, "projects/p1/brains/b2");
               (30, "projects/p1/brains/b3")] 0 None eq_refl eq_refl)
    as [Hall Hcut].
  split.
  - apply (Hall (Some 0)). simpl. lia.
  - apply (Hcut 2). lia.
Defined.

(** ** Paths *)

Lemma join_dir_prefix a b :
  PyStr.startswith "/" b = false → OsPath.join a b = dir_prefix a +:+ b.
Proof.
  intros Hb. unfold OsPath.join, dir_prefix. rewrite Hb.
  destruct (_ || _); [done|]. by rewrite PyStrFacts.app_assoc.
Qed.

Lemma endswith_slash_app a : OsPath.endswith_slash (a +:+ "/") = true.
Proof.
  induction a as [|c a IH]; [done|]. rewrite PyStrFacts.app_cons.
  simpl. destruct (a +:+ "/") eqn:Ha; [by destruct a|done].
Qed.

Lemma endswith_slash_contains a :
  OsPath.endswith_slash a = true → PyStr.contains PyStr.slash a = true.
Proof.
  induction a as [|c a IH]; [done|]. simpl.
  destruct a as [|c' a].
  - unfold OsPath.is_slash. by intros ->.
  - intros Ha. rewrite IH by done. apply orb_true_r.
Qed.

Lemma dir_prefix_shape a :
  dir_prefix a = EmptyString ∨ OsPath.endswith_slash (dir_prefix a) = true.
Proof.
  unfold dir_prefix.
  destruct (PyStr.is_empty a || OsPath.endswith_slash a) eqn:Hcase.
  - apply orb_true_iff in Hcase as [Hempty|Hend]; [left|by right].
    by destruct a.
  - right. apply endswith_slash_app.
Qed.

Lemma head_no_slash x :
  PyStr.contains PyStr.slash x = false → OsPath.head x = EmptyString.
Proof.
  destruct x as [|c x]; [done|]. simpl.
  intros [Hc Hx]%orb_false_iff. rewrite Hx.
  unfold OsPath.is_slash. by rewrite Hc.
Qed.

Lemma basename_no_slash x :
  PyStr.contains PyStr.slash x = false → OsPath.basename x = x.
Proof.
  destruct x as [|c x]; [done|]. simpl.
  intros [Hc Hx]%orb_false_iff. rewrite Hx.
  unfold OsPath.is_slash. by rewrite Hc.
Qed.

(** The head and the base name of a path put together from a directory
    prefix and a file name. *)
Lemma head_basename_app d x :
  d = EmptyString ∨ OsPath.endswith_slash d = true →
  PyStr.contains PyStr.slash x = false →
  OsPath.head (d +:+ x) = d ∧ OsPath.basename (d +:+ x) = x.
Proof.
  intros Hd Hx. induction d as [|c d IH].
  - split; [by apply head_no_slash|by apply basename_no_slash].
  - destruct Hd as [?|Hd]; [done|].
    rewrite PyStrFacts.app_cons. simpl.
    destruct d as [|c' d].
    + simpl in Hd. change (EmptyString +:+ x) with x. rewrite Hx, Hd.
      unfold OsPath.is_slash in Hd. apply Ascii.eqb_eq in Hd as ->. done.
    + assert (OsPath.endswith_slash (String c' d) = true) as Hd' by done.
      rewrite PyStrFacts.contains_app, (endswith_slash_contains _ Hd').
      simpl orb. destruct IH as [-> ->]; [by right|]. done.
Qed.

Lemma padded_no_slash t :
  PyStr.contains PyStr.slash (PyStr.of_int_zero_padded 16 t) = false.
Proof.
  apply PyStrFacts.contains_all.
  eapply PyStrFacts.all_impl;
    [|apply PyStrFacts.of_int_zero_padded_sign_or_digit].
  intros a Ha. by rewrite PyStrFacts.is_digit_not_slash.
Qed.

Lemma get_path_prefix res_id t :
  _get_path res_id t
  = resource_path_prefix res_id +:+ PyStr.of_int_zero_padded 16 t.
Proof.
  unfold _get_path, _get_filename, resource_path_prefix.
  rewrite join_dir_prefix by done. by rewrite PyStrFacts.app_assoc.
Qed.

Lemma filename_no_slash t :
  PyStr.contains PyStr.slash (_get_filename t) = false.
Proof.
  unfold _get_filename. rewrite PyStrFacts.contains_app, padded_no_slash.
  done.
Qed.

Lemma get_path_inj res_id t1 t2 :
  _get_path res_id t1 = _get_path res_id t2 → t1 = t2.
Proof.
  rewrite !get_path_prefix. intros Heq%(inj (String.append _)).
  by apply PyStrFacts.of_int_zero_padded_inj in Heq.
Qed.

(** The timestamp of a file the store named is the one it was named with. *)
Lemma timestamp_of_get_path res_id t :
  timestamp_of_file (_get_path res_id t) = Ok t.
Proof.
  unfold timestamp_of_file, _get_path.
  rewrite join_dir_prefix by done.
  destruct (head_basename_app (dir_prefix (str res_id)) (_get_filename t))
    as [_ ->]; [apply dir_prefix_shape|apply filename_no_slash|].
  unfold _get_filename.
  change (PyStr.drop _ (_RESOURCE_PREFIX +:+ ?s)) with s.
  apply PyStrFacts.int_of_int_zero_padded.
Qed.

(** ** Patterns *)

Lemma literal_app s1 s2 : literal s1 → literal s2 → literal (s1 +:+ s2).
Proof.
  unfold literal. rewrite !PyStrFacts.contains_app.
  by intros [-> ->] [-> ->].
Qed.

Lemma dir_prefix_literal a : literal a → literal (dir_prefix a).
Proof.
  intros Ha. unfold dir_prefix. destruct (_ || _); [done|].
  by apply literal_app.
Qed.

Lemma resource_path_prefix_literal res_id :
  literal (str res_id) → literal (resource_path_prefix res_id).
Proof.
  intros Hid. apply literal_app; [by apply dir_prefix_literal|done].
Qed.

Lemma strip_prefix_app p s : FileSystem.strip_prefix p (p +:+ s) = Some s.
Proof.
  induction p as [|a p IH]; [done|].
  rewrite PyStrFacts.app_cons. simpl. by rewrite Ascii.eqb_refl.
Qed.

Lemma strip_prefix_Some p s s' :
  FileSystem.strip_prefix p s = Some s' → s = p +:+ s'.
Proof.
  revert s. induction p as [|a p IH]; intros s; simpl.
  - by intros [= ->].
  - destruct s as [|b s]; [done|].
    destruct (Ascii.eqb_spec a b) as [->|]; [|done].
    intros ->%IH. by rewrite PyStrFacts.app_cons.
Qed.

Lemma matches_star s :
  FileSystem.matches [FileSystem.Star] s = negb (PyStr.contains PyStr.slash s).
Proof.
  induction s as [|a s IH]; [done|].
  simpl in *. rewrite IH. unfold OsPath.is_slash.
  destruct (Ascii.eqb a PyStr.slash); simpl; [done|].
  by destruct (PyStr.contains PyStr.slash s).
Qed.

(** A literal followed by a star matches the literal followed by anything
    within the path segment. *)
Lemma glob_match_literal_star l path :
  literal l →
  FileSystem.glob_match (l +:+ "*") path
  = match FileSystem.strip_prefix l path with
    | Some suffix => negb (PyStr.contains PyStr.slash suffix)
    | None => false
    end.
Proof.
  unfold FileSystem.glob_match, FileSystem.tokens, literal.
  revert path. induction l as [|a l IH]; intros path [Hstar Hbrace].
  - apply matches_star.
  - simpl in Hstar, Hbrace.
    apply orb_false_iff in Hstar as [Ha Hstar].
    apply orb_false_iff in Hbrace as [Ha' Hbrace].
    rewrite PyStrFacts.app_cons. simpl. rewrite Ha, Ha'. simpl.
    destruct path as [|b path]; [done|].
    destruct (Ascii.eqb a b); simpl; [|done]. by apply IH.
Qed.

Lemma resource_pattern res_id :
  OsPath.join (str res_id) (_RESOURCE_PREFIX +:+ "*")
  = resource_path_prefix res_id +:+ "*".
Proof.
  unfold resource_path_prefix. rewrite join_dir_prefix by done.
  by rewrite PyStrFacts.app_assoc.
Qed.

Lemma resource_files_elem_of fs res_id path :
  literal (str res_id) →
  path ∈ resource_files fs res_id ↔
  is_Some (fs !! path)
  ∧ ∃ suffix, path = resource_path_prefix res_id +:+ suffix
              ∧ PyStr.contains PyStr.slash suffix = false.
Proof.
  intros Hid. unfold resource_files.
  rewrite glob_elem_of, resource_pattern.
  rewrite glob_match_literal_star by by apply resource_path_prefix_literal.
  split; intros [Hfs Hmatch]; (split; [done|]).
  - destruct (FileSystem.strip_prefix _ _) as [suffix|] eqn:Hstrip; [|done].
    exists suffix. split; [by apply strip_prefix_Some|].
    by apply negb_true_iff.
  - destruct Hmatch as (suffix & -> & Hsuffix).
    by rewrite strip_prefix_app, Hsuffix.
Qed.

(** Files of two identifiers can only coincide when the identifiers name the
    same directory, and then all their files coincide. *)
Lemma resource_path_prefix_eq res_id other suffix suffix' :
  resource_path_prefix res_id +:+ suffix
  = resource_path_prefix other +:+ suffix' →
  PyStr.contains PyStr.slash suffix = false →
  PyStr.contains PyStr.slash suffix' = false →
  dir_prefix (str res_id) = dir_prefix (str other).
Proof.
  unfold resource_path_prefix. rewrite !PyStrFacts.app_assoc.
  intros Heq Hs Hs'.
  destruct (head_basename_app (dir_prefix (str res_id))
              (_RESOURCE_PREFIX +:+ suffix)) as [<- _];
    [apply dir_prefix_shape|by rewrite PyStrFacts.contains_app, Hs|].
  destruct (head_basename_app (dir_prefix (str other))
              (_RESOURCE_PREFIX +:+ suffix')) as [<- _];
    [apply dir_prefix_shape|by rewrite PyStrFacts.contains_app, Hs'|].
  by rewrite Heq.
Qed.

Lemma resource_files_same_dir fs res_id other :
  dir_prefix (str res_id) = dir_prefix (str other) →
  resource_files fs res_id = resource_files fs other.
Proof.
  intros Heq. unfold resource_files.
  by rewrite !resource_pattern; unfold resource_path_prefix; rewrite Heq.
Qed.

(** ** Writing a file and globbing *)

Lemma glob_write_file_existing fs path data pattern :
  is_Some (fs !! path) →
  FileSystem.glob (FileSystem.write_file fs path data) pattern
  ≡ₚ FileSystem.glob fs pattern.
Proof.
  intros [old Hold]. unfold FileSystem.glob, FileSystem.write_file.
  rewrite <-(insert_delete_eq fs path data).
  rewrite map_to_list_insert by apply lookup_delete_eq.
  rewrite <-(map_to_list_delete fs path old) by done.
  done.
Qed.

Lemma glob_write_file_new fs path data pattern :
  fs !! path = None →
  FileSystem.glob (FileSystem.write_file fs path data) pattern
  ≡ₚ (if FileSystem.glob_match pattern path then [path] else [])
     ++ FileSystem.glob fs pattern.
Proof.
  intros Hnew. unfold FileSystem.glob, FileSystem.write_file.
  rewrite map_to_list_insert by done.
  rewrite fmap_cons, filter_cons. simpl.
  destruct (FileSystem.glob_match pattern path); done.
Qed.

(** ** One file per identifier *)

Lemma glob_match_get_path res_id t :
  literal (str res_id) →
  FileSystem.glob_match
    (OsPath.join (str res_id) (_RESOURCE_PREFIX +:+ "*")) (_get_path res_id t)
  = true.
Proof.
  intros Hid. rewrite resource_pattern, get_path_prefix.
  rewrite glob_match_literal_star by by apply resource_path_prefix_literal.
  by rewrite strip_prefix_app, padded_no_slash.
Qed.

Lemma glob_match_other_dir res_id other t :
  literal (str other) →
  FileSystem.glob_match
    (OsPath.join (str other) (_RESOURCE_PREFIX +:+ "*")) (_get_path res_id t)
  = true →
  dir_prefix (str other) = dir_prefix (str res_id).
Proof.
  intros Hother. rewrite resource_pattern.
  rewrite glob_match_literal_star by by apply resource_path_prefix_literal.
  destruct (FileSystem.strip_prefix _ _) as [suffix|] eqn:Hstrip; [|done].
  intros Hsuffix%negb_true_iff. apply strip_prefix_Some in Hstrip.
  rewrite get_path_prefix in Hstrip. symmetry.
  by eapply resource_path_prefix_eq; [done|apply padded_no_slash|].
Qed.

Lemma stored_timestamp_no_file fs res_id :
  resource_files fs res_id = [] → stored_timestamp fs res_id = Ok None.
Proof.
  intros Hnone. unfold stored_timestamp.
  by rewrite read_timestamp_micros_none.
Qed.

Lemma read_timestamp_micros_get_path fs res_id t :
  resource_files fs res_id = [_get_path res_id t] →
  read_timestamp_micros fs res_id = Ok t.
Proof.
  intros Hone. rewrite (read_timestamp_micros_one _ _ _ Hone).
  by rewrite timestamp_of_get_path.
Qed.

Section one_file.
Context `{codec : ProtoCodec}.

(** What a successful [write] did. *)
Lemma write_success fs now resource res_id :
  returned (write fs now resource) = Ok res_id →
  ∃ stored t data,
    to_resource_id resource = Ok res_id
    ∧ stored_timestamp fs res_id = Ok stored
    ∧ fs_after (write fs now resource)
      = FileSystem.write_file fs (_get_path res_id t) data
    ∧ created_micros (resource_after (write fs now resource)) = t
    ∧ (truthy_int stored = true → stored = Some t)
    ∧ (truthy_int stored = false →
       t = if bool_decide (created_micros resource = 0)
           then now else created_micros resource).
Proof.
  destruct (to_resource_id resource) as [res_id'|e] eqn:Hid.
  2: { unfold write. by rewrite Hid. }
  rewrite (write_unfold _ _ _ res_id') by done.
  destruct (stored_timestamp fs res_id') as [stored|e] eqn:Hstored; [|done].
  assert (∀ r t,
    returned (write_encoded fs res_id' r t) = Ok res_id →
    res_id' = res_id
    ∧ ∃ data, fs_after (write_encoded fs res_id' r t)
              = FileSystem.write_file fs (_get_path res_id' t) data)
    as Hencoded.
  { intros r t. unfold write_encoded.
    destruct (encode_resource res_id' r) as [data|e]; simpl; [|done].
    intros [= ->]. split; [done|]. by exists data. }
  case_bool_decide as Hcreated.
  - cbv zeta. intros Hok.
    destruct (Hencoded _ _ Hok) as (-> & data & Hfs).
    exists stored, (if truthy_int stored then default 0 stored else now), data.
    rewrite write_encoded_resource_after. simpl.
    repeat split; try done.
    + intros Htruthy. rewrite Htruthy. by destruct stored.
    + by intros ->.
  - destruct (truthy_int stored && _) eqn:Hconflict; [done|]. intros Hok.
    destruct (Hencoded _ _ Hok) as (-> & data & Hfs).
    exists stored, (created_micros resource), data.
    rewrite write_encoded_resource_after.
    repeat split; try done.
    intros Htruthy. rewrite Htruthy in Hconflict. simpl in Hconflict.
    by apply negb_false_iff, bool_decide_eq_true in Hconflict.
Qed.


Lemma write_single_file fs now resource res_id :
  returned (write fs now resource) = Ok res_id →
  literal (str res_id) →
  (resource_files fs res_id = []
   ∨ ∃ t0, t0 ≠ 0 ∧ resource_files fs res_id = [_get_path res_id t0]) →
  let fs' := fs_after (write fs now resource) in
  let t' := created_micros (resource_after (write fs now resource)) in
  resource_files fs' res_id = [_get_path res_id t']
  ∧ (resource_files fs res_id = [] →
     fs !! _get_path res_id t' = None
     ∧ t' = if bool_decide (created_micros resource = 0)
            then now else created_micros resource)
  ∧ (∀ t0, t0 ≠ 0 → resource_files fs res_id = [_get_path res_id t0] →
           t' = t0 ∧ dom fs' = dom fs)
  ∧ ∀ other, literal (str other) →
             (length (resource_files fs other) ≤ 1)%nat →
             (length (resource_files fs' other) ≤ 1)%nat.
Proof.
  intros Hok Hliteral Hbefore fs' t'.
  destruct (write_success _ _ _ _ Hok)
    as (stored & t & data & Hid & Hstored & Hfs & Ht & Htruthy & Hfalsy).
  fold fs' in Hfs. fold t' in Ht. rewrite Ht. clear Ht t'.
  (* the file written is the only one of the identifier *)
  assert ((resource_files fs res_id = [] ∧ fs !! _get_path res_id t = None
           ∧ t = (if bool_decide (created_micros resource = 0)
                  then now else created_micros resource))
          ∨ (t ≠ 0 ∧ resource_files fs res_id = [_get_path res_id t]
             ∧ is_Some (fs !! _get_path res_id t))) as Hcases.
  { destruct Hbefore as [Hnone|(t0 & Ht0 & Hone)].
    - left. split; [done|].
      rewrite (stored_timestamp_no_file _ _ Hnone) in Hstored.
      injection Hstored as <-. split; [|by apply Hfalsy].
      destruct (fs !! _get_path res_id t) as [old|] eqn:Hold; [|done].
      assert (_get_path res_id t ∈ resource_files fs res_id) as Hin.
      { apply glob_elem_of. split; [by exists old|].
        by apply glob_match_get_path. }
      rewrite Hnone in Hin. by apply elem_of_nil in Hin.
    - right.
      assert (stored = Some t0) as ->.
      { unfold stored_timestamp in Hstored.
        rewrite (read_timestamp_micros_get_path _ _ _ Hone) in Hstored.
        by injection Hstored. }
      assert (t = t0) as ->.
      { assert (Some t0 = Some t) as [= ->]; [|done].
        apply Htruthy. simpl. by apply negb_true_iff, Z.eqb_neq. }
      split; [done|]. split; [done|].
      assert (_get_path res_id t0 ∈ resource_files fs res_id) as Hin
        by (rewrite Hone; by left).
      by apply glob_elem_of in Hin as [? _]. }
  assert (resource_files fs' res_id = [_get_path res_id t]) as Hafter.
  { apply Permutation_singleton_r. unfold resource_files. rewrite Hfs.
    destruct Hcases as [(Hnone & Hnew & _)|(_ & Hone & Hold)].
    - rewrite glob_write_file_new by done.
      rewrite glob_match_get_path by done.
      fold (resource_files fs res_id). by rewrite Hnone.
    - rewrite glob_write_file_existing by done.
      fold (resource_files fs res_id). by rewrite Hone. }
  split; [done|]. split; [|split].
  - intros Hnone. destruct Hcases as [(_ & ? & ?)|(_ & Hone & _)]; [done|].
    by rewrite Hnone in Hone.
  - intros t0 Ht0 Hone.
    destruct Hcases as [(Hnone & _)|(_ & Hone' & Hold)].
    + by rewrite Hnone in Hone.
    + rewrite Hone in Hone'. injection Hone' as Heq.
      apply get_path_inj in Heq as <-. split; [done|].
      rewrite Hfs. unfold FileSystem.write_file. rewrite dom_insert_L.
      apply subseteq_union_1_L, singleton_subseteq_l. by apply elem_of_dom.
  - intros other Hother Hlen.
    destruct (decide (dir_prefix (str other) = dir_prefix (str res_id)))
      as [Hsame|Hdiffer].
    + rewrite (resource_files_same_dir _ _ _ Hsame), Hafter. simpl. lia.
    + assert (FileSystem.glob_match
                (OsPath.join (str other) (_RESOURCE_PREFIX +:+ "*"))
                (_get_path res_id t) = false) as Hnomatch.
      { apply not_true_is_false. by intros ?%glob_match_other_dir. }
      unfold resource_files in *. rewrite Hfs.
      destruct Hcases as [(_ & Hnew & _)|(_ & _ & Hold)].
      * rewrite glob_write_file_new by done. by rewrite Hnomatch.
      * by rewrite glob_write_file_existing.
Qed.

End one_file.




(** * Further properties of the data store *)

(** ** Tokens *)

Lemma split_length c s : length (PyStr.split c s) = S (count_char c s).
Proof.
  induction s as [|a s IH]; [done|]. simpl.
  destruct (Ascii.eqb a c); simpl; [by rewrite IH|].
  destruct (PyStr.split c s) as [|piece rest]; [done|]. simpl in *. done.
Qed.

Lemma split_one c s b :
  PyStr.split c s = [b] → s = b ∧ PyStr.contains c b = false.
Proof.
  revert b. induction s as [|x s IH]; intros b; simpl.
  - by intros [= <-].
  - destruct (Ascii.eqb x c) eqn:Hx.
    + intros [= <- Hnil]. pose proof (split_length c s) as Hlen.
      by rewrite Hnil in Hlen.
    + pose proof (split_length c s) as Hlen.
      destruct (PyStr.split c s) as [|piece rest] eqn:Hs; [done|].
      intros [= <- ->]. destruct (IH piece eq_refl) as [-> Hb].
      split; [done|]. simpl. by rewrite Hx.
Qed.

Lemma split_two c s a b :
  PyStr.split c s = [a; b] →
  s = a +:+ String c b
  ∧ PyStr.contains c a = false ∧ PyStr.contains c b = false.
Proof.
  revert a. induction s as [|x s IH]; intros a; [done|]. simpl.
  destruct (Ascii.eqb x c) eqn:Hx.
  - intros [= <- Hrest]. apply Ascii.eqb_eq in Hx as ->.
    by destruct (split_one _ _ _ Hrest) as [-> Hb].
  - pose proof (split_length c s) as Hlen.
    destruct (PyStr.split c s) as [|piece rest] eqn:Hs; [done|].
    intros [= <- ->]. destruct (IH piece eq_refl) as (-> & Ha & Hb).
    split; [done|]. split; [|done]. simpl. by rewrite Hx.
Qed.

(** X1: a token decodes to the timestamp and identifier it was encoded from,
    whenever the identifier contains no colon. *)
Theorem token_round_trip t res_id :
  PyStr.contains PyStr.colon res_id = false →
  _decode_token (Some (_encode_token t res_id)) = Ok (t, res_id).
Proof. apply decode_encode_token. Qed.

Lemma token_round_trip_witness :
  _decode_token (Some (_encode_token (-12) "projects/p1/brains/b1"))
  = Ok (-12, "projects/p1/brains/b1").
Proof. apply token_round_trip. reflexivity. Defined.

(** X2: [_decode_token] rejects a token as invalid exactly when it does not
    contain one colon; with one colon it fails only if the part before it is
    not an integer, and what it returns is that integer and the part after
    the colon, in which no colon is left. *)
Theorem decode_token_errors token :
  (_decode_token (Some token) = Raise (ValueError InvalidToken)
   ↔ count_char PyStr.colon token ≠ 1%nat)
  ∧ (∀ e, _decode_token (Some token) = Raise e →
          e = ValueError InvalidToken ∨ e = ValueError InvalidIntLiteral)
  ∧ ∀ t res_id,
      _decode_token (Some token) = Ok (t, res_id) →
      ∃ numeral,
        token = numeral +:+ String PyStr.colon res_id
        ∧ PyStr.int numeral = Ok t
        ∧ PyStr.contains PyStr.colon res_id = false.
Proof.
  unfold _decode_token.
  pose proof (split_length PyStr.colon token) as Hlen.
  destruct (PyStr.split PyStr.colon token) as [|a [|b [|c rest]]] eqn:Hsplit;
    simpl in Hlen.
  - done.
  - split; [|split]; [split; [intros _; lia|done]|intros e [= <-]; by left|done].
  - destruct (split_two _ _ _ _ Hsplit) as (Htoken & Ha & Hb).
    destruct (PyStr.int a) as [n|e] eqn:Hint; simpl.
    + split; [|split]; [split; [done|lia]|done|].
      intros t res_id [= <- <-]. by exists a.
    + apply int_raises in Hint as ->.
      split; [|split]; [split; [done|lia]|intros e [= <-]; by right|done].
  - split; [|split]; [split; [intros _; lia|done]|intros e [= <-]; by left|done].
Qed.

Lemma decode_token_errors_witness :
  ∃ numeral,
    "+7:projects/p1" = numeral +:+ String PyStr.colon "projects/p1"
    ∧ PyStr.int numeral = Ok 7
    ∧ PyStr.contains PyStr.colon "projects/p1" = false.
Proof.
  apply (proj2 (proj2 (decode_token_errors "+7:projects/p1"))).
  reflexivity.
Defined.

(** ** The encoder and the resolver *)

Lemma get_proto_type_supported res_id ty :
  _get_proto_type res_id = Ok ty →
  ∃ collection_id,
    parts res_id !! (length (parts res_id) - 2)%nat = Some collection_id
    ∧ (collection_id, ty) ∈ _PROTO_BY_COLLECTION_ID.
Proof.
  unfold _get_proto_type. case_bool_decide; [done|].
  destruct (parts res_id !! _) as [collection_id|]; [|done].
  destruct (Dict.get _ _) as [ty'|] eqn:Hget; [|done].
  intros [= <-]. exists collection_id. split; [done|].
  revert Hget. generalize _PROTO_BY_COLLECTION_ID.
  induction l as [|[k v] l IH]; simpl; [done|].
  destruct (String.eqb_spec k collection_id) as [->|_].
  - intros [= ->]. by left.
  - intros ?%IH. by right.
Qed.

(** X3: the encoder refuses what does not belong to the collection.  A
    record is serialised exactly when its type is the one registered for the
    second-to-last part of the identifier; an identifier with fewer than two
    parts fails the assertion, an unregistered collection and a record of
    another type raise their own errors, and the decoder fails on the
    identifier in the same way before it looks at the bytes. *)
Theorem encode_resource_type_check `{codec : ProtoCodec} res_id resource :
  (∀ data,
     encode_resource res_id resource = Ok data
     ↔ _get_proto_type res_id = Ok (type_of resource)
       ∧ data = SerializeToString resource)
  ∧ ((length (parts res_id) < 2)%nat →
     encode_resource res_id resource = Raise AssertionError)
  ∧ (∀ ty, _get_proto_type res_id = Ok ty → type_of resource ≠ ty →
           encode_resource res_id resource = Raise (ValueError WrongResourceType))
  ∧ (∀ e data, _get_proto_type res_id = Raise e →
               encode_resource res_id resource = Raise e
               ∧ decode_resource res_id data = Raise e)
  ∧ ∀ ty, _get_proto_type res_id = Ok ty → ∀ name, ty ≠ OtherType name.
Proof.
  split; [|split; [|split; [|split]]].
  - intros data. unfold encode_resource.
    destruct (_get_proto_type res_id) as [ty|e]; simpl.
    + case_bool_decide as Hty.
      * split; [intros [= <-]; by rewrite Hty|by intros [_ ->]].
      * split; [done|]. intros [[= ->] _]. done.
    + split; [done|]. by intros [? _].
  - intros Hshort. unfold encode_resource, _get_proto_type.
    by rewrite bool_decide_eq_true_2.
  - intros ty Hty Hne. unfold encode_resource. rewrite Hty. simpl.
    by rewrite bool_decide_eq_false_2.
  - intros e data He. unfold encode_resource, decode_resource.
    by rewrite He.
  - intros ty Hty name ->.
    apply get_proto_type_supported in Hty as (collection_id & _ & Hin).
    unfold _PROTO_BY_COLLECTION_ID in Hin.
    repeat (apply elem_of_cons in Hin as [Hin|Hin]; [done|]).
    by apply elem_of_nil in Hin.
Qed.

Lemma encode_resource_type_check_witness :
  encode_resource (codec := BinaryCodec.codec) id_of_brain_b1 (project_p1 0)
  = Raise (ValueError WrongResourceType).
Proof.
  apply (proj1 (proj2 (proj2 (encode_resource_type_check
                                (codec := BinaryCodec.codec)
                                id_of_brain_b1 (project_p1 0)))) Brain).
  - reflexivity.
  - discriminate.
Defined.

(** The identifier does not depend on the timestamp. *)
Lemma to_resource_id_set_timestamp resource t :
  to_resource_id (set_timestamp_micros resource t) = to_resource_id resource.
Proof.
  unfold to_resource_id. simpl.
  destruct (_KEY_FIELD_MAP (type_of resource)) as [field_map|]; [|done].
  do 2 f_equal. generalize (@nil (string * string)).
  induction field_map as [|[f a] field_map IH]; intros acc; [done|].
  simpl. by rewrite IH.
Qed.

(** X5: file names and timestamps.  The timestamp read from the path the
    store derives for a timestamp is that timestamp, for every integer,
    negative or longer than sixteen digits; so different timestamps give
    different paths. *)
Theorem timestamp_of_path_round_trip res_id t :
  timestamp_of_file (_get_path res_id t) = Ok t
  ∧ OsPath.basename (_get_path res_id t) = _get_filename t
  ∧ ∀ t', t ≠ t' → _get_path res_id t ≠ _get_path res_id t'.
Proof.
  split; [apply timestamp_of_get_path|]. split.
  - unfold _get_path. rewrite join_dir_prefix by done.
    by destruct (head_basename_app (dir_prefix (str res_id)) (_get_filename t))
      as [_ ->]; [apply dir_prefix_shape|apply filename_no_slash|].
  - intros t' Hne Heq. by apply Hne, (get_path_inj res_id).
Qed.

Lemma timestamp_of_path_round_trip_witness :
  _get_path id_of_brain_b1 17 ≠ _get_path id_of_brain_b1 (-17).
Proof.
  apply (proj2 (proj2 (timestamp_of_path_round_trip id_of_brain_b1 17)) (-17)).
  lia.
Defined.

(** ** What [write] stores *)

Section write_store.
Context `{codec : ProtoCodec}.

(** The file a successful [write] writes: at the path of the timestamp the
    record carries afterwards, holding that record's serialisation. *)
Lemma write_success_data fs now resource res_id :
  returned (write fs now resource) = Ok res_id →
  to_resource_id resource = Ok res_id
  ∧ fs_after (write fs now resource)
    = FileSystem.write_file fs
        (_get_path res_id (created_micros (resource_after (write fs now resource))))
        (SerializeToString (resource_after (write fs now resource))).
Proof.
  destruct (to_resource_id resource) as [res_id'|e] eqn:Hid.
  2: { unfold write. by rewrite Hid. }
  pose proof (to_resource_id_proto_type _ _ Hid) as Hty.
  assert (∀ r t,
    type_of r = type_of resource → created_micros r = t →
    returned (write_encoded fs res_id' r t) = Ok res_id →
    Ok res_id' = Ok res_id
    ∧ fs_after (write_encoded fs res_id' r t)
      = FileSystem.write_file fs
          (_get_path res_id
             (created_micros (resource_after (write_encoded fs res_id' r t))))
          (SerializeToString (resource_after (write_encoded fs res_id' r t))))
    as Hencoded.
  { intros r t Hr Ht. rewrite write_encoded_resource_after.
    unfold write_encoded, encode_resource. rewrite Hty. simpl.
    rewrite bool_decide_eq_true_2 by done. simpl.
    intros [= ->]. by rewrite Ht. }
  rewrite (write_unfold _ _ _ res_id') by done.
  destruct (stored_timestamp fs res_id') as [stored|e]; [|done].
  case_bool_decide as Hcreated.
  - cbv zeta. by apply Hencoded.
  - destruct (truthy_int stored && _); [done|]. by apply Hencoded.
Qed.

(** What a failed [write] raised, and that it wrote nothing. *)
Lemma write_failure fs now resource e :
  returned (write fs now resource) = Raise e →
  fs_after (write fs now resource) = fs
  ∧ ((e = ValueError NotAValidResourceType
      ∧ _KEY_FIELD_MAP (type_of resource) = None)
     ∨ ((e = InternalError ∨ e = ValueError DifferentTimestamp)
        ∧ is_Some (_KEY_FIELD_MAP (type_of resource)))).
Proof.
  destruct (to_resource_id resource) as [res_id|e'] eqn:Hid.
  2: { unfold write. rewrite Hid. simpl. intros [= <-]. split; [done|].
       left. unfold to_resource_id in Hid.
       destruct (_KEY_FIELD_MAP _); [done|]. by injection Hid as <-. }
  assert (is_Some (_KEY_FIELD_MAP (type_of resource))) as Hmap.
  { unfold to_resource_id in Hid. by destruct (_KEY_FIELD_MAP _). }
  pose proof (to_resource_id_proto_type _ _ Hid) as Hty.
  assert (∀ r t, type_of r = type_of resource →
                 returned (write_encoded fs res_id r t) ≠ Raise e)
    as Hencoded.
  { intros r t Hr. unfold write_encoded, encode_resource.
    rewrite Hty. simpl. by rewrite bool_decide_eq_true_2. }
  rewrite (write_unfold _ _ _ res_id) by done.
  destruct (stored_timestamp fs res_id) as [stored|e'] eqn:Hstored.
  - case_bool_decide as Hcreated.
    + cbv zeta. intros Hr. by apply Hencoded in Hr.
    + destruct (truthy_int stored && _).
      * simpl. intros [= <-]. auto.
      * intros Hr. by apply Hencoded in Hr.
  - simpl. intros [= <-]. split; [done|].
    apply stored_timestamp_raises in Hstored. auto.
Qed.

(** [write] never changes the type of the caller's record. *)
Lemma write_resource_after_type fs now resource :
  type_of (resource_after (write fs now resource)) = type_of resource.
Proof.
  unfold write.
  destruct (to_resource_id resource) as [res_id|]; [|done].
  destruct (stored_timestamp fs res_id) as [stored|]; [|done].
  destruct (negb _); [by rewrite write_encoded_resource_after|].
  destruct (truthy_int stored && _); [done|].
  by rewrite write_encoded_resource_after.
Qed.

End write_store.

(** X6: what is written can be read back.  Let the directory of the record's
    identifier hold no [resource.*] file, or exactly one, named by the store
    with a non-zero timestamp, and let the codec return a message from its
    own serialisation.  Then after a successful [write], [read] of the
    returned identifier returns the record as [write] left it, timestamp
    included. *)
Theorem write_then_read `{codec : ProtoCodec} `{!ProtoCodecLaws}
  fs now resource res_id :
  returned (write fs now resource) = Ok res_id →
  literal (str res_id) →
  (resource_files fs res_id = []
   ∨ ∃ t0, t0 ≠ 0 ∧ resource_files fs res_id = [_get_path res_id t0]) →
  read (fs_after (write fs now resource)) res_id
  = Ok (resource_after (write fs now resource)).
Proof.
  intros Hok Hliteral Hbefore.
  destruct (write_single_file _ _ _ _ Hok Hliteral Hbefore) as [Hfiles _].
  apply read_timestamp_micros_get_path in Hfiles.
  rewrite (read_with_timestamp _ _ _ Hfiles).
  destruct (write_success_data _ _ _ _ Hok) as [Hid Hfs].
  rewrite Hfs at 1. unfold FileSystem.write_file. rewrite lookup_insert_eq.
  unfold decode_resource.
  assert (_get_proto_type res_id
          = Ok (type_of (resource_after (write fs now resource)))) as ->.
  { rewrite write_resource_after_type.
    by apply to_resource_id_proto_type. }
  simpl. by rewrite FromString_SerializeToString.
Qed.

Lemma write_then_read_witness :
  read (codec := BinaryCodec.codec)
    (fs_after (write (codec := BinaryCodec.codec) three_brains 77 (project_p1 0)))
    id_of_project_p1
  = Ok (project_p1 77).
Proof.
  apply (write_then_read (codec := BinaryCodec.codec)
           three_brains 77 (project_p1 0) id_of_project_p1).
  - reflexivity.
  - split; reflexivity.
  - left. reflexivity.
Defined.

(** X7: a [write] that fails leaves the store as it was, and fails in one of
    three ways only: the record's type has no key fields, the identifier's
    directory holds several files or a file whose name is no timestamp, or the
    record's timestamp differs from the stored one.  The encoder never
    rejects the record, since the identifier is derived from the record's own
    type. *)
Theorem write_failure_effect `{codec : ProtoCodec} fs now resource e :
  returned (write fs now resource) = Raise e →
  fs_after (write fs now resource) = fs
  ∧ (e = ValueError NotAValidResourceType ∨ e = InternalError
     ∨ e = ValueError DifferentTimestamp)
  ∧ (e = ValueError NotAValidResourceType
     ↔ _KEY_FIELD_MAP (type_of resource) = None).
Proof.
  intros Hraise.
  destruct (write_failure _ _ _ _ Hraise)
    as [Hfs [[-> Hmap]|[He [field_map Hmap]]]].
  - split; [done|]. split; [by left|done].
  - split; [done|]. split; [tauto|]. rewrite Hmap.
    split; [|done]. by destruct He as [-> | ->].
Qed.

Lemma write_failure_effect_witness :
  fs_after (write (codec := BinaryCodec.codec) three_brains 77
              (new_resource Brain 5 [("project_id", "p1"); ("brain_id", "b1")]))
  = three_brains.
Proof.
  apply (write_failure_effect (codec := BinaryCodec.codec) three_brains 77
           (new_resource Brain 5 [("project_id", "p1"); ("brain_id", "b1")])
           (ValueError DifferentTimestamp)).
  reflexivity.
Defined.

(** X8: a [write] that succeeds changes one file and nothing else.  The
    identifier returned is the one the resolver derives; the file at the path
    of that identifier and of the timestamp the record carries afterwards
    holds the record's serialisation; every other path of the store is as it
    was. *)
Theorem write_success_effect `{codec : ProtoCodec} fs now resource res_id :
  returned (write fs now resource) = Ok res_id →
  let out := write fs now resource in
  let path := _get_path res_id (created_micros (resource_after out)) in
  to_resource_id resource = Ok res_id
  ∧ fs_after out !! path = Some (SerializeToString (resource_after out))
  ∧ (∀ other, other ≠ path → fs_after out !! other = fs !! other)
  ∧ dom fs ⊆ dom (fs_after out).
Proof.
  intros Hok out path.
  destruct (write_success_data _ _ _ _ Hok) as [Hid Hfs].
  fold out in Hfs. fold path in Hfs. rewrite Hfs.
  unfold FileSystem.write_file.
  split; [done|]. split; [apply lookup_insert_eq|]. split.
  - intros other Hother. by rewrite lookup_insert_ne.
  - rewrite dom_insert. set_solver.
Qed.

Lemma write_success_effect_witness :
  fs_after (write (codec := BinaryCodec.codec) three_brains 77 (project_p1 0))
  !! "projects/p1/brains/b1/resource.0000000000000010"
  = three_brains !! "projects/p1/brains/b1/resource.0000000000000010".
Proof.
  apply (write_success_effect (codec := BinaryCodec.codec)
           three_brains 77 (project_p1 0) id_of_project_p1).
  - reflexivity.
  - discriminate.
Defined.

(** X9: writing again what was written changes nothing.  After a successful
    [write] under the conditions of the round trip that left the record with
    a non-zero timestamp, a second [write] of that record, at any later
    time, succeeds and leaves the record and the whole store, contents
    included, as they are. *)
Theorem write_again_no_change `{codec : ProtoCodec} fs now now2 resource res_id :
  returned (write fs now resource) = Ok res_id →
  literal (str res_id) →
  (resource_files fs res_id = []
   ∨ ∃ t0, t0 ≠ 0 ∧ resource_files fs res_id = [_get_path res_id t0]) →
  created_micros (resource_after (write fs now resource)) ≠ 0 →
  let out := write fs now resource in
  let out2 := write (fs_after out) now2 (resource_after out) in
  returned out2 = Ok res_id
  ∧ resource_after out2 = resource_after out
  ∧ fs_after out2 = fs_after out.
Proof.
  intros Hok Hliteral Hbefore Hnonzero out out2.
  destruct (write_single_file _ _ _ _ Hok Hliteral Hbefore) as [Hfiles _].
  apply read_timestamp_micros_get_path, stored_timestamp_some in Hfiles.
  destruct (write_success_data _ _ _ _ Hok) as [Hid Hfs].
  fold out in Hfiles, Hfs, Hnonzero.
  assert (resource_after out
          = set_timestamp_micros resource (created_micros (resource_after out)))
    as Hshape.
  { subst out. rewrite (write_unfold _ _ _ _ Hid).
    destruct (stored_timestamp fs res_id) as [stored|]; [|by destruct resource].
    case_bool_decide; [by rewrite write_encoded_resource_after|].
    destruct (truthy_int stored && _); [by destruct resource|].
    rewrite write_encoded_resource_after. by destruct resource. }
  assert (to_resource_id (resource_after out) = Ok res_id) as Hid'.
  { rewrite Hshape. by rewrite to_resource_id_set_timestamp. }
  subst out2. rewrite (write_unfold _ _ _ _ Hid'), Hfiles.
  rewrite bool_decide_eq_false_2 by done.
  rewrite bool_decide_eq_true_2 by done. rewrite andb_false_r.
  unfold write_encoded, encode_resource.
  rewrite (to_resource_id_proto_type _ _ Hid'). simpl.
  rewrite bool_decide_eq_true_2 by done. simpl.
  split; [done|]. split; [done|].
  rewrite Hfs. unfold FileSystem.write_file. apply insert_insert_eq.
Qed.

Lemma write_again_no_change_witness :
  fs_after
    (write (codec := BinaryCodec.codec)
       (fs_after (write (codec := BinaryCodec.codec) three_brains 77 (project_p1 0)))
       99
       (resource_after
          (write (codec := BinaryCodec.codec) three_brains 77 (project_p1 0))))
  = fs_after (write (codec := BinaryCodec.codec) three_brains 77 (project_p1 0)).
Proof.
  refine (proj2 (proj2 (write_again_no_change (codec := BinaryCodec.codec)
                          three_brains 77 99 (project_p1 0) id_of_project_p1
                          _ _ _ _))).
  - reflexivity.
  - split; reflexivity.
  - left. reflexivity.
  - vm_compute. discriminate.
Defined.

(** ** One page of [list] *)

(** What the loop skips is closed downwards in the canonical order. *)
Lemma skipped_down_closed cm tid a b :
  entry_le a b → skipped cm tid b = true → skipped cm tid a = true.
Proof.
  destruct (truthy_str tid) eqn:Htid.
  - assert (∀ e, skipped cm tid e = entry_leb e (cm, default EmptyString tid))
      as Hskip.
    { intros e. unfold skipped, entry_leb. simpl. by rewrite Htid, andb_true_r. }
    rewrite !Hskip. intros Hab Hb%Is_true_true. apply Is_true_true.
    change (entry_le a (cm, default EmptyString tid)). by etrans.
  - unfold skipped. rewrite Htid, !andb_false_r, !orb_false_r.
    intros Hab%entry_le_spec Hb%Z.ltb_lt. apply Z.ltb_lt. lia.
Qed.

(** A page of a sorted listing, and the token that comes with it. *)
Lemma list_page_sorted entries m tok cm tid (k : nat) :
  StronglySorted entry_le entries →
  page_bounds m tok = Ok (cm, tid) →
  (1 ≤ k)%nat →
  let remaining := filter (λ e, skipped cm tid e = false) entries in
  list_page entries m tok (Some (Z.of_nat k))
  = Ok ((take k remaining).*2,
        if decide (length remaining ≤ k)%nat then EmptyString
        else match last (take k remaining) with
             | Some e => _encode_token e.1 e.2
             | None => EmptyString
             end).
Proof.
  intros Hsorted Hbounds Hk remaining.
  destruct (strongly_sorted_partition (skipped cm tid) entries)
    as (below & Hsplit & Hbelow); [done|apply skipped_down_closed|].
  fold remaining in Hsplit. rewrite Hsplit at 1.
  apply (list_page_split below remaining m tok cm tid k); [done..| |done].
  apply Forall_filter_self.
Qed.

(** X10: one page of [list] and its token.  With a page size [k >= 1] the
    page holds the first [k] of the entries that remain, that is of the
    entries at or above the lower bound and past the token, in ascending
    order.  The token returned is empty exactly when no entry remains after
    the page, also when the page is full; otherwise it is made of the
    timestamp and the identifier of the last entry of the page. *)
Theorem list_page_and_token fs res_id_glob m tok (k : nat) entries cm tid :
  by_timestamp fs res_id_glob = Ok entries →
  page_bounds m tok = Ok (cm, tid) →
  (1 ≤ k)%nat →
  let remaining := filter (λ e, skipped cm tid e = false) entries in
  ∃ next_token,
    list_ fs res_id_glob m tok (Some (Z.of_nat k))
    = Ok ((take k remaining).*2, next_token)
    ∧ (next_token = EmptyString ↔ (length remaining ≤ k)%nat)
    ∧ ((k < length remaining)%nat →
       ∃ e, remaining !! (k - 1)%nat = Some e
            ∧ next_token = _encode_token e.1 e.2).
Proof.
  intros Hentries Hbounds Hk remaining.
  pose proof (by_timestamp_sorted _ _ _ Hentries) as Hsorted.
  unfold list_. rewrite Hentries. simpl.
  rewrite (list_page_sorted _ _ _ cm tid) by done. fold remaining.
  eexists. split; [done|].
  destruct (decide (length remaining ≤ k)%nat) as [Hfits|Hfits].
  - split; [done|lia].
  - assert (is_Some (remaining !! (k - 1)%nat)) as [e He]
      by (apply lookup_lt_is_Some; lia).
    assert (last (take k remaining) = Some e) as ->.
    { rewrite last_lookup, length_take, lookup_take_lt by lia.
      rewrite <-He. f_equal. lia. }
    split.
    + split; [|lia]. intros Hempty.
      pose proof (encode_token_nonempty e.1 e.2) as Hne.
      by rewrite Hempty in Hne.
    + intros _. by exists e.
Qed.

Lemma list_page_and_token_witness :
  ∃ next_token,
    list_ five_brains brains_of_p1 2 None (Some 2)
    = Ok (["projects/p1/brains/b2"; "projects/p1/brains/b3"], next_token)
    ∧ (next_token = EmptyString ↔ (4 ≤ 2)%nat)
    ∧ ((2 < 4)%nat →
       ∃ e, [(2, "projects/p1/brains/b2"); (3, "projects/p1/brains/b3");
             (4, "projects/p1/brains/b4"); (5, "projects/p1/brains/b5")]
            !! 1%nat = Some e
            ∧ next_token = _encode_token e.1 e.2).
Proof.
  apply (list_page_and_token five_brains brains_of_p1 2 None 2
           [(1, "projects/p1/brains/b1"); (2, "projects/p1/brains/b2");
            (3, "projects/p1/brains/b3"); (4, "projects/p1/brains/b4");
            (5, "projects/p1/brains/b5")]
           2 None).
  - vm_compute. reflexivity.
  - reflexivity.
  - lia.
Defined.

(** ** Resuming from a token *)

Lemma page_bounds_token m t res_id :
  PyStr.contains PyStr.colon res_id = false →
  page_bounds m (Some (_encode_token t res_id))
  = Ok (Z.max t m, Some res_id).
Proof.
  intros Hcolon. unfold page_bounds.
  assert (truthy_str (Some (_encode_token t res_id)) = true) as ->.
  { simpl. unfold PyStr.truthy. by rewrite encode_token_nonempty. }
  by rewrite decode_encode_token by done.
Qed.

(** The one page of a call without a page size. *)
Lemma list_page_unbounded entries m tok ps cm tid :
  page_bounds m tok = Ok (cm, tid) →
  unbounded ps →
  list_page entries m tok ps
  = Ok ((filter (λ e, skipped cm tid e = false) entries).*2, EmptyString).
Proof.
  intros Hbounds Hps.
  rewrite (list_page_unfold _ _ _ _ cm tid) by done. cbv zeta.
  rewrite list_loop_unbounded by done.
  destruct (list_loop_all cm tid entries 0 initial_loop_state) as [-> ->].
  simpl. replace (_ =? _) with true; [done|].
  symmetry. apply Z.eqb_eq. case_decide as Hnil; [|lia]. by rewrite Hnil.
Qed.

(** X11: a token is a position in the canonical order, not in a listing.
    Called with the token made of a timestamp [t] and a non-empty identifier
    without a colon, [list] returns, in ascending order, the entries of the
    store as it is now that lie strictly after the pair of the larger of [t]
    and the lower bound, and the identifier: all of them without a page
    size, the first [k] with a page size [k >= 1].  Whatever was added to or
    removed from the store since the token was issued, no entry at or before
    that position is returned and none after it is left out. *)
Theorem list_after_token fs res_id_glob m t res_id entries :
  by_timestamp fs res_id_glob = Ok entries →
  res_id ≠ EmptyString →
  PyStr.contains PyStr.colon res_id = false →
  let token := Some (_encode_token t res_id) in
  let after := filter (λ e, ¬ entry_le e (Z.max t m, res_id)) entries in
  (∀ ps, unbounded ps →
         list_ fs res_id_glob m token ps = Ok (after.*2, EmptyString))
  ∧ (∀ k : nat, (1 ≤ k)%nat →
       ∃ next_token,
         list_ fs res_id_glob m token (Some (Z.of_nat k))
         = Ok ((take k after).*2, next_token))
  ∧ StronglySorted entry_le after.
Proof.
  intros Hentries Hne Hcolon token after. subst token.
  pose proof (by_timestamp_sorted _ _ _ Hentries) as Hsorted.
  pose proof (page_bounds_token m t res_id Hcolon) as Hbounds.
  assert (filter (λ e, skipped (Z.max t m) (Some res_id) e = false) entries
          = after) as Hafter.
  { apply list_filter_iff. intros e.
    pose proof (skipped_cursor (Z.max t m, res_id) e Hne) as Hskip.
    simpl in Hskip. rewrite Hskip.
    unfold entry_le. by rewrite <-Is_true_false. }
  split; [|split].
  - intros ps Hps. rewrite (list_with_entries _ _ _ _ Hentries).
    by rewrite (list_page_unbounded _ _ _ _ _ _ Hbounds Hps), Hafter.
  - intros k Hk. rewrite (list_with_entries _ _ _ _ Hentries).
    rewrite (list_page_sorted _ _ _ _ _ _ Hsorted Hbounds Hk), Hafter.
    by eexists.
  - by apply strongly_sorted_filter.
Qed.

Lemma list_after_token_witness :
  list_ three_brains brains_of_p1 0 (Some "20:projects/p1/brains/b2") None
  = Ok (["projects/p1/brains/b3"], EmptyString).
Proof.
  apply (proj1 (list_after_token three_brains brains_of_p1 0 20
                  "projects/p1/brains/b2"
                  [(10, "projects/p1/brains/b1"); (20, "projects/p1/brains/b2");
                   (30, "projects/p1/brains/b3")]
                  ltac:(vm_compute; reflexivity) ltac:(discriminate)
                  ltac:(reflexivity)) None).
  exact I.
Defined.

(** ** What [list] raises *)

Lemma mapM_raises_elem_of {A B} (f : A → result B) l x e :
  x ∈ l → f x = Raise e → ∃ e', mapM f l = Raise e'.
Proof.
  intros Hx Hfx. destruct (mapM f l) as [k|e'] eqn:HmapM; [|by eexists].
  apply mapM_Ok in HmapM.
  apply list_elem_of_lookup in Hx as [i Hi].
  destruct (Forall2_lookup_l _ _ _ _ _ HmapM Hi) as (y & _ & Hy).
  congruence.
Qed.

Lemma mapM_all_Ok {A B} (f : A → result B) l :
  (∀ x, x ∈ l → ∃ y, f x = Ok y) → ∃ k, mapM f l = Ok k.
Proof.
  intros Hall. destruct (mapM f l) as [k|e] eqn:HmapM; [by eexists|].
  apply mapM_raises in HmapM as (x & Hx & Hfx).
  destruct (Hall x Hx) as [y Hy]. congruence.
Qed.

(** Once the bounds are known, the rest of [list] cannot fail. *)
Lemma list_page_returns entries m tok ps cm tid :
  page_bounds m tok = Ok (cm, tid) →
  ∃ listed, list_page entries m tok ps = Ok listed.
Proof.
  intros Hbounds.
  rewrite (list_page_unfold _ _ _ _ cm tid) by done. cbv zeta.
  pose proof (list_loop_empty_page_read_all cm tid ps entries) as Hall.
  cbv zeta in Hall.
  destruct (Z.eqb_spec
    (last_read_index (list_loop cm tid ps 0 entries initial_loop_state))
    (Z.of_nat (length entries) - 1)) as [Heq|Hne]; [by eexists|].
  destruct (last _) as [res_id|] eqn:Hlast; [by eexists|].
  apply last_None in Hlast. by apply Hall in Hlast.
Qed.

(** X12: the failures of [list].  If a matched file has a name that is not
    nine characters followed by an integer, [list] raises the [ValueError] of
    [int], whatever the token.  If every matched file has such a name, [list]
    fails exactly when a non-empty token does, with the error of
    [_decode_token].  Nothing else is ever raised, and an empty token is
    the same as no token. *)
Theorem list_raises_only fs res_id_glob m tok ps :
  let files := FileSystem.glob fs (OsPath.join (str res_id_glob) "*") in
  ((∃ file e, file ∈ files ∧ timestamp_of_file file = Raise e) →
   list_ fs res_id_glob m tok ps = Raise (ValueError InvalidIntLiteral))
  ∧ ((∀ file, file ∈ files → ∃ t, timestamp_of_file file = Ok t) →
     ∀ e, list_ fs res_id_glob m tok ps = Raise e
          ↔ truthy_str tok = true ∧ _decode_token tok = Raise e)
  ∧ (∀ e, list_ fs res_id_glob m tok ps = Raise e →
          e = ValueError InvalidIntLiteral ∨ e = ValueError InvalidToken)
  ∧ list_ fs res_id_glob m (Some EmptyString) ps
    = list_ fs res_id_glob m None ps.
Proof.
  intros files.
  assert (∀ e, page_bounds m tok = Raise e
               ↔ truthy_str tok = true ∧ _decode_token tok = Raise e)
    as Hbounds_raise.
  { intros e. unfold page_bounds.
    destruct (truthy_str tok); [|split; [done|by intros [? _]]].
    destruct (_decode_token tok) as [decoded|e']; simpl.
    - split; [done|by intros [_ ?]].
    - split; [by intros [= ->]|by intros [_ [= ->]]]. }
  assert (∀ entries e,
            list_page entries m tok ps = Raise e ↔ page_bounds m tok = Raise e)
    as Hpage.
  { intros entries e.
    destruct (page_bounds m tok) as [[cm tid]|e'] eqn:Hbounds.
    - destruct (list_page_returns entries m tok ps cm tid Hbounds) as [? ->].
      split; intros ?; discriminate.
    - unfold list_page. rewrite Hbounds. simpl. split; by intros [= ->]. }
  split; [|split; [|split]].
  - intros (file & e & Hfile & Hraise). unfold list_, by_timestamp.
    destruct (mapM_raises_elem_of timestamp_of_file files file e Hfile Hraise)
      as [e' HmapM].
    fold files. rewrite HmapM. simpl.
    apply mapM_raises in HmapM as (file' & _ & Hfile').
    by apply timestamp_of_file_raises in Hfile' as ->.
  - intros Hall e. rewrite <-Hbounds_raise, <-(Hpage []).
    destruct (mapM_all_Ok timestamp_of_file files Hall) as [ts Hts].
    unfold list_, by_timestamp. fold files. rewrite Hts. simpl.
    by rewrite !Hpage.
  - intros e. unfold list_.
    destruct (by_timestamp fs res_id_glob) as [entries|e'] eqn:Hentries; simpl.
    + rewrite Hpage, Hbounds_raise. intros [_ Hdecode]. revert Hdecode.
      destruct tok as [token|]; [|done].
      intros Hdecode.
      destruct (count_char PyStr.colon token) as [|[|n]] eqn:Hcount.
      * right. revert Hdecode. unfold _decode_token.
        pose proof (split_length PyStr.colon token) as Hlen.
        rewrite Hcount in Hlen.
        destruct (PyStr.split PyStr.colon token) as [|a [|b l]]; try done.
        by intros [= <-].
      * revert Hdecode. unfold _decode_token.
        pose proof (split_length PyStr.colon token) as Hlen.
        rewrite Hcount in Hlen.
        destruct (PyStr.split PyStr.colon token) as [|a [|b [|c l]]]; try done.
        destruct (PyStr.int a) as [n|e''] eqn:Hint; simpl; [done|].
        intros [= <-]. left. by apply int_raises in Hint.
      * right. revert Hdecode. unfold _decode_token.
        pose proof (split_length PyStr.colon token) as Hlen.
        rewrite Hcount in Hlen.
        destruct (PyStr.split PyStr.colon token) as [|a [|b [|c l]]]; try done.
        by intros [= <-].
    + intros [= <-]. left. by apply by_timestamp_raises in Hentries.
  - done.
Qed.

Lemma list_raises_only_witness :
  list_ (store_with ["projects/p1/brains/b1/resource.x"]) brains_of_p1 0
    (Some "no colon") None
  = Raise (ValueError InvalidIntLiteral).
Proof.
  apply (proj1 (list_raises_only
                  (store_with ["projects/p1/brains/b1/resource.x"])
                  brains_of_p1 0 (Some "no colon") None)).
  exists "projects/p1/brains/b1/resource.x", (ValueError InvalidIntLiteral).
  split; [|reflexivity].
  apply glob_elem_of. split; [|reflexivity].
  exists EmptyString. reflexivity.
Defined.

(** ** Listing what was written *)

Lemma rstrip_slash_app a :
  a ≠ EmptyString → OsPath.endswith_slash a = false →
  PyStr.rstrip OsPath.is_slash (a +:+ "/") = a
  ∧ PyStr.all OsPath.is_slash (a +:+ "/") = false.
Proof.
  induction a as [|c a IH]; [done|]. intros _ Hend.
  rewrite PyStrFacts.app_cons. destruct a as [|c' a].
  - simpl in *. by rewrite Hend.
  - destruct IH as [IHstrip IHall]; [done|done|].
    change (PyStr.rstrip OsPath.is_slash (String c (String c' a +:+ "/")))
      with (if OsPath.is_slash c
               && PyStr.is_empty
                    (PyStr.rstrip OsPath.is_slash (String c' a +:+ "/"))
            then EmptyString
            else String c (PyStr.rstrip OsPath.is_slash (String c' a +:+ "/"))).
    change (PyStr.all OsPath.is_slash (String c (String c' a +:+ "/")))
      with (OsPath.is_slash c
            && PyStr.all OsPath.is_slash (String c' a +:+ "/")).
    rewrite IHstrip, IHall. simpl. by rewrite !andb_false_r.
Qed.

(** The directory of a resource file is the identifier's string. *)
Lemma dirname_get_path res_id t :
  str res_id ≠ EmptyString → OsPath.endswith_slash (str res_id) = false →
  OsPath.dirname (_get_path res_id t) = str res_id.
Proof.
  intros Hne Hend. unfold _get_path. rewrite join_dir_prefix by done.
  unfold OsPath.dirname.
  destruct (head_basename_app (dir_prefix (str res_id)) (_get_filename t))
    as [-> _]; [apply dir_prefix_shape|apply filename_no_slash|].
  unfold dir_prefix. rewrite Hend, orb_false_r.
  destruct (PyStr.is_empty (str res_id)) eqn:Hempty;
    [by destruct (str res_id)|].
  destruct (rstrip_slash_app (str res_id)) as [-> ->]; [done..|].
  assert (PyStr.truthy (str res_id +:+ "/") = true) as ->; [|done].
  destruct (str res_id); [done|]. by rewrite PyStrFacts.app_cons.
Qed.

Lemma directory_pattern res_id :
  OsPath.join (str res_id) "*" = dir_prefix (str res_id) +:+ "*".
Proof. by apply join_dir_prefix. Qed.

Lemma glob_match_directory res_id t :
  literal (str res_id) →
  FileSystem.glob_match (OsPath.join (str res_id) "*") (_get_path res_id t)
  = true.
Proof.
  intros Hliteral. rewrite directory_pattern.
  rewrite glob_match_literal_star by by apply dir_prefix_literal.
  unfold _get_path. rewrite join_dir_prefix by done.
  rewrite strip_prefix_app. by rewrite filename_no_slash.
Qed.

(** The files of an identifier are among the files of its directory. *)
Lemma resource_files_directory fs res_id :
  literal (str res_id) →
  resource_files fs res_id
  = filter (λ path, FileSystem.glob_match
                      (OsPath.join (str res_id) (_RESOURCE_PREFIX +:+ "*")) path)
      (FileSystem.glob fs (OsPath.join (str res_id) "*")).
Proof.
  intros Hliteral. unfold resource_files, FileSystem.glob.
  rewrite list_filter_filter. apply list_filter_iff. intros path.
  split; [|by intros [? _]]. intros Hmatch. split; [done|].
  apply Is_true_true in Hmatch. apply Is_true_true.
  rewrite resource_pattern in Hmatch.
  rewrite glob_match_literal_star in Hmatch
    by by apply resource_path_prefix_literal.
  destruct (FileSystem.strip_prefix _ path) as [suffix|] eqn:Hstrip; [|done].
  apply strip_prefix_Some in Hstrip as ->.
  rewrite directory_pattern.
  rewrite glob_match_literal_star by by apply dir_prefix_literal.
  unfold resource_path_prefix. rewrite PyStrFacts.app_assoc.
  rewrite strip_prefix_app.
  apply negb_true_iff in Hmatch. apply negb_true_iff.
  rewrite PyStrFacts.contains_app. by rewrite Hmatch.
Qed.

Section write_list.
Context `{codec : ProtoCodec}.

(** The directory after a successful [write] into a directory that held no
    file, or one file named by the store. *)
Lemma write_directory fs now resource res_id :
  returned (write fs now resource) = Ok res_id →
  literal (str res_id) →
  (FileSystem.glob fs (OsPath.join (str res_id) "*") = []
   ∨ ∃ t0, t0 ≠ 0 ∧ FileSystem.glob fs (OsPath.join (str res_id) "*")
                     = [_get_path res_id t0]) →
  FileSystem.glob (fs_after (write fs now resource))
    (OsPath.join (str res_id) "*")
  = [_get_path res_id (created_micros (resource_after (write fs now resource)))].
Proof.
  intros Hok Hliteral Hbefore.
  assert (resource_files fs res_id = []
          ∨ ∃ t0, t0 ≠ 0 ∧ resource_files fs res_id = [_get_path res_id t0])
    as Hfiles.
  { rewrite resource_files_directory by done.
    destruct Hbefore as [->|(t0 & Ht0 & ->)]; [by left|right].
    exists t0. split; [done|].
    rewrite filter_cons_True, filter_nil; [done|].
    apply Is_true_true. by apply glob_match_get_path. }
  destruct (write_single_file _ _ _ _ Hok Hliteral Hfiles)
    as (_ & Hnone & Hone & _).
  destruct (write_success_data _ _ _ _ Hok) as [_ ->].
  apply Permutation_singleton_r.
  destruct Hbefore as [Hempty|(t0 & Ht0 & Hsingle)].
  - destruct Hnone as [Hnew _].
    { rewrite resource_files_directory by done. by rewrite Hempty. }
    rewrite glob_write_file_new by done.
    by rewrite glob_match_directory, Hempty.
  - destruct (Hone t0) as [-> _]; [done| |].
    { rewrite resource_files_directory, Hsingle by done.
      rewrite filter_cons_True, filter_nil; [done|].
      apply Is_true_true. by apply glob_match_get_path. }
    rewrite glob_write_file_existing; [by rewrite Hsingle|].
    assert (_get_path res_id t0
            ∈ FileSystem.glob fs (OsPath.join (str res_id) "*")) as Hin
      by (rewrite Hsingle; by left).
    by apply glob_elem_of in Hin as [? _].
Qed.

End write_list.

(** X13: what was written is listed.  Let the directory of the record's
    identifier, a non-empty string not ending in a slash, hold no file, or
    one file named by the store with a non-zero timestamp.  After a
    successful [write], the listing of the identifier has one entry, the
    identifier's string with the timestamp the record carries; [list]
    returns it for every lower bound up to that timestamp and returns
    nothing above, and [_get_most_recent] returns it unless the timestamp is
    negative. *)
Theorem write_then_list `{codec : ProtoCodec} fs now resource res_id :
  returned (write fs now resource) = Ok res_id →
  literal (str res_id) →
  str res_id ≠ EmptyString →
  OsPath.endswith_slash (str res_id) = false →
  (FileSystem.glob fs (OsPath.join (str res_id) "*") = []
   ∨ ∃ t0, t0 ≠ 0 ∧ FileSystem.glob fs (OsPath.join (str res_id) "*")
                     = [_get_path res_id t0]) →
  let out := write fs now resource in
  let t' := created_micros (resource_after out) in
  by_timestamp (fs_after out) res_id = Ok [(t', str res_id)]
  ∧ (∀ m, list_ (fs_after out) res_id m None None
          = Ok (if bool_decide (m ≤ t') then [str res_id] else [],
                EmptyString))
  ∧ _get_most_recent (fs_after out) res_id
    = Ok (if bool_decide (0 ≤ t') then Some (str res_id) else None).
Proof.
  intros Hok Hliteral Hne Hend Hbefore out t'.
  assert (by_timestamp (fs_after out) res_id = Ok [(t', str res_id)])
    as Hentries.
  { unfold by_timestamp. subst out.
    rewrite (write_directory _ _ _ _ Hok Hliteral Hbefore).
    fold t'. simpl. rewrite timestamp_of_get_path. simpl.
    by rewrite dirname_get_path. }
  assert (∀ m, list_ (fs_after out) res_id m None None
               = Ok (if bool_decide (m ≤ t') then [str res_id] else [],
                     EmptyString)) as Hlist.
  { intros m. rewrite (list_unbounded _ _ _ _ Hentries).
    rewrite filter_cons, filter_nil. simpl.
    case_bool_decide; by case_decide. }
  split; [done|]. split; [done|].
  unfold _get_most_recent. rewrite Hlist. simpl.
  by case_bool_decide.
Qed.

Lemma write_then_list_witness :
  list_ (fs_after (write (codec := BinaryCodec.codec) three_brains 77
                     (project_p1 0)))
    id_of_project_p1 70 None None
  = Ok (["projects/p1"], EmptyString).
Proof.
  refine (proj1 (proj2 (write_then_list (codec := BinaryCodec.codec)
                          three_brains 77 (project_p1 0) id_of_project_p1
                          _ _ _ _ _)) 70).
  - reflexivity.
  - split; reflexivity.
  - discriminate.
  - reflexivity.
  - left. reflexivity.
Defined.

(** * Properties of the learner's storage *)

(** ** [record_evaluations] *)

Lemma getattr_setattr_ne resource field_name value other :
  field_name ≠ other →
  getattr (setattr resource field_name value) other = getattr resource other.
Proof. intros Hne. unfold getattr, setattr. simpl. by rewrite lookup_insert_ne. Qed.

Lemma getattr_setattr resource field_name value :
  getattr (setattr resource field_name value) field_name = value.
Proof. unfold getattr, setattr. simpl. by rewrite lookup_insert_eq. Qed.

Lemma evaluation_fields_created timestamp latency version_eval offline_eval :
  created_micros (evaluation_fields timestamp latency version_eval offline_eval)
  = created_micros offline_eval.
Proof. unfold evaluation_fields. by destruct latency. Qed.

Lemma evaluation_fields_of assignment model_id timestamp latency version_eval
  offline_eval :
  evaluation_of assignment model_id offline_eval →
  evaluation_of assignment model_id
    (evaluation_fields timestamp latency version_eval offline_eval)
  ∧ getattr (evaluation_fields timestamp latency version_eval offline_eval)
      "offline_evaluation_id" = version_eval.1.
Proof.
  intros (Hty & Hp & Hb & Hs & Hm). unfold evaluation_fields, evaluation_of.
  destruct latency; rewrite ?getattr_setattr_ne by done;
    rewrite ?getattr_setattr; rewrite ?getattr_setattr_ne by done; done.
Qed.

(** The identifier of the object after the assignments of an iteration. *)
Lemma to_resource_id_evaluation assignment model_id timestamp latency
  version_eval offline_eval :
  evaluation_of assignment model_id offline_eval →
  to_resource_id
    (evaluation_fields timestamp latency version_eval offline_eval)
  = Ok (evaluation_id assignment model_id version_eval.1).
Proof.
  intros Hof.
  destruct (evaluation_fields_of _ _ timestamp latency version_eval _ Hof)
    as [(Hty & Hp & Hb & Hs & Hm) Hv].
  unfold to_resource_id. rewrite Hty. simpl. unfold key_value. simpl.
  by rewrite Hp, Hb, Hs, Hm, Hv.
Qed.

Section record_evaluations_facts.
Context `{codec : ProtoCodec}.

Lemma set_timestamp_micros_same resource :
  set_timestamp_micros resource (created_micros resource) = resource.
Proof. by destruct resource. Qed.

(** [write] changes at most the timestamp of the caller's record. *)
Lemma write_resource_after_shape fs now resource :
  resource_after (write fs now resource)
  = set_timestamp_micros resource
      (created_micros (resource_after (write fs now resource))).
Proof.
  unfold write.
  destruct (to_resource_id resource) as [res_id|];
    [|by rewrite set_timestamp_micros_same].
  destruct (stored_timestamp fs res_id) as [stored|];
    [|by rewrite set_timestamp_micros_same].
  destruct (negb _); [by rewrite write_encoded_resource_after|].
  destruct (truthy_int stored && _); [by rewrite set_timestamp_micros_same|].
  by rewrite write_encoded_resource_after, set_timestamp_micros_same.
Qed.

Lemma get_timestamp_micros_set resource :
  created_micros resource ≠ 0 →
  negb (truthy_int (get_timestamp_micros resource)) = false.
Proof.
  intros Hset. unfold get_timestamp_micros.
  rewrite bool_decide_eq_false_2 by done. simpl.
  by apply negb_false_iff, negb_true_iff, Z.eqb_neq.
Qed.

(** A record that carries a timestamp is written as it is, and the clock is
    not read. *)
Lemma write_with_timestamp fs now resource :
  created_micros resource ≠ 0 →
  resource_after (write fs now resource) = resource
  ∧ ∀ now', write fs now' resource = write fs now resource.
Proof.
  intros Hset. unfold write.
  destruct (to_resource_id resource) as [res_id|]; [|done].
  destruct (stored_timestamp fs res_id) as [stored|]; [|done].
  rewrite get_timestamp_micros_set by done.
  destruct (truthy_int stored && _); [done|].
  by rewrite write_encoded_resource_after.
Qed.

(** The timestamp a record without one gets. *)
Lemma write_first_timestamp fs now resource res_id :
  created_micros resource = 0 →
  returned (write fs now resource) = Ok res_id →
  created_micros (resource_after (write fs now resource))
  = match read_timestamp_micros fs res_id with
    | Ok stored => if bool_decide (stored = 0) then now else stored
    | Raise _ => now
    end.
Proof.
  intros Hunset Hok.
  destruct (write_success _ _ _ _ Hok)
    as (stored & t & data & Hid & Hstored & _ & -> & Htruthy & Hfalsy).
  rewrite bool_decide_eq_true_2 in Hfalsy by done.
  unfold stored_timestamp in Hstored.
  destruct (read_timestamp_micros fs res_id) as [t0|e].
  - injection Hstored as <-. simpl in *. case_bool_decide as Ht0.
    + apply Hfalsy. by rewrite Ht0.
    + assert (Some t0 = Some t) as [= ->]; [|done].
      apply Htruthy. by apply negb_true_iff, Z.eqb_neq.
  - destruct e; try done. injection Hstored as <-. by apply Hfalsy.
Qed.

(** The loop on an object that carries a timestamp. *)
Lemma record_evaluations_loop_fixed assignment model_id timestamp latency
  version_evals :
  ∀ fs clock index offline_eval,
    evaluation_of assignment model_id offline_eval →
    created_micros offline_eval ≠ 0 →
    let out := record_evaluations_loop fs clock index timestamp latency
                 offline_eval version_evals in
    created_micros (offline_eval_after out) = created_micros offline_eval
    ∧ (raised out = None →
       ∀ version_eval, version_eval ∈ version_evals →
         is_Some (store_after out
                  !! _get_path (evaluation_id assignment model_id version_eval.1)
                       (created_micros offline_eval)))
    ∧ (∀ path, is_Some (fs !! path) → is_Some (store_after out !! path))
    ∧ ∀ clock' index',
        record_evaluations_loop fs clock' index' timestamp latency
          offline_eval version_evals = out.
Proof.
  induction version_evals as [|version_eval version_evals IH];
    intros fs clock index offline_eval Hof Hset out.
  { subst out. simpl. split; [done|]. split; [|done].
    by intros _ ve ?%elem_of_nil. }
  subst out. simpl.
  set (current := evaluation_fields timestamp latency version_eval offline_eval).
  assert (created_micros current = created_micros offline_eval) as Hcreated
    by apply evaluation_fields_created.
  assert (created_micros current ≠ 0) as Hset' by by rewrite Hcreated.
  destruct (write_with_timestamp fs (clock index) current Hset')
    as [Hafter Hclock].
  assert (∀ (clock' : nat → Z) (index' : nat),
            write fs (clock' index') current = write fs (clock index) current)
    as Hclock' by (intros; apply Hclock).
  destruct (returned (write fs (clock index) current)) as [res_id|e] eqn:Hret.
  - destruct (write_success_data _ _ _ _ Hret) as [Hid Hfs].
    rewrite Hafter in Hfs |- *.
    assert (res_id = evaluation_id assignment model_id version_eval.1) as ->.
    { unfold current in Hid.
      rewrite (to_resource_id_evaluation assignment model_id) in Hid by done.
      by injection Hid. }
    destruct (IH (fs_after (write fs (clock index) current)) clock (S index)
                current) as (IHcreated & IHfiles & IHmono & IHclock);
      [by apply evaluation_fields_of|done|].
    cbv zeta in *. rewrite Hcreated in *.
    split; [done|]. split; [|split].
    + intros Hraised ve [->|Hve]%elem_of_cons; [|by apply IHfiles].
      apply IHmono. rewrite Hfs. unfold FileSystem.write_file.
      rewrite lookup_insert_eq. by eexists.
    + intros path Hpath. apply IHmono. rewrite Hfs.
      unfold FileSystem.write_file.
      destruct (decide (_get_path
                          (evaluation_id assignment model_id version_eval.1)
                          (created_micros offline_eval) = path)) as [->|Hne].
      * rewrite lookup_insert_eq. by eexists.
      * by rewrite lookup_insert_ne.
    + intros clock' index'. rewrite Hclock', Hret, Hafter. apply IHclock.
  - destruct (write_failure _ _ _ _ Hret) as [Hfs _].
    simpl. rewrite Hafter, Hfs. split; [done|]. split; [done|].
    split; [done|]. intros clock' index'. by rewrite Hclock', Hret, Hafter, Hfs.
Qed.

End record_evaluations_facts.

Lemma new_evaluation_of assignment model_id :
  evaluation_of assignment model_id
    (new_resource OfflineEvaluation 0
       [("project_id", getattr assignment "project_id");
        ("brain_id", getattr assignment "brain_id");
        ("session_id", getattr assignment "session_id");
        ("model_id", model_id)]).
Proof.
  unfold evaluation_of, new_resource, getattr. simpl.
  rewrite lookup_insert_eq.
  rewrite !(lookup_insert_ne _ "project_id") by done.
  rewrite lookup_insert_eq.
  rewrite !(lookup_insert_ne _ "brain_id") by done.
  rewrite lookup_insert_eq.
  rewrite !(lookup_insert_ne _ "session_id") by done.
  by rewrite lookup_insert_eq.
Qed.

Lemma set_timestamp_evaluation_of assignment model_id offline_eval t :
  evaluation_of assignment model_id offline_eval →
  evaluation_of assignment model_id (set_timestamp_micros offline_eval t).
Proof. done. Qed.

(** X14: one call of [record_evaluations] gives all its evaluations one
    creation timestamp.  The call writes one object again and again, and the
    first [write] stamps it: with the stored timestamp of the first version
    if that is on file with a non-zero one, with the clock otherwise.  If
    the call returns, every version of the call has a file named with that
    timestamp, and the clock was read by the first [write] only. *)
Theorem record_evaluations_one_timestamp `{codec : ProtoCodec} fs clock
  timestamp assignment model_id first rest latency :
  clock 0%nat ≠ 0 →
  let out := record_evaluations fs clock timestamp assignment model_id
               (first :: rest) latency in
  raised out = None →
  let t1 := created_micros (offline_eval_after out) in
  t1 ≠ 0
  ∧ t1 = match read_timestamp_micros fs
                 (evaluation_id assignment model_id first.1) with
         | Ok stored => if bool_decide (stored = 0) then clock 0%nat else stored
         | Raise _ => clock 0%nat
         end
  ∧ (∀ version_eval, version_eval ∈ first :: rest →
       is_Some (store_after out
                !! _get_path (evaluation_id assignment model_id version_eval.1)
                     t1))
  ∧ ∀ clock' : nat → Z,
      clock' 0%nat = clock 0%nat →
      record_evaluations fs clock' timestamp assignment model_id
        (first :: rest) latency = out.
Proof.
  intros Hclock out. subst out. unfold record_evaluations. simpl.
  pose proof (new_evaluation_of assignment model_id) as Hnew.
  set (offline_eval := new_resource OfflineEvaluation 0 _) in *.
  set (current := evaluation_fields timestamp latency first offline_eval).
  assert (created_micros current = 0) as Hunset
    by (unfold current; by rewrite evaluation_fields_created).
  destruct (evaluation_fields_of _ _ timestamp latency first _ Hnew)
    as [Hcurrent _]. fold current in Hcurrent.
  destruct (returned (write fs (clock 0%nat) current)) as [res_id|e] eqn:Hret;
    [|done].
  intros Hraised.
  destruct (write_success_data _ _ _ _ Hret) as [Hid Hfs].
  assert (res_id = evaluation_id assignment model_id first.1) as ->.
  { unfold current in Hid.
    rewrite (to_resource_id_evaluation assignment model_id) in Hid by done.
    by injection Hid. }
  pose proof (write_first_timestamp _ _ _ _ Hunset Hret) as Hfirst.
  pose proof (write_resource_after_shape fs (clock 0%nat) current) as Hshape.
  set (stamped := resource_after (write fs (clock 0%nat) current)) in *.
  assert (created_micros stamped ≠ 0) as Hstamped.
  { rewrite Hfirst.
    destruct (read_timestamp_micros fs _) as [stored|]; [|done].
    by case_bool_decide. }
  assert (evaluation_of assignment model_id stamped) as Hof.
  { rewrite Hshape. by apply set_timestamp_evaluation_of. }
  destruct (record_evaluations_loop_fixed assignment model_id timestamp latency
              rest (fs_after (write fs (clock 0%nat) current)) clock 1%nat
              stamped Hof Hstamped)
    as (Hcreated & Hfiles & Hmono & Hclocks).
  cbv zeta in *. rewrite Hcreated.
  split; [done|]. split; [done|]. split.
  - intros version_eval [->|Hin]%elem_of_cons; [|by apply Hfiles].
    apply Hmono. rewrite Hfs. unfold FileSystem.write_file.
    rewrite lookup_insert_eq. by eexists.
  - intros clock' Hclock'. rewrite Hclock', Hret. apply Hclocks.
Qed.

Lemma record_evaluations_one_timestamp_witness :
  is_Some
    (store_after
       (record_evaluations (codec := BinaryCodec.codec) three_brains
          (λ i, 500 + Z.of_nat i) 400 assignment_a1 "m1"
          [("1", "0.5"); ("2", "0.25")] None)
     !! "projects/p1/brains/b1/sessions/s1/models/m1/offline_evaluations/2/resource.0000000000000500").
Proof.
  refine (proj1 (proj2 (proj2
            (record_evaluations_one_timestamp (codec := BinaryCodec.codec)
               three_brains (λ i, 500 + Z.of_nat i) 400 assignment_a1 "m1"
               ("1", "0.5") [("2", "0.25")] None _ _)))
            ("2", "0.25") _).
  - discriminate.
  - reflexivity.
  - right. left.
Defined.

(** *** Evaluations recorded at different times *)





(** * Properties of the assignment callbacks *)

Lemma callbacks_get_None d cb : callbacks_get d cb = None ↔ cb ∉ d.*1.
Proof.
  induction d as [|[k v] d IH]; simpl.
  - split; [intros _; apply not_elem_of_nil|done].
  - rewrite not_elem_of_cons. case_decide as Hk.
    + split; [done|]. by intros [? _].
    + rewrite IH. split; [by intros ?; split|by intros [_ ?]].
Qed.

Lemma callbacks_get_Some d cb registered :
  callbacks_get d cb = Some registered → (cb, registered) ∈ d.
Proof.
  induction d as [|[k v] d IH]; simpl; [done|].
  case_decide as Hk.
  - intros [= <-]. subst k. by left.
  - intros ?%IH. by right.
Qed.

Lemma filter_ne_not_elem_of {A} `{EqDecision A} (x : A) (l : list A) :
  x ∉ l → filter (λ y, y ≠ x) l = l.
Proof.
  intros Hx. apply filter_Forall_id, Forall_forall.
  intros y Hy ->. done.
Qed.

(** [dict.pop] on a dictionary whose values are pairwise different. *)
Lemma callbacks_pop_spec d cb registered :
  NoDup d.*1 → NoDup d.*2 →
  callbacks_get d cb = Some registered →
  (callbacks_pop d cb).*1 = filter (λ other, other ≠ cb) d.*1
  ∧ (callbacks_pop d cb).*2 = filter (λ other, other ≠ registered) d.*2.
Proof.
  induction d as [|[k v] d IH]; [done|]. rewrite !fmap_cons.
  intros [Hk Hkeys]%NoDup_cons [Hv Hvalues]%NoDup_cons.
  cbn [callbacks_get callbacks_pop fst snd]. case_decide as Hcb.
  - intros [= <-]. subst k.
    rewrite !filter_cons_False by (intros ?; done).
    by rewrite !filter_ne_not_elem_of.
  - intros Hget. destruct (IH Hkeys Hvalues Hget) as [IHk IHv].
    assert (v ≠ registered) as Hne.
    { intros ->. apply Hv. apply callbacks_get_Some in Hget.
      by apply (list_elem_of_fmap_2 snd) in Hget. }
    rewrite !filter_cons_True by done. rewrite !fmap_cons.
    cbn [fst snd]. by rewrite IHk, IHv.
Qed.


Lemma no_callbacks_consistent : callbacks_consistent no_callbacks.
Proof.
  split; [done|]. split; [apply NoDup_nil_2|]. split; [apply NoDup_nil_2|].
  by intros cb registered ?%elem_of_nil.
Qed.

Lemma add_assignment_callback_consistent st cb :
  callbacks_consistent st →
  callbacks_consistent (add_assignment_callback st cb).2
  ∧ (_callbacks (add_assignment_callback st cb).2).*1
    = registered_after (_callbacks st).*1 (Add cb)
  ∧ ((add_assignment_callback st cb).1 = Some AddedTwice
     ↔ cb ∈ (_callbacks st).*1).
Proof.
  intros (Hfiles & Hkeys & Hvalues & Hwrapped).
  unfold add_assignment_callback, registered_after.
  destruct (callbacks_get (_callbacks st) cb) as [registered|] eqn:Hget.
  - assert (cb ∈ (_callbacks st).*1) as Hin.
    { apply callbacks_get_Some in Hget.
      by apply (list_elem_of_fmap_2 fst) in Hget. }
    rewrite decide_True by done. simpl. split; [|done].
    split; [done|]. split; [done|]. split; [done|].
    intros k v Hkv. apply Hwrapped in Hkv as [? ?]. simpl. split; [done|lia].
  - apply callbacks_get_None in Hget. rewrite decide_False by done.
    cbn [fst snd]. unfold callbacks_consistent.
    cbn [_callbacks file_callbacks closures]. rewrite !fmap_app, !fmap_cons.
    cbn [fst snd fmap list_fmap].
    split; [|done]. split; [by rewrite Hfiles|]. split; [|split].
    + apply NoDup_app. split; [done|]. split; [|apply NoDup_singleton].
      intros k Hk ->%list_elem_of_singleton. done.
    + apply NoDup_app. split; [done|]. split; [|apply NoDup_singleton].
      intros v Hv ->%list_elem_of_singleton.
      apply list_elem_of_fmap in Hv as ([k v] & Heq & Hin). simpl in Heq.
      subst v. apply Hwrapped in Hin as [_ Hserial]. simpl in Hserial. lia.
    + intros k v [Hin|Hin%list_elem_of_singleton]%elem_of_app.
      * apply Hwrapped in Hin as [? ?]. split; [done|lia].
      * injection Hin as -> ->. simpl. split; [done|lia].
Qed.

Lemma remove_assignment_callback_consistent st cb :
  callbacks_consistent st →
  callbacks_consistent (remove_assignment_callback st cb).2
  ∧ (_callbacks (remove_assignment_callback st cb).2).*1
    = registered_after (_callbacks st).*1 (Remove cb)
  ∧ ((remove_assignment_callback st cb).1 = Some KeyError
     ↔ cb ∉ (_callbacks st).*1).
Proof.
  intros (Hfiles & Hkeys & Hvalues & Hwrapped).
  unfold remove_assignment_callback, registered_after.
  destruct (callbacks_get (_callbacks st) cb) as [registered|] eqn:Hget.
  - destruct (callbacks_pop_spec _ _ _ Hkeys Hvalues Hget) as [Hpopk Hpopv].
    assert (cb ∈ (_callbacks st).*1) as Hin.
    { apply callbacks_get_Some in Hget.
      by apply (list_elem_of_fmap_2 fst) in Hget. }
    cbn [fst snd]. unfold callbacks_consistent.
    cbn [_callbacks file_callbacks closures].
    split; [|split; [done|]].
    2: { split; [done|]. by intros ?. }
    split; [by rewrite Hpopv, Hfiles|]. rewrite Hpopk, Hpopv.
    split; [by apply NoDup_filter|]. split; [by apply NoDup_filter|].
    intros k v Hkv. apply Hwrapped.
    clear -Hkv. induction (_callbacks st) as [|[k' v'] d IH]; [done|].
    simpl in Hkv. case_decide; [by right|].
    apply elem_of_cons in Hkv as [->|Hkv]; [by left|right; auto].
  - cbn [fst snd]. apply callbacks_get_None in Hget.
    split; [done|]. split; [by rewrite filter_ne_not_elem_of|done].
Qed.

Lemma remove_all_assignment_callbacks_empty fuel st :
  callbacks_consistent st →
  (length (_callbacks st) ≤ fuel)%nat →
  ∃ st', remove_all_assignment_callbacks fuel st = Some (None, st')
         ∧ _callbacks st' = [] ∧ file_callbacks st' = []
         ∧ closures st' = closures st.
Proof.
  revert st. induction fuel as [|fuel IH]; intros st Hst Hfuel.
  - destruct st as [d files n]. simpl in *.
    destruct d; [|simpl in Hfuel; lia].
    destruct Hst as [Hfiles _]. simpl in Hfiles. subst files. by eexists.
  - destruct (_callbacks st) as [|[cb registered] d] eqn:Hd.
    + destruct Hst as [Hfiles _]. rewrite Hd in Hfiles.
      exists st. simpl. by rewrite Hd.
    + destruct (remove_assignment_callback_consistent st cb Hst)
        as (Hst' & _ & _).
      simpl. rewrite Hd.
      assert (remove_assignment_callback st cb
              = (None, (remove_assignment_callback st cb).2)
              ∧ _callbacks (remove_assignment_callback st cb).2 = d
              ∧ closures (remove_assignment_callback st cb).2 = closures st)
        as (Heq & Hd' & Hclosures).
      { unfold remove_assignment_callback. rewrite Hd. simpl.
        by rewrite !decide_True. }
      rewrite Heq.
      destruct (IH _ Hst') as (st' & -> & ? & ? & ?).
      { rewrite Hd'. simpl in Hfuel. lia. }
      exists st'. by rewrite <-Hclosures.
Qed.

Lemma run_call_consistent st call :
  callbacks_consistent st →
  callbacks_consistent (run_call st call)
  ∧ (_callbacks (run_call st call)).*1
    = registered_after (_callbacks st).*1 call.
Proof.
  intros Hst. destruct call as [cb|cb|]; simpl.
  - by destruct (add_assignment_callback_consistent st cb Hst) as (? & ? & _).
  - by destruct (remove_assignment_callback_consistent st cb Hst)
      as (? & ? & _).
  - destruct (remove_all_assignment_callbacks_empty
                (length (_callbacks st)) st Hst)
      as (st' & -> & Hd & Hfiles & _); [done|].
    split; [|by rewrite Hd]. unfold callbacks_consistent. rewrite Hd, Hfiles.
    split; [done|]. split; [apply NoDup_nil_2|]. split; [apply NoDup_nil_2|].
    by intros cb registered ?%elem_of_nil.
Qed.

Lemma run_calls_consistent calls st registered :
  callbacks_consistent st →
  (_callbacks st).*1 = registered →
  callbacks_consistent (foldl run_call st calls)
  ∧ (_callbacks (foldl run_call st calls)).*1
    = foldl registered_after registered calls.
Proof.
  revert st registered.
  induction calls as [|call calls IH]; intros st registered Hst Hkeys;
    [done|].
  simpl. destruct (run_call_consistent st call Hst) as [Hst' Hkeys'].
  apply IH; [done|]. by rewrite Hkeys', Hkeys.
Qed.

(** X16: the assignment callbacks.  After any sequence of calls to
    [add_assignment_callback], [remove_assignment_callback] and
    [remove_all_assignment_callbacks] on a new [DataStore], by a client that
    goes on after an exception, the callbacks in the dictionary are those
    added and not removed since, each once, and the handlers registered with
    the byte store are exactly their wrappers: a new file, whatever it is,
    calls every one of these callbacks once with the file's name and no
    other.  Adding fails exactly for a callback that is registered, removing
    fails exactly for one that is not, and removing all, which ends after one
    iteration per callback, leaves no handler behind. *)
Theorem assignment_callbacks_registry calls :
  let st := foldl run_call no_callbacks calls in
  let registered := foldl registered_after [] calls in
  (_callbacks st).*1 = registered
  ∧ NoDup registered
  ∧ (∀ file_name,
       notify st file_name = (λ cb, (cb, file_name)) <$> registered)
  ∧ (∀ cb, (add_assignment_callback st cb).1 = Some AddedTwice
           ↔ cb ∈ registered)
  ∧ (∀ cb, (remove_assignment_callback st cb).1 = Some KeyError
           ↔ cb ∉ registered)
  ∧ ∃ st', remove_all_assignment_callbacks (length registered) st
           = Some (None, st')
           ∧ _callbacks st' = [] ∧ file_callbacks st' = [].
Proof.
  intros st registered.
  destruct (run_calls_consistent calls no_callbacks []
              no_callbacks_consistent eq_refl) as [Hst Hkeys].
  fold st in Hst, Hkeys. fold registered in Hkeys.
  pose proof Hst as (Hfiles & Hnodup & _ & Hwrapped).
  rewrite Hkeys in Hnodup.
  split; [done|]. split; [done|]. split; [|split; [|split]].
  - intros file_name. unfold notify. rewrite Hfiles, <-Hkeys.
    rewrite <-!list_fmap_compose. apply list_fmap_ext.
    intros i [cb wrapper] Hi%list_elem_of_lookup_2. simpl.
    by apply Hwrapped in Hi as [-> _].
  - intros cb. rewrite <-Hkeys.
    by destruct (add_assignment_callback_consistent st cb Hst) as (_ & _ & ?).
  - intros cb. rewrite <-Hkeys.
    by destruct (remove_assignment_callback_consistent st cb Hst)
      as (_ & _ & ?).
  - destruct (remove_all_assignment_callbacks_empty (length registered) st Hst)
      as (st' & ? & ? & ? & _); [by rewrite <-Hkeys, length_fmap|].
    by exists st'.
Qed.

(** * File names *)

Lemma digits_go_length fuel n acc (k : nat) :
  0 ≤ n < 10 ^ Z.of_nat k → (1 ≤ k)%nat →
  (String.length (PyStr.digits_go fuel n acc) ≤ k + String.length acc)%nat.
Proof.
  revert n acc k. induction fuel as [|fuel IH]; intros n acc k Hn Hk; simpl.
  - lia.
  - destruct (Z.ltb_spec n 10) as [Hlt|Hge]; simpl; [lia|].
    destruct k as [|[|k]]; [lia|simpl in Hn; lia|].
    etrans; [apply (IH _ _ (S k))|simpl; lia]; [|lia].
    split; [apply Z.div_pos; lia|].
    apply Z.div_lt_upper_bound; [lia|].
    rewrite (Nat2Z.inj_succ (S k)), Z.pow_succ_r in Hn by lia. lia.
Qed.

Lemma zeros_length k : String.length (PyStr.zeros k) = k.
Proof. induction k as [|k IH]; simpl; [done|]. by rewrite IH. Qed.

(** The value of a string of digits, and its size. *)
Lemma parse_digits_all s :
  PyStr.all PyStr.is_digit s = true →
  ∃ v, 0 ≤ v < 10 ^ Z.of_nat (String.length s)
       ∧ ∀ acc, PyStr.parse_digits true acc s
                = Some (acc * 10 ^ Z.of_nat (String.length s) + v).
Proof.
  induction s as [|a s IH].
  - intros _. exists 0. split; [simpl; lia|]. intros acc. simpl. f_equal. lia.
  - cbn [PyStr.all PyStr.parse_digits String.length].
    unfold PyStr.is_digit at 1.
    destruct (PyStr.digit_value a) as [d|] eqn:Hd; [|done].
    intros Hs. destruct (IH Hs) as (v & Hbound & Hparse). clear IH.
    assert (0 ≤ d < 10) as Hdigit.
    { unfold PyStr.digit_value in Hd.
      destruct (_ && _) eqn:Hrange; [|done]. injection Hd as <-.
      apply andb_true_iff in Hrange as [?%N.leb_le ?%N.leb_le]. lia. }
    rewrite Nat2Z.inj_succ, Z.pow_succ_r by lia.
    set (P := 10 ^ Z.of_nat (String.length s)) in *.
    exists (d * P + v). split; [nia|].
    intros acc. rewrite Hparse. f_equal. lia.
Qed.

Lemma parse_digits_value s :
  PyStr.all PyStr.is_digit s = true →
  0 ≤ decimal_value s < 10 ^ Z.of_nat (String.length s)
  ∧ ∀ acc, PyStr.parse_digits true acc s
           = Some (acc * 10 ^ Z.of_nat (String.length s) + decimal_value s).
Proof.
  intros (v & Hbound & Hparse)%parse_digits_all.
  assert (decimal_value s = v) as ->; [|done].
  unfold decimal_value. rewrite Hparse. simpl. lia.
Qed.

Lemma digits_value t :
  0 ≤ t → decimal_value (PyStr.digits t) = t.
Proof.
  intros Ht. unfold decimal_value.
  by rewrite (PyStrFacts.parse_digits_digits t true Ht).
Qed.

(** The sixteen digits of a timestamp that fits. *)
Lemma padded_digits t :
  0 ≤ t →
  PyStr.all PyStr.is_digit (PyStr.of_int_zero_padded 16 t) = true
  ∧ decimal_value (PyStr.of_int_zero_padded 16 t) = t
  ∧ (String.length (PyStr.of_int_zero_padded 16 t) = 16%nat ↔ t < 10 ^ 16).
Proof.
  intros Ht. unfold PyStr.of_int_zero_padded.
  destruct (Z.ltb_spec t 0) as [?|_]; [lia|]. cbv zeta.
  destruct (PyStrFacts.digits_spec t) as [Hall Hne].
  split; [|split].
  - by rewrite PyStrFacts.all_app, PyStrFacts.all_zeros, Hall.
  - unfold decimal_value. rewrite PyStrFacts.parse_digits_zeros. simpl.
    by rewrite (PyStrFacts.parse_digits_digits t true Ht).
  - rewrite PyStrFacts.app_length, zeros_length.
    destruct (parse_digits_value _ Hall) as [Hbound _].
    rewrite digits_value in Hbound by done.
    split.
    + intros Hlen.
      assert (String.length (PyStr.digits t) ≤ 16)%nat as Hle by lia.
      eapply Z.lt_le_trans; [apply Hbound|].
      apply Z.pow_le_mono_r; lia.
    + intros Hfits.
      pose proof (digits_go_length (S (Z.to_nat (Z.log2 t))) t EmptyString 16)
        as Hle. fold (PyStr.digits t) in Hle. simpl in Hle.
      specialize (Hle ltac:(lia) ltac:(lia)). lia.
Qed.

Lemma digit_value_code a d :
  PyStr.digit_value a = Some d → Z.of_N (N_of_ascii a) = 48 + d.
Proof.
  unfold PyStr.digit_value. destruct (_ && _); [|done].
  intros [= <-]. lia.
Qed.

(** Strings of digits of one length compare as the numbers they denote. *)
Lemma digit_strings_compare s1 s2 :
  PyStr.all PyStr.is_digit s1 = true → PyStr.all PyStr.is_digit s2 = true →
  String.length s1 = String.length s2 →
  (s1 ?= s2)%string = (decimal_value s1 ?= decimal_value s2).
Proof.
  revert s2. induction s1 as [|a s1 IH]; intros [|b s2]; try done.
  intros Hall1 Hall2 [= Hlen].
  destruct (parse_digits_value _ Hall1) as [_ Hv1].
  destruct (parse_digits_value _ Hall2) as [_ Hv2].
  cbn [PyStr.all] in Hall1, Hall2.
  apply andb_true_iff in Hall1 as [Ha Hall1].
  apply andb_true_iff in Hall2 as [Hb Hall2].
  destruct (parse_digits_value _ Hall1) as [Hbound1 Hparse1].
  destruct (parse_digits_value _ Hall2) as [Hbound2 Hparse2].
  unfold PyStr.is_digit in Ha, Hb.
  destruct (PyStr.digit_value a) as [da|] eqn:Hda; [|done].
  destruct (PyStr.digit_value b) as [db|] eqn:Hdb; [|done].
  specialize (Hv1 0). specialize (Hv2 0).
  cbn [PyStr.parse_digits] in Hv1, Hv2. rewrite Hda in Hv1. rewrite Hdb in Hv2.
  rewrite Hparse1 in Hv1. rewrite Hparse2 in Hv2.
  injection Hv1 as Hv1. injection Hv2 as Hv2.
  rewrite <-Hlen in *.
  set (P := 10 ^ Z.of_nat (String.length s1)) in *.
  assert (decimal_value (String a s1) = da * P + decimal_value s1) as -> by lia.
  assert (decimal_value (String b s2) = db * P + decimal_value s2) as -> by lia.
  cbn [String.compare]. unfold Ascii.compare.
  apply digit_value_code in Hda, Hdb.
  rewrite <-N2Z.inj_compare, Hda, Hdb.
  destruct (Z.compare_spec da db) as [->|Hlt|Hgt].
  - rewrite Z.compare_refl, IH by done.
    destruct (Z.compare_spec (decimal_value s1) (decimal_value s2));
      symmetry; [apply Z.compare_eq_iff|apply Z.compare_lt_iff
                |apply Z.compare_gt_iff]; lia.
  - replace (48 + da ?= 48 + db) with Lt
      by (symmetry; apply Z.compare_lt_iff; lia).
    symmetry. apply Z.compare_lt_iff. nia.
  - replace (48 + da ?= 48 + db) with Gt
      by (symmetry; apply Z.compare_gt_iff; lia).
    symmetry. apply Z.compare_gt_iff. nia.
Qed.

Lemma compare_app_prefix p s1 s2 :
  (p +:+ s1 ?= p +:+ s2)%string = (s1 ?= s2)%string.
Proof.
  induction p as [|a p IH]; [done|]. rewrite !PyStrFacts.app_cons.
  cbn [String.compare]. unfold Ascii.compare. by rewrite N.compare_refl.
Qed.

(** X17: file names of fixed width.  A timestamp from 0 up to, but not
    including, ten to the sixteenth gets a file name of twenty-five
    characters, the prefix and sixteen digits, and from there on a longer
    one; and among these names the order of the strings is the order of the
    timestamps. *)
Theorem filename_fixed_width t1 t2 :
  0 ≤ t1 → 0 ≤ t2 →
  (String.length (_get_filename t1) = 25%nat ↔ t1 < 10 ^ 16)
  ∧ (t1 < 10 ^ 16 → t2 < 10 ^ 16 →
     (String.le (_get_filename t1) (_get_filename t2) ↔ t1 ≤ t2)
     ∧ (_get_filename t1 = _get_filename t2 ↔ t1 = t2)).
Proof.
  intros Ht1 Ht2.
  destruct (padded_digits t1 Ht1) as (Hall1 & Hvalue1 & Hlen1).
  destruct (padded_digits t2 Ht2) as (Hall2 & Hvalue2 & Hlen2).
  unfold _get_filename. split.
  - rewrite PyStrFacts.app_length, <-Hlen1. simpl. lia.
  - intros Hfits1 Hfits2. split.
    + unfold String.le, String.leb. rewrite compare_app_prefix.
      rewrite digit_strings_compare, Hvalue1, Hvalue2 by
        (try done; by rewrite (proj2 Hlen1), (proj2 Hlen2)).
      destruct (Z.compare_spec t1 t2); simpl; split; try done; lia.
    + split; [|by intros ->]. intros Heq%(inj (String.append _)).
      by rewrite <-Hvalue1, <-Hvalue2, Heq.
Qed.

Lemma filename_fixed_width_witness :
  String.length (_get_filename 1700000000000000) = 25%nat
  ↔ 1700000000000000 < 10 ^ 16.
Proof.
  refine (proj1 (filename_fixed_width 1700000000000000 0 _ _)); lia.
Defined.
